(** * go-odm-mongo: a shallow embedding of [src/mongo/mongo.go]

    The document manager of the ODM is embedded function by function:
    metadata compilation ([getTypeMetadatas], [Register]), the identity
    helpers ([findIDField], [getDocumentID], [setIDForValue]), the
    projection ([structToMap]), the unit of work ([Persist], [Remove],
    [Flush], [doPersist], [doRemove]) and the relation resolver
    ([resolveRelations], [doResolveRelations]).

    Conventions of the embedding.
    - A Go [error] result is an [option error]; a runtime panic of the
      reflection code is the outcome [Panic]; a loop or a recursion that
      has not finished within the given fuel is the outcome [Timeout].
    - Entities live in a heap addressed by pointers, so that the identity
      of an entity is its address, as for the keys of [tasks] in Go.
    - The database driver (mgo) is a parameter: a record of functions that
      answer a call from the history of calls made so far.
    - Logging ([manager.log]) has no effect on the state and is left out. *)

From Stdlib Require Import Ascii String.
From stdpp Require Import base option list strings gmap fin_maps.

Local Open Scope string_scope.
Local Open Scope list_scope.

(** ** Errors and outcomes *)

Inductive error :=
| ErrDocumentNotRegistered
| ErrIDFieldNotFound
| ErrMappedFieldNotFound
| ErrNotAstruct
| ErrNotAPointer
| ErrNotAnArray
| ErrNotImpletemented
| ErrFieldNotFound
| ErrInvalidAnnotation
| ErrNotFound                 (* mgo.ErrNotFound *)
| ErrOther (msg : string).    (* any other error of the driver or of the tag parser *)

Global Instance error_eq_dec : EqDecision error.
Proof. solve_decision. Defined.

Inductive outcome (A : Type) :=
| Ok (a : A)
| Panic (msg : string)
| Timeout.
Arguments Ok {A} a.
Arguments Panic {A} msg.
Arguments Timeout {A}.

(** ** Go's [strings] functions used by the mapper (ASCII model) *)

Definition isUpper (c : ascii) : bool :=
  (65 <=? nat_of_ascii c)%nat && (nat_of_ascii c <=? 90)%nat.

Definition lowerAscii (c : ascii) : ascii :=
  if isUpper c then ascii_of_nat (nat_of_ascii c + 32) else c.

Fixpoint ToLower (s : string) : string :=
  match s with
  | EmptyString => EmptyString
  | String c rest => String (lowerAscii c) (ToLower rest)
  end.

Definition isSpace (c : ascii) : bool :=
  let n := nat_of_ascii c in
  (n =? 32)%nat || ((9 <=? n)%nat && (n <=? 13)%nat).

Fixpoint trimLeft (s : string) : string :=
  match s with
  | EmptyString => EmptyString
  | String c rest => if isSpace c then trimLeft rest else s
  end.

Fixpoint trimRight (s : string) : string :=
  match s with
  | EmptyString => EmptyString
  | String c rest =>
      match trimRight rest with
      | EmptyString => if isSpace c then EmptyString else String c EmptyString
      | r => String c r
      end
  end.

Definition TrimSpace (s : string) : string := trimRight (trimLeft s).

(** [strings.Split s sep] for a one-character separator: never empty,
    [Split "" sep] is the list holding the empty string. *)
Fixpoint Split (s : string) (sep : ascii) : list string :=
  match s with
  | EmptyString => [EmptyString]
  | String c rest =>
      if Ascii.eqb c sep then EmptyString :: Split rest sep
      else match Split rest sep with
           | [] => [String c EmptyString]
           | p :: ps => String c p :: ps
           end
  end.

Definition comma : ascii := ascii_of_nat 44.

(** ** The annotation tokenizer (package [tag]) *)

Module tag.

Record Param := { Key : string; Value : string }.
Record Def := { Name : string; Parameters : list Param }.

Fixpoint stripSpaces (s : string) : string :=
  match s with
  | EmptyString => EmptyString
  | String c rest => if isSpace c then stripSpaces rest else String c (stripSpaces rest)
  end.

Fixpoint dropLast (s : string) : option (string * ascii) :=
  match s with
  | EmptyString => None
  | String c rest =>
      match dropLast rest with
      | None => Some (EmptyString, c)
      | Some (r, l) => Some (String c r, l)
      end
  end.

Definition parseParam (p : string) : option Param :=
  match Split p (ascii_of_nat 61) with
  | [k; v] => if String.eqb k "" then None else Some {| Key := k; Value := v |}
  | _ => None
  end.

Fixpoint parseParams (ps : list string) : option (list Param) :=
  match ps with
  | [] => Some []
  | p :: rest =>
      match parseParam p, parseParams rest with
      | Some x, Some xs => Some (x :: xs)
      | _, _ => None
      end
  end.

Definition parseDefinition (d : string) : option Def :=
  match Split d (ascii_of_nat 40) with
  | [name; rest] =>
      match dropLast rest with
      | Some (inner, close) =>
          if String.eqb name "" || negb (Ascii.eqb close (ascii_of_nat 41)) then None
          else if String.eqb inner "" then Some {| Name := name; Parameters := [] |}
          else match parseParams (Split inner comma) with
               | Some ps => Some {| Name := name; Parameters := ps |}
               | None => None
               end
      | None => None
      end
  | _ => None
  end.

Fixpoint parseDefinitions (ds : list string) : option (list Def) :=
  match ds with
  | [] => Some []
  | d :: rest =>
      match parseDefinition d, parseDefinitions rest with
      | Some x, Some xs => Some (x :: xs)
      | _, _ => None
      end
  end.

(** Modelled from the spec: the tokenizer of package [tag]
    ([tag.NewParser(r).Parse()]), which is not part of the sources at
    hand.  Section 6.2 gives its interface (a string to a sequence of
    definitions or a syntax error) and section 9 its grammar: definitions
    separated by semicolons, a definition being a name followed by a
    parenthesised, comma-separated and possibly empty list of parameters
    [key=value]; whitespace is not significant.  The empty tag has no
    definition.  The mapper itself is stated over an arbitrary
    tokenizer; this one only builds the concrete schemas. *)
Definition Parse (s : string) : error + list Def :=
  let s' := stripSpaces s in
  if String.eqb s' "" then inr []
  else match parseDefinitions (Split s' (ascii_of_nat 59)) with
       | Some ds => inr ds
       | None => inl (ErrOther "syntax error")
       end.

End tag.

(** ** Metadata: relations, fields, entity metadata *)

Inductive relationMap := noRelationMap | mappedBy | inversedBy.
Inductive relationType := noRelationType | referenceMany | referenceOne.

Module Load.
Inductive load := lazy | eager.
End Load.

Module Cascade.
Inductive cascade := none | all | persist | remove.
End Cascade.

Module Task.
Inductive task := del | insert | update.
End Task.

Global Instance relationMap_eq_dec : EqDecision relationMap.
Proof. solve_decision. Defined.
Global Instance relationType_eq_dec : EqDecision relationType.
Proof. solve_decision. Defined.
Global Instance load_eq_dec : EqDecision Load.load.
Proof. solve_decision. Defined.
Global Instance cascade_eq_dec : EqDecision Cascade.cascade.
Proof. solve_decision. Defined.
Global Instance task_eq_dec : EqDecision Task.task.
Proof. solve_decision. Defined.

Record relation := {
  rel_load : Load.load;
  rel_relation : relationType;
  rel_targetDocument : string;
  rel_cascade : Cascade.cascade;
  rel_mapped : relationMap;
  rel_mappedField : string;
  rel_idStorageField : string
}.

Global Instance relation_eq_dec : EqDecision relation.
Proof. solve_decision. Defined.

Definition zeroRelation : relation :=
  {| rel_load := Load.lazy; rel_relation := noRelationType; rel_targetDocument := "";
     rel_cascade := Cascade.none; rel_mapped := noRelationMap; rel_mappedField := "";
     rel_idStorageField := "" |}.

Record field := {
  fld_composite : bool;
  fld_index : bool;
  fld_unique : bool;
  fld_key : string;
  fld_name : string;
  fld_omitempty : bool;
  fld_relation : relation;
  fld_ignore : bool
}.

(** A field of a struct type as reflection shows it: its name and the
    [bson] and [odm] entries of its struct tag. *)
Record StructField := { sf_Name : string; sf_bson : string; sf_odm : string }.

Global Instance StructField_eq_dec : EqDecision StructField.
Proof. solve_decision. Defined.

(** [reflect.Type], as far as the mapper looks at it. *)
Inductive rtype :=
| TStruct (name : string) (decl : list StructField)
| TPtr (elem : rtype)
| TSlice (elem : rtype)
| TBasic (name : string).

Global Instance rtype_eq_dec : EqDecision rtype.
Proof. solve_decision. Defined.

Record metadata := {
  meta_targetDocument : string;
  meta_structType : option rtype;
  meta_idField : string;
  meta_idKey : string;
  meta_fields : list field
}.

Definition zeroMetadata : metadata :=
  {| meta_targetDocument := ""; meta_structType := None; meta_idField := "";
     meta_idKey := ""; meta_fields := [] |}.

Definition hasRelation (f : field) : bool :=
  bool_decide (fld_relation f ≠ zeroRelation).

Definition findField (meta : metadata) (fieldname : string) : option field :=
  List.find (fun f => String.eqb (fld_name f) fieldname) (meta_fields meta).

Definition hasFieldWithIndex (meta : metadata) : bool :=
  existsb fld_index (meta_fields meta).

Definition findFieldsWithIndex (meta : metadata) : list field :=
  List.filter fld_index (meta_fields meta).

(** [mgo.Index], restricted to the two members the mapper sets. *)
Record Index := { idx_Key : list string; idx_Unique : bool }.

Definition getIndexes (meta : metadata) : list Index :=
  List.map (fun f => {| idx_Key := [fld_key f]; idx_Unique := fld_unique f |})
           (findFieldsWithIndex meta).

Definition hasFieldWithComposite (meta : metadata) : bool :=
  existsb fld_composite (meta_fields meta).

Definition findFieldsWithComposite (meta : metadata) : list field :=
  List.filter fld_composite (meta_fields meta).

Definition getComposites (meta : metadata) : list Index :=
  [ {| idx_Key := List.map fld_key (findFieldsWithComposite meta); idx_Unique := true |} ].

Definition findIDField (meta : metadata) : option field :=
  List.find (fun f => String.eqb (fld_key f) "_id") (meta_fields meta).

Definition metaHasRelation (meta : metadata) : bool :=
  existsb hasRelation (meta_fields meta).

Definition getFieldsWithRelation (meta : metadata) : list field :=
  List.filter hasRelation (meta_fields meta).

(** ** Metadata compilation: [getTypeMetadatas] *)

Definition setRelation (f : field) (r : relation) : field :=
  {| fld_composite := fld_composite f; fld_index := fld_index f; fld_unique := fld_unique f;
     fld_key := fld_key f; fld_name := fld_name f; fld_omitempty := fld_omitempty f;
     fld_relation := r; fld_ignore := fld_ignore f |}.

Definition setKey (f : field) (k : string) : field :=
  {| fld_composite := fld_composite f; fld_index := fld_index f; fld_unique := fld_unique f;
     fld_key := k; fld_name := fld_name f; fld_omitempty := fld_omitempty f;
     fld_relation := fld_relation f; fld_ignore := fld_ignore f |}.

Definition setOmitempty (f : field) : field :=
  {| fld_composite := fld_composite f; fld_index := fld_index f; fld_unique := fld_unique f;
     fld_key := fld_key f; fld_name := fld_name f; fld_omitempty := true;
     fld_relation := fld_relation f; fld_ignore := fld_ignore f |}.

Definition setIndex (f : field) (b : bool) : field :=
  {| fld_composite := fld_composite f; fld_index := b; fld_unique := fld_unique f;
     fld_key := fld_key f; fld_name := fld_name f; fld_omitempty := fld_omitempty f;
     fld_relation := fld_relation f; fld_ignore := fld_ignore f |}.

Definition setUnique (f : field) : field :=
  {| fld_composite := fld_composite f; fld_index := fld_index f; fld_unique := true;
     fld_key := fld_key f; fld_name := fld_name f; fld_omitempty := fld_omitempty f;
     fld_relation := fld_relation f; fld_ignore := fld_ignore f |}.

Definition setComposite (f : field) : field :=
  {| fld_composite := true; fld_index := fld_index f; fld_unique := fld_unique f;
     fld_key := fld_key f; fld_name := fld_name f; fld_omitempty := fld_omitempty f;
     fld_relation := fld_relation f; fld_ignore := fld_ignore f |}.

(** The [switch] over the key of one parameter of a relation definition;
    [None] is the [default] branch, [return meta, ErrInvalidAnnotation]. *)
Definition relationParameter (parameter : tag.Param) (Relation : relation) : option relation :=
  let k := ToLower (tag.Key parameter) in
  let v := tag.Value parameter in
  if String.eqb k "mappedby" then
    Some {| rel_load := rel_load Relation; rel_relation := rel_relation Relation;
            rel_targetDocument := rel_targetDocument Relation; rel_cascade := rel_cascade Relation;
            rel_mapped := mappedBy; rel_mappedField := v;
            rel_idStorageField := rel_idStorageField Relation |}
  else if String.eqb k "inversedby" then
    Some {| rel_load := rel_load Relation; rel_relation := rel_relation Relation;
            rel_targetDocument := rel_targetDocument Relation; rel_cascade := rel_cascade Relation;
            rel_mapped := inversedBy; rel_mappedField := v;
            rel_idStorageField := rel_idStorageField Relation |}
  else if String.eqb k "targetdocument" then
    Some {| rel_load := rel_load Relation; rel_relation := rel_relation Relation;
            rel_targetDocument := v; rel_cascade := rel_cascade Relation;
            rel_mapped := rel_mapped Relation; rel_mappedField := rel_mappedField Relation;
            rel_idStorageField := rel_idStorageField Relation |}
  else if String.eqb k "cascade" then
    let c := ToLower v in
    let cas := if String.eqb c "persist" then Cascade.persist
               else if String.eqb c "remove" then Cascade.remove
               else if String.eqb c "all" then Cascade.all
               else rel_cascade Relation in
    Some {| rel_load := rel_load Relation; rel_relation := rel_relation Relation;
            rel_targetDocument := rel_targetDocument Relation; rel_cascade := cas;
            rel_mapped := rel_mapped Relation; rel_mappedField := rel_mappedField Relation;
            rel_idStorageField := rel_idStorageField Relation |}
  else if String.eqb k "storeid" then
    Some {| rel_load := rel_load Relation; rel_relation := rel_relation Relation;
            rel_targetDocument := rel_targetDocument Relation; rel_cascade := rel_cascade Relation;
            rel_mapped := rel_mapped Relation; rel_mappedField := rel_mappedField Relation;
            rel_idStorageField := v |}
  else if String.eqb k "load" then
    let l := if String.eqb (ToLower v) "eager" then Load.eager else rel_load Relation in
    Some {| rel_load := l; rel_relation := rel_relation Relation;
            rel_targetDocument := rel_targetDocument Relation; rel_cascade := rel_cascade Relation;
            rel_mapped := rel_mapped Relation; rel_mappedField := rel_mappedField Relation;
            rel_idStorageField := rel_idStorageField Relation |}
  else None.

(** The loop over the parameters of a relation definition: after each
    accepted parameter, [MetaField.relation = Relation]. *)
Fixpoint relationParameters (parameters : list tag.Param) (Relation : relation)
    (MetaField : field) : option field :=
  match parameters with
  | [] => Some MetaField
  | parameter :: rest =>
      match relationParameter parameter Relation with
      | None => None
      | Some Relation' => relationParameters rest Relation' (setRelation MetaField Relation')
      end
  end.

Definition indexParameters (parameters : list tag.Param) (MetaField : field) : field :=
  fold_left (fun mf parameter =>
               if String.eqb (ToLower (tag.Key parameter)) "unique" then setUnique mf else mf)
            parameters MetaField.

Definition newRelation (t : relationType) : relation :=
  {| rel_load := Load.lazy; rel_relation := t; rel_targetDocument := "";
     rel_cascade := Cascade.none; rel_mapped := noRelationMap; rel_mappedField := "";
     rel_idStorageField := "" |}.

(** One definition of the ODM tag of the field [FieldName]; the state is
    the pair of [meta.idField] and [MetaField]; [None] is
    [ErrInvalidAnnotation]. *)
Definition applyDefinition (FieldName : string) (definition : tag.Def)
    (st : string * field) : option (string * field) :=
  let '(idField, MetaField) := st in
  let n := ToLower (tag.Name definition) in
  if String.eqb n "id" then Some (FieldName, MetaField)
  else if String.eqb n "omitempty" then Some (idField, setOmitempty MetaField)
  else if String.eqb n "index" then
    Some (idField, indexParameters (tag.Parameters definition) (setIndex MetaField true))
  else if String.eqb n "composite" then Some (idField, setComposite MetaField)
  else if String.eqb n "referencemany" then
    match relationParameters (tag.Parameters definition) (newRelation referenceMany)
            (setKey MetaField ("odm:" ++ ToLower FieldName ++ "ids")) with
    | Some mf => Some (idField, mf)
    | None => None
    end
  else if String.eqb n "referenceone" then
    match relationParameters (tag.Parameters definition) (newRelation referenceOne)
            (setKey MetaField ("odm:" ++ ToLower FieldName ++ "id")) with
    | Some mf => Some (idField, mf)
    | None => None
    end
  else None.

Fixpoint applyDefinitions (FieldName : string) (definitions : list tag.Def)
    (st : string * field) : option (string * field) :=
  match definitions with
  | [] => Some st
  | definition :: rest =>
      match applyDefinition FieldName definition st with
      | None => None
      | Some st' => applyDefinitions FieldName rest st'
      end
  end.

Definition structFieldByName (decl : list StructField) (name : string) : option StructField :=
  List.find (fun f => String.eqb (sf_Name f) name) decl.

Definition resolveKeyForField (decl : list StructField) (name : string) : string :=
  match structFieldByName decl name with
  | Some f =>
      match Split (sf_bson f) comma with
      | p0 :: _ =>
          if negb (String.eqb p0 "") && negb (String.eqb p0 "-") then p0
          else ToLower (sf_Name f)
      | [] => ToLower (sf_Name f)
      end
  | None => ""
  end.

(** The stored key that the [bson] tag gives, and whether it asks for
    [omitempty]. *)
Definition bsonKey (Field : StructField) : string :=
  match Split (sf_bson Field) comma with
  | p0 :: _ => TrimSpace p0
  | [] => ""
  end.

Definition bsonOmitempty (Field : StructField) : bool :=
  match Split (sf_bson Field) comma with
  | _ :: p1 :: _ => String.eqb (TrimSpace p1) "omitempty"
  | _ => false
  end.

Definition newField (Field : StructField) : field :=
  {| fld_composite := false; fld_index := false; fld_unique := false;
     fld_key := ToLower (sf_Name Field); fld_name := sf_Name Field; fld_omitempty := false;
     fld_relation := zeroRelation; fld_ignore := false |}.

Definition setIdField (meta : metadata) (name : string) : metadata :=
  {| meta_targetDocument := meta_targetDocument meta; meta_structType := meta_structType meta;
     meta_idField := name; meta_idKey := meta_idKey meta; meta_fields := meta_fields meta |}.

Definition setIdFieldAndKey (meta : metadata) (name : string) : metadata :=
  {| meta_targetDocument := meta_targetDocument meta; meta_structType := meta_structType meta;
     meta_idField := name; meta_idKey := "_id"; meta_fields := meta_fields meta |}.

Definition appendField (meta : metadata) (f : field) : metadata :=
  {| meta_targetDocument := meta_targetDocument meta; meta_structType := meta_structType meta;
     meta_idField := meta_idField meta; meta_idKey := meta_idKey meta;
     meta_fields := meta_fields meta ++ [f] |}.

Section Compilation.

(** The tokenizer, [tag.NewParser(strings.NewReader(Tag)).Parse()]. *)
Variable Parse : string -> error + list tag.Def.

(** The body of the loop of [getTypeMetadatas] for one struct field:
    [inr meta'] goes on with the next field, [inl err] is the early
    [return meta, err]. *)
Definition compileField (decl : list StructField) (Field : StructField)
    (meta : metadata) : error + metadata :=
  let MetaField := newField Field in
  let key := bsonKey Field in
  let MetaField := if String.eqb key "" then MetaField else setKey MetaField key in
  let meta := if String.eqb key "_id" then setIdFieldAndKey meta (sf_Name Field) else meta in
  if String.eqb key "-" then inr meta
  else
    let MetaField := if bsonOmitempty Field then setOmitempty MetaField else MetaField in
    if String.eqb (sf_odm Field) "-" then inr meta
    else
      match Parse (sf_odm Field) with
      | inl err => inl err
      | inr definitions =>
          match applyDefinitions (sf_Name Field) definitions (meta_idField meta, MetaField) with
          | None => inl ErrInvalidAnnotation
          | Some (idField, MetaField) =>
              let meta := setIdField meta idField in
              let MetaField :=
                if fld_index MetaField && hasRelation MetaField
                then setIndex MetaField false else MetaField in
              let MetaField :=
                if String.eqb (rel_idStorageField (fld_relation MetaField)) "" then MetaField
                else
                  let key := resolveKeyForField decl (rel_idStorageField (fld_relation MetaField)) in
                  if String.eqb key "" then MetaField else setKey MetaField key in
              inr (appendField meta MetaField)
          end
      end.

Fixpoint compileFields (decl : list StructField) (Fields : list StructField)
    (meta : metadata) : error + metadata :=
  match Fields with
  | [] => inr meta
  | Field :: rest =>
      match compileField decl Field meta with
      | inl err => inl err
      | inr meta' => compileFields decl rest meta'
      end
  end.

(** [getTypeMetadatas(value)], for [value] a pointer to a struct with
    the declared fields [decl]. *)
Definition getTypeMetadatas (decl : list StructField) : error + metadata :=
  compileFields decl decl zeroMetadata.

End Compilation.

(** ** Identifiers, values, entities *)

(** [bson.ObjectId] is a string type holding the 12 raw bytes of the
    identifier; its zero value is the empty string and [Valid] checks the
    length. *)
Definition ObjectId := string.

Definition zeroObjectID : ObjectId := "".

Definition Valid (id : ObjectId) : bool := (String.length id =? 12)%nat.

Fixpoint beBytes (k : nat) (n : N) (acc : string) : string :=
  match k with
  | O => acc
  | S k' => beBytes k' (n / 256)%N (String (ascii_of_N (n mod 256)%N) acc)
  end.

(** [bson.NewObjectId()], the generator of the driver; here the 12 bytes
    are the big-endian digits of a counter held by the document manager. *)
Definition NewObjectId (counter : nat) : ObjectId := beBytes 12 (N.of_nat counter) "".

Definition ptr := positive.

(** What an [interface{}] handed to the document manager holds: [None]
    is the nil interface, [Some p] a pointer to the struct at address [p]. *)
Definition document := option ptr.

Inductive scalar :=
| SId (id : ObjectId)
| SStr (s : string)
| SInt (z : Z)
| SBool (b : bool).

(** The Go values in the fields of an entity and in the stored records:
    scalars, a pointer to an entity ([*T], nil is [None]), a slice of
    such pointers ([[]*T]) and a slice of scalars ([[]interface{}] in a
    decoded record, [[]bson.ObjectId] in a projected one). *)
Inductive value :=
| VScalar (s : scalar)
| VPtr (p : option ptr)
| VPtrs (ps : list (option ptr))
| VList (l : list scalar).

Definition VId (id : ObjectId) : value := VScalar (SId id).

Global Instance scalar_eq_dec : EqDecision scalar.
Proof. solve_decision. Defined.
Global Instance value_eq_dec : EqDecision value.
Proof. solve_decision. Defined.

(** A record as the driver exchanges it ([bson.M], [map[string]interface{}]). *)
Abbreviation bsonM := (gmap string value).

Record object := { obj_type : rtype; obj_fields : gmap string value }.

Definition isZeroScalar (s : scalar) : bool :=
  match s with
  | SId id => String.eqb id ""
  | SStr s => String.eqb s ""
  | SInt z => Z.eqb z 0
  | SBool b => negb b
  end.

Definition isZero (v : value) : bool :=
  match v with
  | VPtrs ps => (length ps =? 0)%nat
  | VList l => (length l =? 0)%nat
  | VScalar s => isZeroScalar s
  | VPtr p => match p with None => true | Some _ => false end
  end.

(** ** The metadata registry *)

(** [metadatas] is a Go map keyed by [reflect.Type]; an association list
    with one entry per key.  [findMetadataByCollectionName] ranges over
    the map and returns the first hit; the list order stands for the
    order of that range, which only matters when two types share a
    collection name. *)
Definition metadatas := list (rtype * metadata).

Fixpoint metasLookup (metas : metadatas) (T : rtype) : option metadata :=
  match metas with
  | [] => None
  | (T', meta) :: rest => if decide (T' = T) then Some meta else metasLookup rest T
  end.

Fixpoint metasStore (metas : metadatas) (T : rtype) (meta : metadata) : metadatas :=
  match metas with
  | [] => [(T, meta)]
  | (T', meta') :: rest =>
      if decide (T' = T) then (T, meta) :: rest else (T', meta') :: metasStore rest T meta
  end.

Definition getMetadatas (metas : metadatas) (T : option rtype) : metadata * option error :=
  match T with
  | None => (zeroMetadata, Some ErrDocumentNotRegistered)
  | Some T =>
      match metasLookup metas T with
      | None => (zeroMetadata, Some ErrDocumentNotRegistered)
      | Some meta => (meta, None)
      end
  end.

Fixpoint findMetadataByCollectionName (metas : metadatas) (name : string)
    : metadata * option rtype :=
  match metas with
  | [] => (zeroMetadata, None)
  | (T, meta) :: rest =>
      if String.eqb (meta_targetDocument meta) name then (meta, Some T)
      else findMetadataByCollectionName rest name
  end.

(** ** The driver and the state of the document manager *)

Inductive cond :=
| QIn (ids : list ObjectId)       (* {"$in": ids} *)
| QNin (ids : list ObjectId)      (* {"$nin": ids} *)
| QExists (b : bool).             (* {"$exists": b} *)

(** A query document; the empty list is the nil query of [FindAll]. *)
Definition query := list (string * cond).

Inductive call :=
| CallFindSelect (collection : string) (q : query) (sel : list string)
| CallFindAll (collection : string) (q : query)
| CallFindId (collection : string) (id : value)
| CallUpsertId (collection : string) (id : option value) (set : bsonM)
| CallRemoveId (collection : string) (id : option value)
| CallEnsureIndex (collection : string) (index : Index).

(** The driver answers a call from the calls made before it.
    [drvFindSelect] is [C(c).Find(q).Select(sel).All(&maps)],
    [drvFindAll] is [C(c).Find(q).All(&structs)], each decoded struct given
    by its fields, [drvFindId] is [C(c).FindId(id).One(&struct)]. *)
Record Driver := {
  drvFindSelect : list call -> string -> query -> list string -> error + list bsonM;
  drvFindAll : list call -> string -> query -> error + list (gmap string value);
  drvFindId : list call -> string -> value -> error + gmap string value;
  drvUpsertId : list call -> string -> option value -> bsonM -> option error;
  drvRemoveId : list call -> string -> option value -> option error;
  drvEnsureIndex : list call -> string -> Index -> option error
}.

Record manager := {
  metas : metadatas;
  tasks : gmap document Task.task;
  heap : gmap ptr object;
  nextPtr : ptr;             (* the next free address *)
  nextId : nat;              (* the counter of the identifier generator *)
  trace : list call          (* the calls made to the driver, oldest first *)
}.

Definition setMetas (m : manager) (x : metadatas) : manager :=
  {| metas := x; tasks := tasks m; heap := heap m; nextPtr := nextPtr m;
     nextId := nextId m; trace := trace m |}.

Definition setTasks (m : manager) (x : gmap document Task.task) : manager :=
  {| metas := metas m; tasks := x; heap := heap m; nextPtr := nextPtr m;
     nextId := nextId m; trace := trace m |}.

Definition setHeap (m : manager) (x : gmap ptr object) : manager :=
  {| metas := metas m; tasks := tasks m; heap := x; nextPtr := nextPtr m;
     nextId := nextId m; trace := trace m |}.

Definition setNextPtr (m : manager) (x : ptr) : manager :=
  {| metas := metas m; tasks := tasks m; heap := heap m; nextPtr := x;
     nextId := nextId m; trace := trace m |}.

Definition setNextId (m : manager) (x : nat) : manager :=
  {| metas := metas m; tasks := tasks m; heap := heap m; nextPtr := nextPtr m;
     nextId := x; trace := trace m |}.

Definition logCall (m : manager) (c : call) : manager :=
  {| metas := metas m; tasks := tasks m; heap := heap m; nextPtr := nextPtr m;
     nextId := nextId m; trace := trace m ++ [c] |}.

(** [NewDocumentManager(database)] *)
Definition NewDocumentManager : manager :=
  {| metas := []; tasks := ∅; heap := ∅; nextPtr := 1%positive; nextId := 0; trace := [] |}.

(** Computations of the document manager: a state monad over [manager]
    whose result is an [outcome]. *)
Definition M (A : Type) : Type := manager -> outcome A * manager.

Global Instance M_ret : MRet M := fun A a m => (Ok a, m).

Global Instance M_bind : MBind M := fun A B f c m =>
  match c m with
  | (Ok a, m') => f a m'
  | (Panic msg, m') => (Panic msg, m')
  | (Timeout, m') => (Timeout, m')
  end.

Definition panic {A} (msg : string) : M A := fun m => (Panic msg, m).
Definition getManager : M manager := fun m => (Ok m, m).
Definition modify (f : manager -> manager) : M unit := fun m => (Ok tt, f m).
Definition lift {A} (o : outcome A) : M A := fun m => (o, m).

(** ** Registration *)

Section Registration.

Variable Parse : string -> error + list tag.Def.

Definition setTypeAndCollection (meta : metadata) (T : rtype) (targetDocument : string)
    : metadata :=
  {| meta_targetDocument := targetDocument; meta_structType := Some T;
     meta_idField := meta_idField meta; meta_idKey := meta_idKey meta;
     meta_fields := meta_fields meta |}.

(** [Register(targetDocument, document)], with [documentType] the
    dynamic type of [document]. *)
Definition Register (targetDocument : string) (documentType : rtype)
    (m : manager) : option error * manager :=
  match documentType with
  | TPtr (TStruct name decl) =>
      match getTypeMetadatas Parse decl with
      | inl err => (Some err, m)
      | inr meta =>
          let meta := setTypeAndCollection meta documentType targetDocument in
          (None, setMetas m (metasStore (metas m) documentType meta))
      end
  | TPtr _ => (Some ErrNotAstruct, m)
  | _ => (Some ErrNotAPointer, m)
  end.

End Registration.

(** ** [RegisterMany] *)

Section ManyRegistrations.

Variable Parse : string -> error + list tag.Def.

(** [RegisterMany(documents)]; the list gives the entries of the map
    [documents] in the order in which the [range] visits them. *)
Fixpoint RegisterMany (documents : list (string * rtype)) (m : manager)
    : option error * manager :=
  match documents with
  | [] => (None, m)
  | (targetDocument, document) :: rest =>
      match Register Parse targetDocument document m with
      | (Some err, m') => (Some err, m')
      | (None, m') => RegisterMany rest m'
      end
  end.

End ManyRegistrations.

(** ** Identity helpers *)

Definition noTypeOnNil : string := "reflect: call of reflect.Value.Type on zero Value".
Definition badPointer : string := "invalid memory address or nil pointer dereference".
Definition noField : string := "reflect: call on zero Value".
Definition notObjectId : string := "interface conversion: interface is not bson.ObjectId".

(** [reflect.TypeOf(document)]: nil for the nil interface. *)
Definition TypeOf (h : gmap ptr object) (d : document) : option rtype :=
  match d with
  | None => None
  | Some p => match h !! p with
              | Some o => Some (TPtr (obj_type o))
              | None => None
              end
  end.

Definition getDocumentID (metas : metadatas) (h : gmap ptr object) (d : document)
    : outcome (ObjectId * option error) :=
  match d with
  | None => Panic noTypeOnNil
  | Some p =>
      match h !! p with
      | None => Panic badPointer
      | Some o =>
          match metasLookup metas (TPtr (obj_type o)) with
          | None => Ok (zeroObjectID, Some ErrDocumentNotRegistered)
          | Some meta =>
              match findIDField meta with
              | None => Ok (zeroObjectID, Some ErrIDFieldNotFound)
              | Some idFields =>
                  match obj_fields o !! fld_name idFields with
                  | Some (VScalar (SId id)) => Ok (id, None)
                  | Some _ => Panic notObjectId
                  | None => Panic noField
                  end
              end
          end
      end
  end.

Definition setField (o : object) (name : string) (v : value) : object :=
  {| obj_type := obj_type o; obj_fields := <[name := v]> (obj_fields o) |}.

(** [Value.Elem().FieldByName(name).Set(reflect.ValueOf(id))] for an
    identifier: the field must exist and be of type [bson.ObjectId]. *)
Definition setObjectIdField (h : gmap ptr object) (p : ptr) (name : string) (id : ObjectId)
    : outcome (gmap ptr object) :=
  match h !! p with
  | None => Panic badPointer
  | Some o =>
      match obj_fields o !! name with
      | Some (VScalar (SId _)) => Ok (<[p := setField o name (VId id)]> h)
      | Some _ => Panic "reflect.Set: value of type bson.ObjectId is not assignable"
      | None => Panic noField
      end
  end.

Definition setIDForValue (metas : metadatas) (h : gmap ptr object) (d : document)
    (id : ObjectId) : outcome (option error * gmap ptr object) :=
  match d with
  | None => Panic noTypeOnNil
  | Some p =>
      match h !! p with
      | None => Panic badPointer
      | Some o =>
          match metasLookup metas (TPtr (obj_type o)) with
          | None => Ok (Some ErrDocumentNotRegistered, h)
          | Some meta =>
              match setObjectIdField h p (meta_idField meta) id with
              | Ok h' => Ok (None, h')
              | Panic msg => Panic msg
              | Timeout => Timeout
              end
          end
      end
  end.

(** ** Projection: [structToMap] *)

(** The body of the loop of [structToMap] over [meta.fields]. *)
Definition projectField (idField : string) (fs : gmap string value) (f : field)
    (result : bsonM) : outcome bsonM :=
  if fld_ignore f then Ok result
  else
    match (if fld_omitempty f
           then match fs !! fld_name f with
                | Some v => Ok (isZero v)
                | None => Panic noField
                end
           else Ok false) with
    | Panic msg => Panic msg
    | Timeout => Timeout
    | Ok true => Ok result
    | Ok false =>
        if hasRelation f then Ok result
        else
          match fs !! fld_name f with
          | None => Panic noField
          | Some v =>
              if String.eqb (fld_name f) idField then Ok (<["_id" := v]> result)
              else Ok (<[fld_key f := v]> result)
          end
    end.

Fixpoint projectFields (idField : string) (fs : gmap string value) (fields : list field)
    (result : bsonM) : outcome bsonM :=
  match fields with
  | [] => Ok result
  | f :: rest =>
      match projectField idField fs f result with
      | Ok result' => projectFields idField fs rest result'
      | Panic msg => Panic msg
      | Timeout => Timeout
      end
  end.

Definition structToMap (metas : metadatas) (h : gmap ptr object) (d : document)
    : outcome bsonM :=
  match d with
  | None => Panic noTypeOnNil
  | Some p =>
      match h !! p with
      | None => Panic badPointer
      | Some o =>
          let meta := match metasLookup metas (TPtr (obj_type o)) with
                      | Some meta => meta
                      | None => zeroMetadata
                      end in
          projectFields (meta_idField meta) (obj_fields o) (meta_fields meta) ∅
      end
  end.

(** ** The unit of work: [Persist], [Remove], [pop] *)

(** What [Persist] and [Remove] are handed as [interface{}]: a document
    (the nil interface or a pointer to a struct), or a slice of pointers
    to structs, as [FindAll] fills them, passed by value.  A slice is not
    comparable: Go cannot hash it, and using it as the key of [tasks]
    panics. *)
Inductive argument :=
| ArgDocument (d : document)
| ArgSlice (elem : rtype) (ps : list ptr).

Definition unhashable : string := "runtime error: hash of unhashable type".
Definition elemOnSlice : string := "reflect: call of reflect.Value.Elem on slice Value".

Definition Persist (value : argument) : M unit := fun m =>
  match value with
  | ArgDocument value =>
      match getDocumentID (metas m) (heap m) value with
      | Panic msg => (Panic msg, m)
      | Timeout => (Timeout, m)
      | Ok (id, _) =>
          if negb (Valid id) then
            (* new document, insert *)
            let fresh := NewObjectId (nextId m) in
            let m := setNextId m (S (nextId m)) in
            match setIDForValue (metas m) (heap m) value fresh with
            | Panic msg => (Panic msg, m)
            | Timeout => (Timeout, m)
            | Ok (_, h') => (Ok tt, setTasks (setHeap m h') (<[value := Task.insert]> (tasks m)))
            end
          else
            (* has an id, upsert *)
            (Ok tt, setTasks m (<[value := Task.update]> (tasks m)))
      end
  | ArgSlice elem _ =>
      (* [getDocumentID] and [setIDForValue] look the slice type up and
         call [Value.Elem()] when they find it; the identifier they give
         is the zero identifier, which is not valid *)
      match metasLookup (metas m) (TSlice elem) with
      | Some meta =>
          match findIDField meta with
          | Some _ => (Panic elemOnSlice, m)
          | None => (Panic elemOnSlice, setNextId m (S (nextId m)))
          end
      | None =>
          (* [manager.tasks[value] = insert] *)
          (Panic unhashable, setNextId m (S (nextId m)))
      end
  end.

Definition Remove (document : argument) : M unit := fun m =>
  match document with
  | ArgDocument d => (Ok tt, setTasks m (<[d := Task.del]> (tasks m)))
  | ArgSlice _ _ => (Panic unhashable, m)
  end.

(** [tasks.pop()] takes the first entry of a range over the map, whose
    order Go leaves open: [pick] chooses the position of that entry among
    the entries of the map. *)
Definition pop (pick : list (document * Task.task) -> nat) (t : gmap document Task.task)
    : document * Task.task * gmap document Task.task :=
  let entries := map_to_list t in
  match entries !! (pick entries `mod` length entries) with
  | Some (d, theTask) => (d, theTask, delete d t)
  | None => (None, Task.del, t)
  end.

(** ** [doRemove] *)

Definition cascadesRemove (f : field) : bool :=
  match rel_cascade (fld_relation f) with
  | Cascade.all | Cascade.remove => true
  | _ => false
  end.

Definition cascadesPersist (f : field) : bool :=
  match rel_cascade (fld_relation f) with
  | Cascade.all | Cascade.persist => true
  | _ => false
  end.

(** The loop of [doRemove] over the elements of a [referenceMany] field,
    for a target whose identifier field is [idName].  The loop writes
    [manager.tasks] as it goes: the buffer is threaded through, and a
    panic leaves the intents written before it. *)
Fixpoint removeMany (h : gmap ptr object) (idName : string) (many : list (option ptr))
    (t : gmap document Task.task) : outcome unit * gmap document Task.task :=
  match many with
  | [] => (Ok tt, t)
  | None :: _ => (Panic badPointer, t)
  | Some q :: rest =>
      match h !! q with
      | None => (Panic badPointer, t)
      | Some o =>
          match obj_fields o !! idName with
          | None => (Panic noField, t)
          | Some id =>
              removeMany h idName rest
                (if isZero id then t else <[Some q := Task.del]> t)
          end
      end
  end.

(** The body of the loop of [doRemove] over the fields with a relation;
    [fs] holds the fields of the document being removed. *)
Definition removeField (metas : metadatas) (h : gmap ptr object) (fs : gmap string value)
    (f : field) (t : gmap document Task.task) : outcome unit * gmap document Task.task :=
  if cascadesRemove f then
    match rel_relation (fld_relation f) with
    | referenceMany =>
        match findMetadataByCollectionName metas (rel_targetDocument (fld_relation f)) with
        | (_, None) => (Ok tt, t)
        | (meta, Some _) =>
            match fs !! fld_name f with
            | None => (Panic noField, t)
            | Some (VPtrs many) =>
                match findIDField meta with
                | None => (Ok tt, t)
                | Some idField => removeMany h (fld_name idField) many t
                end
            | Some (VList l) =>
                match l, findIDField meta with
                | [], _ => (Ok tt, t)
                | _, None => (Ok tt, t)
                | _, Some _ => (Panic "reflect: call of reflect.Value.Elem on a scalar", t)
                end
            | Some _ => (Panic "reflect: call of reflect.Value.Len on a non-slice", t)
            end
        end
    | referenceOne =>
        match findMetadataByCollectionName metas (rel_targetDocument (fld_relation f)) with
        | (_, None) => (Ok tt, t)
        | (meta, Some _) =>
            match fs !! fld_name f with
            | None => (Panic noField, t)
            | Some one =>
                if isZero one then (Ok tt, t)
                else
                  match findIDField meta with
                  | None => (Ok tt, t)
                  | Some idField =>
                      match one with
                      | VPtr (Some q) =>
                          match h !! q with
                          | None => (Panic badPointer, t)
                          | Some o =>
                              match obj_fields o !! fld_name idField with
                              | None => (Panic noField, t)
                              | Some id =>
                                  (Ok tt, if isZero id then t else <[Some q := Task.del]> t)
                              end
                          end
                      | _ => (Panic "reflect: call of reflect.Value.Elem on a non-pointer", t)
                      end
                  end
            end
        end
    | noRelationType => (Ok tt, t)
    end
  else (Ok tt, t).

Fixpoint removeFields (metas : metadatas) (h : gmap ptr object) (fs : gmap string value)
    (fields : list field) (t : gmap document Task.task)
    : outcome unit * gmap document Task.task :=
  match fields with
  | [] => (Ok tt, t)
  | f :: rest =>
      match removeField metas h fs f t with
      | (Ok _, t') => removeFields metas h fs rest t'
      | (Panic msg, t') => (Panic msg, t')
      | (Timeout, t') => (Timeout, t')
      end
  end.

Definition fieldsOf (h : gmap ptr object) (d : document) : gmap string value :=
  match d with
  | Some p => match h !! p with Some o => obj_fields o | None => ∅ end
  | None => ∅
  end.

Definition registered (m : manager) (d : document) : option metadata :=
  match TypeOf (heap m) d with
  | Some T => metasLookup (metas m) T
  | None => None
  end.

Definition doRemove (drv : Driver) (d : document) : M (option error) := fun m =>
  match registered m d with
  | None => (Ok (Some ErrDocumentNotRegistered), m)
  | Some metadata =>
      match structToMap (metas m) (heap m) d with
      | Panic msg => (Panic msg, m)
      | Timeout => (Timeout, m)
      | Ok Map =>
          match (if metaHasRelation metadata
                 then removeFields (metas m) (heap m) (fieldsOf (heap m) d)
                        (getFieldsWithRelation metadata) (tasks m)
                 else (Ok tt, tasks m)) with
          | (Panic msg, t') => (Panic msg, setTasks m t')
          | (Timeout, t') => (Timeout, setTasks m t')
          | (Ok _, t') =>
              let m := setTasks m t' in
              let err := drvRemoveId drv (trace m) (meta_targetDocument metadata) (Map !! "_id") in
              let m := logCall m (CallRemoveId (meta_targetDocument metadata) (Map !! "_id")) in
              match err with
              | Some e => (Ok (Some e), m)
              | None =>
                  (* set the id to a zero value *)
                  match setIDForValue (metas m) (heap m) d zeroObjectID with
                  | Panic msg => (Panic msg, m)
                  | Timeout => (Timeout, m)
                  | Ok (_, h') => (Ok None, setHeap m h')
                  end
              end
          end
      end
  end.

(** ** [doPersist] *)

(** Reads the identifier of the related entity at [q], generating one if
    it is zero; gives the identifier back. *)
Definition ensureID (q : ptr) (idName : string) : M ObjectId := fun m =>
  match heap m !! q with
  | None => (Panic badPointer, m)
  | Some o =>
      match obj_fields o !! idName with
      | None => (Panic noField, m)
      | Some id =>
          if isZero id then
            let fresh := NewObjectId (nextId m) in
            let m := setNextId m (S (nextId m)) in
            match setObjectIdField (heap m) q idName fresh with
            | Ok h' => (Ok fresh, setHeap m h')
            | Panic msg => (Panic msg, m)
            | Timeout => (Timeout, m)
            end
          else
            match id with
            | VScalar (SId x) => (Ok x, m)
            | _ => (Panic notObjectId, m)
            end
      end
  end.

(** The loop of [doPersist] over the elements of a [referenceMany] field. *)
Fixpoint persistMany (idName : string) (cas : bool) (many : list (option ptr))
    (objectIDs : list ObjectId) : M (list ObjectId) :=
  match many with
  | [] => mret objectIDs
  | None :: _ => panic badPointer
  | Some q :: rest =>
      id ← ensureID q idName;
      _ ← (if cas then modify (fun m => setTasks m (<[Some q := Task.insert]> (tasks m)))
           else mret tt);
      persistMany idName cas rest (objectIDs ++ [id])
  end.

(** The body of the loop of [doPersist] over the fields with a relation;
    [p] is the address of the document being persisted. *)
Definition persistField (p : ptr) (f : field) (Map : bsonM) : M bsonM :=
  if bool_decide (rel_mapped (fld_relation f) = mappedBy) then mret Map
  else
    match rel_relation (fld_relation f) with
    | referenceMany =>
        m ← getManager;
        objectIDs ←
          match findMetadataByCollectionName (metas m) (rel_targetDocument (fld_relation f)) with
          | (_, None) => mret []
          | (meta, Some _) =>
              match fieldsOf (heap m) (Some p) !! fld_name f with
              | None => panic noField
              | Some (VPtrs many) =>
                  match findIDField meta with
                  | None => mret []
                  | Some idField => persistMany (fld_name idField) (cascadesPersist f) many []
                  end
              | Some (VList l) =>
                  match l, findIDField meta with
                  | [], _ => mret []
                  | _, None => mret []
                  | _, Some _ => panic "reflect: call of reflect.Value.Elem on a scalar"
                  end
              | Some _ => panic "reflect: call of reflect.Value.Len on a non-slice"
              end
          end;
        mret (<[fld_key f := VList (List.map SId objectIDs)]> Map)
    | referenceOne =>
        m ← getManager;
        match findMetadataByCollectionName (metas m) (rel_targetDocument (fld_relation f)) with
        | (_, None) => mret Map
        | (meta, Some _) =>
            match fieldsOf (heap m) (Some p) !! fld_name f with
            | None => panic noField
            | Some one =>
                if isZero one then mret Map
                else
                  match findIDField meta with
                  | None => mret Map
                  | Some idField =>
                      match one with
                      | VPtr (Some q) =>
                          id ← ensureID q (fld_name idField);
                          _ ← (if cascadesPersist f
                               then modify (fun m => setTasks m (<[Some q := Task.insert]> (tasks m)))
                               else mret tt);
                          mret (<[fld_key f := VId id]> Map)
                      | _ => panic "reflect: call of reflect.Value.Elem on a non-pointer"
                      end
                  end
            end
        end
    | noRelationType => mret Map
    end.

Fixpoint persistFields (p : ptr) (fields : list field) (Map : bsonM) : M bsonM :=
  match fields with
  | [] => mret Map
  | f :: rest => Map' ← persistField p f Map; persistFields p rest Map'
  end.

(** [stripID] removes the [_id] key of a map. *)
Definition stripID (Map : bsonM) : bsonM := delete "_id" Map.

Definition doPersist (drv : Driver) (d : document) : M (option error) :=
  m ← getManager;
  match d, registered m d with
  | Some p, Some metadata =>
      Map ← lift (structToMap (metas m) (heap m) d);
      Map ← (if metaHasRelation metadata
             then persistFields p (getFieldsWithRelation metadata) Map
             else mret Map);
      m ← getManager;
      let id := Map !! "_id" in
      let err := drvUpsertId drv (trace m) (meta_targetDocument metadata) id (stripID Map) in
      _ ← modify (fun m => logCall m (CallUpsertId (meta_targetDocument metadata) id (stripID Map)));
      mret err
  | _, _ => mret (Some ErrDocumentNotRegistered)
  end.

(** ** [Flush] *)

Fixpoint ensureIndexes (drv : Driver) (collection : string) (indexes : list Index)
    : M (option error) :=
  match indexes with
  | [] => mret None
  | index :: rest =>
      m ← getManager;
      let err := drvEnsureIndex drv (trace m) collection index in
      _ ← modify (fun m => logCall m (CallEnsureIndex collection index));
      match err with
      | Some e => mret (Some e)
      | None => ensureIndexes drv collection rest
      end
  end.

(** One turn of the loop of [Flush], entered with a non-empty buffer:
    [Some err] is [return err], [None] goes on with the loop test. *)
Definition flushTurn (pick : list (document * Task.task) -> nat) (drv : Driver)
    : M (option error) :=
  m ← getManager;
  let '(d, theTask, t') := pop pick (tasks m) in
  _ ← modify (fun m => setTasks m t');
  match theTask with
  | Task.del => doRemove drv d
  | Task.insert | Task.update =>
      m ← getManager;
      match getMetadatas (metas m) (TypeOf (heap m) d) with
      | (_, Some err) => mret (Some err)
      | (metaData, None) =>
          err ← (if hasFieldWithIndex metaData
                 then ensureIndexes drv (meta_targetDocument metaData) (getIndexes metaData)
                 else mret None);
          match err with
          | Some e => mret (Some e)
          | None =>
              err ← (if hasFieldWithComposite metaData
                     then ensureIndexes drv (meta_targetDocument metaData) (getComposites metaData)
                     else mret None);
              match err with
              | Some e => mret (Some e)
              | None => doPersist drv d
              end
          end
      end
  end.

Fixpoint Flush (pick : list (document * Task.task) -> nat) (drv : Driver) (fuel : nat)
    : M (option error) := fun m =>
  if (size (tasks m) =? 0)%nat then (Ok None, m)
  else
    match fuel with
    | O => (Timeout, m)
    | S fuel' =>
        match flushTurn pick drv m with
        | (Ok None, m') => Flush pick drv fuel' m'
        | r => r
        end
    end.

(** ** The relation resolver *)

(** What [resolveRelations] and [doResolveRelations] are handed as
    [documents]: a pointer to one struct, a pointer to a slice whose
    element type is [elem] and whose elements are the pointers [ps], or
    a value that is not a pointer. *)
Inductive documents :=
| DocsPointer (p : ptr)
| DocsSlice (elem : rtype) (ps : list ptr)
| DocsOther.

(** Modelled from the spec: the generic helpers that package [funcs]
    builds by reflection ([MakeKeyBy], [MakeGetKeys], [MakeFlatten],
    [MakeMap], [MakeFilter], [MakeIndexOf]); the package is not part of
    the sources at hand.  Section 4.5 uses them to index records and
    entities by identifier, to list the root identifiers and to filter
    out the identifiers already in the table of fetched entities. *)
Definition keyBy {A} (l : list A) (selector : A -> ObjectId) : gmap ObjectId A :=
  fold_left (fun acc x => <[selector x := x]> acc) l ∅.

Definition getKeys {A} (m : gmap ObjectId A) : list ObjectId :=
  List.map fst (map_to_list m).

Definition flatten {A} (l : list (list A)) : list A := List.concat l.

Fixpoint indexOfString (l : list string) (s : string) : Z :=
  match l with
  | [] => (-1)%Z
  | x :: rest =>
      if String.eqb x s then 0%Z
      else let i := indexOfString rest s in if (i <? 0)%Z then (-1)%Z else (i + 1)%Z
  end.

(** Type assertions on the members of a decoded record. *)
Definition asObjectId (v : option value) : outcome ObjectId :=
  match v with
  | Some (VScalar (SId id)) => Ok id
  | _ => Panic notObjectId
  end.

Definition asInterfaces (v : option value) : outcome (list scalar) :=
  match v with
  | Some (VList l) => Ok l
  | _ => Panic "interface conversion: interface is not []interface {}"
  end.

Definition scalarObjectId (s : scalar) : outcome ObjectId :=
  match s with
  | SId id => Ok id
  | _ => Panic notObjectId
  end.

(** [err != nil && err != mgo.ErrNotFound]: the branches that go on
    after [mgo.ErrNotFound] find their result slice empty. *)
Definition tolerant {A} (r : error + list A) : error + list A :=
  match r with
  | inl ErrNotFound => inr []
  | _ => r
  end.

(** [err != nil] *)
Definition strict {A} (r : error + list A) : error + list A := r.

Definition findSelect (drv : Driver) (collection : string) (q : query) (sel : list string)
    : M (error + list bsonM) := fun m =>
  (Ok (drvFindSelect drv (trace m) collection q sel),
   logCall m (CallFindSelect collection q sel)).

Definition findAll (drv : Driver) (collection : string) (q : query)
    : M (error + list (gmap string value)) := fun m =>
  (Ok (drvFindAll drv (trace m) collection q), logCall m (CallFindAll collection q)).

Definition elemOf (T : rtype) : rtype :=
  match T with
  | TPtr E => E
  | E => E
  end.

(** The structs that [All] decodes into a fresh slice of [relatedType]. *)
Fixpoint allocAll (relatedType : rtype) (decoded : list (gmap string value)) : M (list ptr) :=
  match decoded with
  | [] => mret []
  | fs :: rest =>
      m ← getManager;
      let p := nextPtr m in
      _ ← modify (fun m => setNextPtr
                   (setHeap m (<[p := {| obj_type := elemOf relatedType; obj_fields := fs |}]> (heap m)))
                   (Pos.succ p));
      ps ← allocAll relatedType rest;
      mret (p :: ps)
  end.

Fixpoint forM {A} (l : list A) (body : A -> M unit) : M unit :=
  match l with
  | [] => mret tt
  | x :: rest => _ ← body x; forM rest body
  end.

Fixpoint mapO {A B} (f : A -> outcome B) (l : list A) : outcome (list B) :=
  match l with
  | [] => Ok []
  | x :: rest =>
      match f x with
      | Ok y => match mapO f rest with
                | Ok ys => Ok (y :: ys)
                | Panic msg => Panic msg
                | Timeout => Timeout
                end
      | Panic msg => Panic msg
      | Timeout => Timeout
      end
  end.

(** [value.Elem().FieldByName(name).Set(reflect.Append(field, v))] *)
Definition appendPtr (p : ptr) (name : string) (v : ptr) : M unit := fun m =>
  match heap m !! p with
  | None => (Panic badPointer, m)
  | Some o =>
      match obj_fields o !! name with
      | Some (VPtrs l) => (Ok tt, setHeap m (<[p := setField o name (VPtrs (l ++ [Some v]))]> (heap m)))
      | Some _ => (Panic "reflect.Append: not a slice of pointers", m)
      | None => (Panic noField, m)
      end
  end.

(** [value.Elem().FieldByName(name).Set(v)] for a pointer [v] *)
Definition setPtr (p : ptr) (name : string) (v : ptr) : M unit := fun m =>
  match heap m !! p with
  | None => (Panic badPointer, m)
  | Some o =>
      match obj_fields o !! name with
      | Some (VPtr _) => (Ok tt, setHeap m (<[p := setField o name (VPtr (Some v))]> (heap m)))
      | Some _ => (Panic "reflect.Set: value is not assignable", m)
      | None => (Panic noField, m)
      end
  end.

(** [value.Elem().FieldByName(idField).Interface().(bson.ObjectId)] *)
Definition idOfStruct (h : gmap ptr object) (idField : string) (p : ptr) : outcome ObjectId :=
  match h !! p with
  | None => Panic badPointer
  | Some o =>
      match obj_fields o !! idField with
      | None => Panic noField
      | Some v => asObjectId (Some v)
      end
  end.

Fixpoint keyStructsBy (h : gmap ptr object) (idField : string) (ps : list ptr)
    (acc : gmap ObjectId ptr) : outcome (gmap ObjectId ptr) :=
  match ps with
  | [] => Ok acc
  | p :: rest =>
      match idOfStruct h idField p with
      | Ok id => keyStructsBy h idField rest (<[id := p]> acc)
      | Panic msg => Panic msg
      | Timeout => Timeout
      end
  end.

(** [keyValuesByObjectID(sourceValues, getDocumentID)], the errors of
    [getDocumentID] being dropped with [id, _ :=]. *)
Fixpoint keyValuesByObjectID (metas : metadatas) (h : gmap ptr object) (ps : list ptr)
    (acc : gmap ObjectId ptr) : outcome (gmap ObjectId ptr) :=
  match ps with
  | [] => Ok acc
  | p :: rest =>
      match getDocumentID metas h (Some p) with
      | Ok (id, _) => keyValuesByObjectID metas h rest (<[id := p]> acc)
      | Panic msg => Panic msg
      | Timeout => Timeout
      end
  end.

Fixpoint keyResultsBySourceID (results : list bsonM) (acc : gmap ObjectId bsonM)
    : outcome (gmap ObjectId bsonM) :=
  match results with
  | [] => Ok acc
  | result :: rest =>
      match asObjectId (result !! "_id") with
      | Ok id => keyResultsBySourceID rest (<[id := result]> acc)
      | Panic msg => Panic msg
      | Timeout => Timeout
      end
  end.

Definition getIds (d : list bsonM) : outcome (list ObjectId) :=
  mapO (fun doc => asObjectId (doc !! "_id")) d.

Definition notFetched (fetched : gmap ObjectId ptr) (id : ObjectId) : bool :=
  match fetched !! id with
  | Some _ => false
  | None => true
  end.

Definition appendTo (m : gmap ObjectId (list bsonM)) (id : ObjectId) (doc : bsonM)
    : gmap ObjectId (list bsonM) :=
  <[id := default [] (m !! id) ++ [doc]]> m.

(** [relatedDocsMappedBySourceId] of the referenceMany/mappedBy case. *)
Fixpoint mapBySourceId (kind : relationType) (key : string) (relatedDocs : list bsonM)
    (acc : gmap ObjectId (list bsonM)) : outcome (gmap ObjectId (list bsonM)) :=
  match relatedDocs with
  | [] => Ok acc
  | doc :: rest =>
      match kind with
      | referenceMany =>
          match asInterfaces (doc !! key) with
          | Ok ids =>
              match mapO scalarObjectId ids with
              | Ok ids => mapBySourceId kind key rest
                            (fold_left (fun a id => appendTo a id doc) ids acc)
              | Panic msg => Panic msg
              | Timeout => Timeout
              end
          | Panic msg => Panic msg
          | Timeout => Timeout
          end
      | referenceOne =>
          match asObjectId (doc !! key) with
          | Ok id => mapBySourceId kind key rest (appendTo acc id doc)
          | Panic msg => Panic msg
          | Timeout => Timeout
          end
      | noRelationType => Ok acc
      end
  end.

(** [relatedDocumentsMapsMappedByDocumentID] and [relatedDocumentIds] of
    the referenceOne/mappedBy case. *)
Fixpoint mapByDocumentID (kind : relationType) (key : string) (fetched : gmap ObjectId ptr)
    (relatedDocumentMaps : list bsonM) (acc : gmap ObjectId bsonM * list ObjectId)
    : outcome (gmap ObjectId bsonM * list ObjectId) :=
  match relatedDocumentMaps with
  | [] => Ok acc
  | relatedDocument :: rest =>
      match asObjectId (relatedDocument !! "_id") with
      | Ok id =>
          let ids := if notFetched fetched id then snd acc ++ [id] else snd acc in
          match kind with
          | referenceMany =>
              match asInterfaces (relatedDocument !! key) with
              | Ok xs =>
                  match mapO scalarObjectId xs with
                  | Ok xs => mapByDocumentID kind key fetched rest
                               (fold_left (fun a x => <[x := relatedDocument]> a) xs (fst acc), ids)
                  | Panic msg => Panic msg
                  | Timeout => Timeout
                  end
              | Panic msg => Panic msg
              | Timeout => Timeout
              end
          | _ =>
              match asObjectId (relatedDocument !! key) with
              | Ok x => mapByDocumentID kind key fetched rest (<[x := relatedDocument]> (fst acc), ids)
              | Panic msg => Panic msg
              | Timeout => Timeout
              end
          end
      | Panic msg => Panic msg
      | Timeout => Timeout
      end
  end.

(** The table of fetched entities, threaded through the recursion. *)
Abbreviation fetchedTable := (gmap ObjectId ptr).

Section Resolver.

Variable drv : Driver.

(** The recursive call [manager.doResolveRelations(related, fetchedDocuments)]. *)
Variable rec : documents -> fetchedTable -> M (option error * fetchedTable).

(** referenceMany / mappedBy *)
Definition resolveManyMapped (sources : gmap ObjectId ptr) (documentIds : list ObjectId)
    (f : field) (fetched : fetchedTable) : M (option error * fetchedTable) :=
  m ← getManager;
  match findMetadataByCollectionName (metas m) (rel_targetDocument (fld_relation f)) with
  | (_, None) => mret (Some ErrDocumentNotRegistered, fetched)
  | (relatedMetadata, Some relatedType) =>
      match findField relatedMetadata (rel_mappedField (fld_relation f)) with
      | None => mret (Some ErrFieldNotFound, fetched)
      | Some relatedField =>
          r ← findSelect drv (meta_targetDocument relatedMetadata)
                [(fld_key relatedField, QIn documentIds)] ["_id"; fld_key relatedField];
          match tolerant r with
          | inl err => mret (Some err, fetched)
          | inr relatedDocs =>
              bySource ← lift (mapBySourceId (rel_relation (fld_relation relatedField))
                                 (fld_key relatedField) relatedDocs ∅);
              ids ← lift (getIds relatedDocs);
              let relatedIds := List.filter (notFetched fetched) ids in
              r ← findAll drv (meta_targetDocument relatedMetadata) [("_id", QIn relatedIds)];
              match tolerant r with
              | inl err => mret (Some err, fetched)
              | inr decoded =>
                  relatedCollection ← allocAll relatedType decoded;
                  m ← getManager;
                  byId ← lift (keyStructsBy (heap m) (meta_idField relatedMetadata)
                                 relatedCollection ∅);
                  _ ← forM (map_to_list sources) (fun '(sourceId, value) =>
                        match bySource !! sourceId with
                        | None => mret tt
                        | Some docs =>
                            forM docs (fun doc =>
                              id ← lift (asObjectId (doc !! "_id"));
                              match fetched !! id with
                              | Some v => appendPtr value (fld_name f) v
                              | None =>
                                  match byId !! id with
                                  | Some v => appendPtr value (fld_name f) v
                                  | None => mret tt
                                  end
                              end)
                        end);
                  rec (DocsSlice relatedType relatedCollection) fetched
              end
          end
      end
  end.

(** referenceMany / inversedBy (the owning side) *)
Definition resolveManyOwning (meta : metadata) (sources : gmap ObjectId ptr)
    (documentIds : list ObjectId) (f : field) (fetched : fetchedTable)
    : M (option error * fetchedTable) :=
  r ← findSelect drv (meta_targetDocument meta) [("_id", QIn documentIds)] [fld_key f; "_id"];
  match strict r with
  | inl err => mret (Some err, fetched)
  | inr results =>
      resultsKeyedByObjectID ← lift (keyResultsBySourceID results ∅);
      _ ← forM (map_to_list resultsKeyedByObjectID) (fun '(objectID, result) =>
            match result !! fld_key f with
            | None => mret tt
            | Some v =>
                relatedIDs ← lift (asInterfaces (Some v));
                forM relatedIDs (fun relatedID =>
                  id ← lift (scalarObjectId relatedID);
                  match fetched !! id with
                  | None => mret tt
                  | Some document =>
                      match sources !! objectID with
                      | Some value => appendPtr value (fld_name f) document
                      | None => panic noField
                      end
                  end)
            end);
      lists ← lift (mapO (fun result => match result !! fld_key f with
                                        | None => Ok []
                                        | Some v => asInterfaces (Some v)
                                        end) results);
      ids ← lift (mapO scalarObjectId (flatten lists));
      let relatedObjectIds := List.filter (notFetched fetched) ids in
      match relatedObjectIds with
      | [] => mret (None, fetched)
      | _ =>
          m ← getManager;
          match findMetadataByCollectionName (metas m) (rel_targetDocument (fld_relation f)) with
          | (_, None) => mret (Some ErrDocumentNotRegistered, fetched)
          | (_, Some relatedType) =>
              r ← findAll drv (rel_targetDocument (fld_relation f)) [("_id", QIn relatedObjectIds)];
              match strict r with
              | inl err => mret (Some err, fetched)
              | inr decoded =>
                  relatedDocumentValues ← allocAll relatedType decoded;
                  _ ← forM (map_to_list resultsKeyedByObjectID) (fun '(objectID, result) =>
                        relatedIDs ← lift (asInterfaces (result !! fld_key f));
                        forM relatedIDs (fun id =>
                          forM relatedDocumentValues (fun related =>
                            m ← getManager;
                            '(relatedObjectID, _) ← lift (getDocumentID (metas m) (heap m) (Some related));
                            id ← lift (scalarObjectId id);
                            if String.eqb id relatedObjectID then
                              match sources !! objectID with
                              | Some value => appendPtr value (fld_name f) related
                              | None => panic noField
                              end
                            else mret tt)));
                  rec (DocsSlice relatedType relatedDocumentValues) fetched
              end
          end
      end
  end.

(** referenceOne / mappedBy *)
Definition resolveOneMapped (sources : gmap ObjectId ptr) (documentIds : list ObjectId)
    (f : field) (fetched : fetchedTable) : M (option error * fetchedTable) :=
  m ← getManager;
  match findMetadataByCollectionName (metas m) (rel_targetDocument (fld_relation f)) with
  | (_, None) => mret (Some ErrDocumentNotRegistered, fetched)
  | (relatedMeta, Some relatedType) =>
      match findField relatedMeta (rel_mappedField (fld_relation f)) with
      | None => mret (Some ErrFieldNotFound, fetched)
      | Some relatedField =>
          r ← findSelect drv (meta_targetDocument relatedMeta)
                [("_id", QNin documentIds); (fld_key relatedField, QIn documentIds)]
                ["_id"; fld_key relatedField];
          match strict r with
          | inl err => mret (Some err, fetched)
          | inr relatedDocumentMaps =>
              '(byDocumentID, relatedDocumentIds) ←
                lift (mapByDocumentID (rel_relation (fld_relation relatedField))
                        (fld_key relatedField) fetched relatedDocumentMaps (∅, []));
              r ← findAll drv (meta_targetDocument relatedMeta) [("_id", QIn relatedDocumentIds)];
              match tolerant r with
              | inl err => mret (Some err, fetched)
              | inr decoded =>
                  relatedDocuments ← allocAll relatedType decoded;
                  (* the identifier of the related record of each root identifier *)
                  entries ← lift (mapO (fun '(documentId, relatedDocumentMap) =>
                                          match asObjectId (relatedDocumentMap !! "_id") with
                                          | Ok id => Ok (documentId, id)
                                          | Panic msg => Panic msg
                                          | Timeout => Timeout
                                          end) (map_to_list byDocumentID));
                  (* first the documents that have already been fetched *)
                  let already : gmap ObjectId ptr :=
                    fold_left (fun acc '(documentId, id) =>
                                 match fetched !! id with
                                 | Some document => <[documentId := document]> acc
                                 | None => acc
                                 end) entries ∅ in
                  (* then the related documents just fetched *)
                  m ← getManager;
                  fresh ← lift (mapO (fun related =>
                                        match idOfStruct (heap m) (meta_idField relatedMeta) related with
                                        | Ok id => Ok (related, id)
                                        | Panic msg => Panic msg
                                        | Timeout => Timeout
                                        end)
                                     (match entries with [] => [] | _ => relatedDocuments end));
                  let byID : gmap ObjectId ptr :=
                    fold_left (fun acc '(related, relatedId) =>
                      fold_left (fun acc '(documentId, id) =>
                                   if String.eqb id relatedId then <[documentId := related]> acc
                                   else acc) entries acc)
                      fresh already in
                  _ ← forM (map_to_list sources) (fun '(documentID, value) =>
                        match byID !! documentID with
                        | Some relatedDocument => setPtr value (fld_name f) relatedDocument
                        | None => mret tt
                        end);
                  rec (DocsSlice relatedType relatedDocuments) fetched
              end
          end
      end
  end.

(** referenceOne / inversedBy (the owning side) *)
Definition resolveOneOwning (meta : metadata) (sources : gmap ObjectId ptr)
    (documentIds : list ObjectId) (f : field) (fetched : fetchedTable)
    : M (option error * fetchedTable) :=
  r ← findSelect drv (meta_targetDocument meta)
        [(fld_key f, QExists true); ("_id", QIn documentIds)] [fld_key f; "_id"];
  match tolerant r with
  | inl err => mret (Some err, fetched)
  | inr results =>
      resultsKeyedByObjectID ← lift (keyResultsBySourceID results ∅);
      _ ← forM (map_to_list resultsKeyedByObjectID) (fun '(objectID, result) =>
            match result !! fld_key f with
            | Some (VScalar (SId relatedObjectID)) =>
                match fetched !! relatedObjectID with
                | Some document =>
                    match sources !! objectID with
                    | Some value => setPtr value (fld_name f) document
                    | None => panic noField
                    end
                | None => mret tt
                end
            | _ => mret tt
            end);
      ids ← lift (mapO (fun result => asObjectId (result !! fld_key f)) results);
      let relatedObjectIds := List.filter (notFetched fetched) ids in
      match relatedObjectIds with
      | [] => mret (None, fetched)
      | _ =>
          m ← getManager;
          match findMetadataByCollectionName (metas m) (rel_targetDocument (fld_relation f)) with
          | (_, None) => mret (Some ErrDocumentNotRegistered, fetched)
          | (relatedMeta, Some relatedType) =>
              r ← findAll drv (rel_targetDocument (fld_relation f)) [("_id", QIn relatedObjectIds)];
              match tolerant r with
              | inl err => mret (Some err, fetched)
              | inr decoded =>
                  relatedDocumentValues ← allocAll relatedType decoded;
                  m ← getManager;
                  keyed ← lift (keyStructsBy (heap m) (meta_idField relatedMeta)
                                  relatedDocumentValues ∅);
                  _ ← forM (map_to_list sources) (fun '(id, value) =>
                        relatedID ← lift (asObjectId (resultsKeyedByObjectID !! id ≫= (fun result => result !! fld_key f)));
                        match keyed !! relatedID with
                        | Some relatedResult => setPtr value (fld_name f) relatedResult
                        | None => panic "reflect: call of reflect.Value.Set on zero Value"
                        end);
                  rec (DocsSlice relatedType relatedDocumentValues) fetched
              end
          end
      end
  end.

(** The body of the loop over the fields with a relation. *)
Definition resolveField (top : bool) (selectedFields : list string) (meta : metadata)
    (sources : gmap ObjectId ptr) (documentIds : list ObjectId) (f : field)
    (fetched : fetchedTable) : M (option error * fetchedTable) :=
  if (0 <? length selectedFields)%nat && (indexOfString selectedFields (fld_name f) <? 0)%Z
  then mret (None, fetched)
  else if negb top && bool_decide (rel_load (fld_relation f) = Load.lazy)
  then mret (None, fetched)
  else
    match rel_relation (fld_relation f), rel_mapped (fld_relation f) with
    | referenceMany, mappedBy => resolveManyMapped sources documentIds f fetched
    | referenceMany, _ => resolveManyOwning meta sources documentIds f fetched
    | referenceOne, mappedBy => resolveOneMapped sources documentIds f fetched
    | referenceOne, _ => resolveOneOwning meta sources documentIds f fetched
    | noRelationType, _ => mret (None, fetched)
    end.

Fixpoint resolveFields (top : bool) (selectedFields : list string) (meta : metadata)
    (sources : gmap ObjectId ptr) (documentIds : list ObjectId) (fields : list field)
    (fetched : fetchedTable) : M (option error * fetchedTable) :=
  match fields with
  | [] => mret (None, fetched)
  | f :: rest =>
      '(err, fetched) ← resolveField top selectedFields meta sources documentIds f fetched;
      match err with
      | Some e => mret (Some e, fetched)
      | None => resolveFields top selectedFields meta sources documentIds rest fetched
      end
  end.

(** The body of [doResolveRelations]. *)
Definition resolveBody (docs : documents) (fetchedDocuments : fetchedTable)
    (selectedFields : list string) : M (option error * fetchedTable) :=
  let top := (size fetchedDocuments =? 0)%nat in
  match docs with
  | DocsOther => mret (Some ErrNotAPointer, fetchedDocuments)
  | DocsPointer _ => mret (Some ErrNotAnArray, fetchedDocuments)
  | DocsSlice elem sourceValues =>
      m ← getManager;
      match getMetadatas (metas m) (Some elem) with
      | (_, Some err) => mret (Some err, fetchedDocuments)
      | (meta, None) =>
          sources ← lift (keyValuesByObjectID (metas m) (heap m) sourceValues ∅);
          let fetched := fold_left (fun acc '(objectID, value) => <[objectID := value]> acc)
                                   (map_to_list sources) fetchedDocuments in
          if metaHasRelation meta then
            resolveFields top selectedFields meta sources (getKeys sources)
                          (getFieldsWithRelation meta) fetched
          else mret (None, fetched)
      end
  end.

End Resolver.

Fixpoint doResolveRelations (drv : Driver) (fuel : nat) (docs : documents)
    (fetchedDocuments : fetchedTable) (selectedFields : list string)
    : M (option error * fetchedTable) :=
  match fuel with
  | O => fun m => (Timeout, m)
  | S fuel' =>
      resolveBody drv (fun related fetched => doResolveRelations drv fuel' related fetched [])
                  docs fetchedDocuments selectedFields
  end.

Definition resolveRelations (drv : Driver) (fuel : nat) (docs : documents)
    (selectedFields : list string) : M (option error) :=
  m ← getManager;
  let docs := match docs with
              | DocsPointer p =>
                  match heap m !! p with
                  | Some o => DocsSlice (TPtr (obj_type o)) [p]
                  | None => docs
                  end
              | _ => docs
              end in
  '(err, _) ← doResolveRelations drv fuel docs ∅ selectedFields;
  mret err.

(** ** The read side of the facade: [FindAll] and [FindID] *)

(** [FindAll(documents)] for [documents] a pointer to an empty slice of
    element type [elem]. *)
Definition FindAll (drv : Driver) (fuel : nat) (elem : rtype) : M (option error * list ptr) :=
  m ← getManager;
  match metasLookup (metas m) elem with
  | None => mret (Some ErrDocumentNotRegistered, [])
  | Some meta =>
      r ← findAll drv (meta_targetDocument meta) [];
      match r with
      | inl err => mret (Some err, [])
      | inr decoded =>
          ps ← allocAll elem decoded;
          err ← resolveRelations drv fuel (DocsSlice elem ps) [];
          mret (err, ps)
      end
  end.

(** [FindID(documentID, document)] for [document] the pointer [p]. *)
Definition FindID (drv : Driver) (fuel : nat) (documentID : value) (p : ptr) : M (option error) :=
  m ← getManager;
  match heap m !! p with
  | None => mret (Some ErrNotAstruct)
  | Some o =>
      match metasLookup (metas m) (TPtr (obj_type o)) with
      | None => mret (Some ErrDocumentNotRegistered)
      | Some meta =>
          let r := drvFindId drv (trace m) (meta_targetDocument meta) documentID in
          _ ← modify (fun m => logCall m (CallFindId (meta_targetDocument meta) documentID));
          match r with
          | inl err => mret (Some err)
          | inr fs =>
              _ ← modify (fun m => setHeap m (<[p := {| obj_type := obj_type o; obj_fields := fs |}]> (heap m)));
              resolveRelations drv fuel (DocsPointer p) []
          end
      end
  end.

(** * Specification vocabulary *)

(** ** Projection *)

(** The key under which [structToMap] writes a field: [_id] for the
    identifier field of the metadata, the stored key otherwise. *)
Definition storedKey (idField : string) (f : field) : string :=
  if String.eqb (fld_name f) idField then "_id" else fld_key f.

(** Neither ignored nor relation-bearing. *)
Definition projectable (f : field) : bool := negb (fld_ignore f) && negb (hasRelation f).

(** The value is not zero, or the field does not omit empty values. *)
Definition kept (f : field) (v : value) : Prop := isZero v = false \/ fld_omitempty f = false.

(** ** Cascaded removal *)

(** The entity at [q] has a non-zero value in the field [idName]. *)
Definition hasNonZeroID (h : gmap ptr object) (idName : string) (q : ptr) : Prop :=
  exists o id, h !! q = Some o /\ obj_fields o !! idName = Some id /\ isZero id = false.

(** The relation field [f] of a document whose fields are [fs] enqueues
    the entity at [q] for deletion: the cascade of [f] is remove or all,
    the target collection is registered with an identifier field, [q] is
    related through [f] and its identifier is not zero. *)
Definition enqueuesDelete (metas : metadatas) (h : gmap ptr object) (fs : gmap string value)
    (f : field) (q : ptr) : Prop :=
  cascadesRemove f = true /\
  exists meta T idField,
    findMetadataByCollectionName metas (rel_targetDocument (fld_relation f)) = (meta, Some T) /\
    findIDField meta = Some idField /\
    hasNonZeroID h (fld_name idField) q /\
    ((rel_relation (fld_relation f) = referenceMany /\
      exists many, fs !! fld_name f = Some (VPtrs many) /\ Some q ∈ many) \/
     (rel_relation (fld_relation f) = referenceOne /\
      fs !! fld_name f = Some (VPtr (Some q)))).

(** ** Annotations *)

Definition knownName (n : string) : bool :=
  String.eqb n "id" || String.eqb n "omitempty" || String.eqb n "index" ||
  String.eqb n "composite" || String.eqb n "referencemany" || String.eqb n "referenceone".

Definition relationName (n : string) : bool :=
  String.eqb n "referencemany" || String.eqb n "referenceone".

Definition knownRelationKey (k : string) : bool :=
  String.eqb k "mappedby" || String.eqb k "inversedby" || String.eqb k "targetdocument" ||
  String.eqb k "cascade" || String.eqb k "storeid" || String.eqb k "load".

(** A definition with an unrecognized name, or a relation definition
    with an unrecognized parameter key; names and keys are compared in
    lower case. *)
Definition unrecognized (d : tag.Def) : bool :=
  negb (knownName (ToLower (tag.Name d))) ||
  (relationName (ToLower (tag.Name d)) &&
   existsb (fun p => negb (knownRelationKey (ToLower (tag.Key p)))) (tag.Parameters d)).

(** The field is skipped before its ODM tag is tokenized: its [bson] key
    or its whole ODM tag is the dash. *)
Definition ignoredField (F : StructField) : bool :=
  String.eqb (bsonKey F) "-" || String.eqb (sf_odm F) "-".

(** No field of the struct gets the stored key [_id], neither from its
    [bson] tag nor from its lower-cased name. *)
Definition noStoredIdKey (decl : list StructField) : Prop :=
  forall F, F ∈ decl -> bsonKey F <> "_id" /\ ToLower (sf_Name F) <> "_id".

(** ** Drivers *)

(** The driver that answers an empty result set wherever [drv] answers
    [mgo.ErrNotFound] to a query. *)
Definition quiet (drv : Driver) : Driver :=
  {| drvFindSelect := fun h c q s => tolerant (drvFindSelect drv h c q s);
     drvFindAll := fun h c q => tolerant (drvFindAll drv h c q);
     drvFindId := drvFindId drv;
     drvUpsertId := drvUpsertId drv;
     drvRemoveId := drvRemoveId drv;
     drvEnsureIndex := drvEnsureIndex drv |}.

(** The driver that answers an empty result set wherever [drv] answers
    [mgo.ErrNotFound] to the fetch of whole documents,
    [Find(q).All(&structs)]. *)
Definition quietFetch (drv : Driver) : Driver :=
  {| drvFindSelect := drvFindSelect drv;
     drvFindAll := fun h c q => tolerant (drvFindAll drv h c q);
     drvFindId := drvFindId drv;
     drvUpsertId := drvUpsertId drv;
     drvRemoveId := drvRemoveId drv;
     drvEnsureIndex := drvEnsureIndex drv |}.

(** The relation kinds all of whose queries go on after [mgo.ErrNotFound]:
    referenceMany/mappedBy and the owning side of referenceOne. *)
Definition toleratesNotFound (f : field) : bool :=
  match rel_relation (fld_relation f), rel_mapped (fld_relation f) with
  | referenceMany, mappedBy => true
  | referenceOne, mappedBy => false
  | referenceOne, _ => true
  | _, _ => false
  end.

(** A database whose collections hold no document: every query is
    answered by the empty set, every write succeeds. *)
Definition emptyDatabase : Driver :=
  {| drvFindSelect := fun _ _ _ _ => inr [];
     drvFindAll := fun _ _ _ => inr [];
     drvFindId := fun _ _ _ => inl ErrNotFound;
     drvUpsertId := fun _ _ _ _ => None;
     drvRemoveId := fun _ _ _ => None;
     drvEnsureIndex := fun _ _ _ => None |}.

(** A driver that answers [mgo.ErrNotFound] to every query and to every
    removal. *)
Definition notFoundDriver : Driver :=
  {| drvFindSelect := fun _ _ _ _ => inl ErrNotFound;
     drvFindAll := fun _ _ _ => inl ErrNotFound;
     drvFindId := fun _ _ _ => inl ErrNotFound;
     drvUpsertId := fun _ _ _ _ => None;
     drvRemoveId := fun _ _ _ => Some ErrNotFound;
     drvEnsureIndex := fun _ _ _ => None |}.

(** The scheduler that takes the first entry of the buffer. *)
Definition first : list (document * Task.task) -> nat := fun _ => 0.

Definition isUpsertOf (collection : string) (id : ObjectId) (c : call) : bool :=
  match c with
  | CallUpsertId c' (Some (VScalar (SId x))) _ => String.eqb c' collection && String.eqb x id
  | _ => false
  end.

(** How many times the trace upserts the record [id] of [collection]. *)
Definition upsertsOf (collection : string) (id : ObjectId) (tr : list call) : nat :=
  length (List.filter (isUpsertOf collection id) tr).

(** ** Frames and traces *)

(** The computation [c] takes every manager to one that is related to it
    by [R], whatever its outcome. *)
Definition keeps (R : manager -> manager -> Prop) {A} (c : M A) : Prop :=
  forall m, R m (snd (c m)).

(** The computation [c] never runs out of fuel. *)
Definition returns {A} (c : M A) : Prop := forall m, fst (c m) <> Timeout.

(** The value that [c] returns, when it returns one, satisfies [P]. *)
Definition yields {A} (P : A -> Prop) (c : M A) : Prop :=
  forall m, match fst (c m) with Ok a => P a | _ => True end.

(** The trace has grown, by calls that satisfy [P] only. *)
Definition traceGrows (P : call -> Prop) (m m' : manager) : Prop :=
  exists added, trace m' = trace m ++ added /\ Forall P added.

Definition isRemoveId (c : call) : Prop :=
  match c with
  | CallRemoveId _ _ => True
  | _ => False
  end.

Definition isQuery (c : call) : Prop :=
  match c with
  | CallFindSelect _ _ _ | CallFindAll _ _ | CallFindId _ _ => True
  | _ => False
  end.

(** The calls of a flush: an index with at least one key, an upsert whose
    [$set] document has no [_id], a removal; never a query. *)
Definition flushCall (c : call) : Prop :=
  match c with
  | CallEnsureIndex _ index => idx_Key index <> []
  | CallUpsertId _ _ set => set !! "_id" = None
  | CallRemoveId _ _ => True
  | _ => False
  end.

(** Every intent of the buffer is a delete. *)
Definition allDeletes (t : gmap document Task.task) : Prop :=
  forall d theTask, t !! d = Some theTask -> theTask = Task.del.

(** The buffer [t'] is the buffer [t] but for delete intents written to
    it. *)
Definition addsDeletes (t t' : gmap document Task.task) : Prop :=
  forall x, t' !! x = t !! x \/ t' !! x = Some Task.del.

(** What the cascade of [doPersist] does to the manager: it calls no
    driver, registers nothing, and the only intents it writes are inserts. *)
Definition cascadeFrame (m m' : manager) : Prop :=
  metas m' = metas m /\ trace m' = trace m /\
  forall d, tasks m' !! d = tasks m !! d \/ tasks m' !! d = Some Task.insert.

(** What a read leaves of the manager: the registry, the buffer of
    intents and the identifier generator as they were, and a trace that
    has grown by queries only. *)
Definition readFrame (m m' : manager) : Prop :=
  metas m' = metas m /\ tasks m' = tasks m /\ nextId m' = nextId m /\
  traceGrows isQuery m m'.

(** What the decoding of a result set leaves of the manager: the
    registry and the trace. *)
Definition allocFrame (m m' : manager) : Prop :=
  metas m' = metas m /\ trace m' = trace m.

(** ** The errors of the resolver *)

(** The driver answers the error [e] to some query. *)
Definition answeredBy (drv : Driver) (e : error) : Prop :=
  (exists tr c q sel, drvFindSelect drv tr c q sel = inl e) \/
  (exists tr c q, drvFindAll drv tr c q = inl e).

(** The errors the resolver has of its own, and those of the driver. *)
Definition resolverError (drv : Driver) (e : error) : Prop :=
  e = ErrNotAPointer \/ e = ErrNotAnArray \/ e = ErrDocumentNotRegistered \/
  e = ErrFieldNotFound \/ answeredBy drv e.

Definition fromResolver (drv : Driver) (r : option error * fetchedTable) : Prop :=
  forall e, fst r = Some e -> resolverError drv e.

(** * Concrete schemas *)

Definition storedId : ObjectId := "aaaaaaaaaaaa".
Definition otherId : ObjectId := "bbbbbbbbbbbb".

(** [type User struct { ID bson.ObjectId `bson:"_id,omitempty"`;
      Friends []*User `odm:"referenceMany(targetDocument=users,mappedBy=FriendOf)"`;
      FriendOf []*User `odm:"referenceMany(targetDocument=users)"` }] *)
Definition userDecl : list StructField :=
  [ {| sf_Name := "ID"; sf_bson := "_id,omitempty"; sf_odm := "" |};
    {| sf_Name := "Friends"; sf_bson := "";
       sf_odm := "referenceMany(targetDocument=users,mappedBy=FriendOf)" |};
    {| sf_Name := "FriendOf"; sf_bson := ""; sf_odm := "referenceMany(targetDocument=users)" |} ].

Definition User : rtype := TStruct "User" userDecl.

Definition usersManager : manager :=
  snd (Register tag.Parse "users" (TPtr User) NewDocumentManager).

Definition usersState (t : gmap document Task.task) (h : gmap ptr object) (np : ptr)
    (ni : nat) (tr : list call) : manager :=
  {| metas := metas usersManager; tasks := t; heap := h; nextPtr := np; nextId := ni;
     trace := tr |}.

(** An author and a book that refer to each other, both with
    [cascade=persist]. *)
Definition authorDecl : list StructField :=
  [ {| sf_Name := "ID"; sf_bson := "_id"; sf_odm := "" |};
    {| sf_Name := "Book"; sf_bson := "";
       sf_odm := "referenceOne(targetDocument=books,cascade=persist)" |} ].

Definition bookDecl : list StructField :=
  [ {| sf_Name := "ID"; sf_bson := "_id"; sf_odm := "" |};
    {| sf_Name := "Author"; sf_bson := "";
       sf_odm := "referenceOne(targetDocument=authors,cascade=persist)" |} ].

Definition Author : rtype := TStruct "Author" authorDecl.
Definition Book : rtype := TStruct "Book" bookDecl.

Definition libraryManager : manager :=
  let m := snd (Register tag.Parse "authors" (TPtr Author) NewDocumentManager) in
  let m := snd (Register tag.Parse "books" (TPtr Book) m) in
  setNextPtr
    (setHeap m
       {[ 1%positive := {| obj_type := Author;
                           obj_fields := {[ "ID" := VId zeroObjectID;
                                            "Book" := VPtr (Some 2%positive) ]} |};
          2%positive := {| obj_type := Book;
                           obj_fields := {[ "ID" := VId zeroObjectID;
                                            "Author" := VPtr (Some 1%positive) ]} |} ]})
    3%positive.

Definition authorId : ObjectId := NewObjectId 0.
Definition bookId : ObjectId := NewObjectId 1.

Definition libraryHeap : gmap ptr object :=
  {[ 1%positive := {| obj_type := Author;
                      obj_fields := {[ "ID" := VId authorId; "Book" := VPtr (Some 2%positive) ]} |};
     2%positive := {| obj_type := Book;
                      obj_fields := {[ "ID" := VId bookId; "Author" := VPtr (Some 1%positive) ]} |} ]}.

(** The state of the flush once both identifiers are set: one create
    intent is pending, for the entity at [pending]. *)
Definition libraryState (pending : ptr) (tr : list call) : manager :=
  {| metas := metas libraryManager; tasks := {[ Some pending := Task.insert ]};
     heap := libraryHeap; nextPtr := 3%positive; nextId := 2; trace := tr |}.

Definition upsertAuthor : call :=
  CallUpsertId "authors" (Some (VId authorId)) {[ "odm:bookid" := VId bookId ]}.

Definition upsertBook : call :=
  CallUpsertId "books" (Some (VId bookId)) {[ "odm:authorid" := VId authorId ]}.

(** A node whose [Next] is the node itself, with [cascade=remove]. *)
Definition nodeDecl : list StructField :=
  [ {| sf_Name := "ID"; sf_bson := "_id"; sf_odm := "" |};
    {| sf_Name := "Next"; sf_bson := "";
       sf_odm := "referenceOne(targetDocument=nodes,cascade=remove)" |} ].

Definition Node : rtype := TStruct "Node" nodeDecl.

Definition ringManager : manager :=
  let m := snd (Register tag.Parse "nodes" (TPtr Node) NewDocumentManager) in
  setNextPtr
    (setHeap m {[ 1%positive := {| obj_type := Node;
                                   obj_fields := {[ "ID" := VId storedId;
                                                    "Next" := VPtr (Some 1%positive) ]} |} ]})
    2%positive.

(** [Persist(node); Remove(node)] *)
Definition ringScheduled : manager :=
  snd (Remove (ArgDocument (Some 1%positive)) (snd (Persist (ArgDocument (Some 1%positive)) ringManager))).

Definition removeStored : call := CallRemoveId "nodes" (Some (VId storedId)).
Definition removeZero : call := CallRemoveId "nodes" (Some (VId zeroObjectID)).

(** An account whose identifier is marked by the ODM [id] annotation
    only, already stored under [storedId]. *)
Definition accountDecl : list StructField :=
  [ {| sf_Name := "ID"; sf_bson := ""; sf_odm := "id()" |};
    {| sf_Name := "Name"; sf_bson := ""; sf_odm := "" |} ].

Definition Account : rtype := TStruct "Account" accountDecl.

Definition anAccount : object :=
  {| obj_type := Account;
     obj_fields := {[ "ID" := VId storedId; "Name" := VScalar (SStr "ann") ]} |}.

Definition accountsManager : manager :=
  setNextPtr
    (setHeap (snd (Register tag.Parse "accounts" (TPtr Account) NewDocumentManager))
             {[ 1%positive := anAccount ]})
    2%positive.

(** An owner whose items are the mapped side of [Item.Owner], with
    [cascade=remove]. *)
Definition ownerDecl : list StructField :=
  [ {| sf_Name := "ID"; sf_bson := "_id"; sf_odm := "" |};
    {| sf_Name := "Items"; sf_bson := "";
       sf_odm := "referenceMany(targetDocument=items,mappedBy=Owner,cascade=remove)" |} ].

Definition itemDecl : list StructField :=
  [ {| sf_Name := "ID"; sf_bson := "_id"; sf_odm := "" |};
    {| sf_Name := "Owner"; sf_bson := ""; sf_odm := "referenceOne(targetDocument=owners)" |} ].

Definition Owner : rtype := TStruct "Owner" ownerDecl.
Definition Item : rtype := TStruct "Item" itemDecl.

Definition shopManager : manager :=
  let m := snd (Register tag.Parse "owners" (TPtr Owner) NewDocumentManager) in
  let m := snd (Register tag.Parse "items" (TPtr Item) m) in
  setNextPtr
    (setHeap m
       {[ 1%positive := {| obj_type := Owner;
                           obj_fields := {[ "ID" := VId storedId;
                                            "Items" := VPtrs [Some 2%positive] ]} |};
          2%positive := {| obj_type := Item;
                           obj_fields := {[ "ID" := VId otherId;
                                            "Owner" := VPtr (Some 1%positive) ]} |} ]})
    3%positive.

(** A member with [ID bson.ObjectId `bson:"_id,omitempty"`] and
    [Name string `bson:"name"`], not stored yet. *)
Definition memberDecl : list StructField :=
  [ {| sf_Name := "ID"; sf_bson := "_id,omitempty"; sf_odm := "" |};
    {| sf_Name := "Name"; sf_bson := "name"; sf_odm := "" |} ].

Definition Member : rtype := TStruct "Member" memberDecl.

Definition aMember : object :=
  {| obj_type := Member;
     obj_fields := {[ "ID" := VId zeroObjectID; "Name" := VScalar (SStr "ann") ]} |}.

Definition membersManager : manager :=
  setNextPtr
    (setHeap (snd (Register tag.Parse "members" (TPtr Member) NewDocumentManager))
             {[ 1%positive := aMember ]})
    2%positive.

(** A struct with an ignored field that carries an unknown annotation. *)
Definition vaultDecl : list StructField :=
  [ {| sf_Name := "ID"; sf_bson := "_id"; sf_odm := "" |};
    {| sf_Name := "Secret"; sf_bson := "-"; sf_odm := "bogus()" |} ].

Definition Vault : rtype := TStruct "Vault" vaultDecl.

(** A struct with a relation that carries an unknown parameter. *)
Definition linkField : StructField :=
  {| sf_Name := "Target"; sf_bson := ""; sf_odm := "referenceOne(unknownParam=x)" |}.

Definition linkDecl : list StructField :=
  [ {| sf_Name := "ID"; sf_bson := "_id"; sf_odm := "" |}; linkField ].

(** A document manager that holds an entity of a type nobody registered. *)
Definition strangerManager : manager :=
  setNextPtr
    (setHeap NewDocumentManager
             {[ 1%positive := {| obj_type := TStruct "Stranger" [];
                                 obj_fields := {[ "ID" := VId zeroObjectID ]} |} ]})
    2%positive.

(** The documents of a club, as handed to [RegisterMany]; in the second
    list the type in the middle carries an unknown relation parameter. *)
Definition clubDocuments : list (string * rtype) :=
  [ ("members", TPtr Member); ("accounts", TPtr Account) ].

Definition brokenDocuments : list (string * rtype) :=
  [ ("members", TPtr Member); ("links", TPtr (TStruct "Link" linkDecl));
    ("accounts", TPtr Account) ].

(** A struct whose relation field also asks for an index. *)
Definition parcelDecl : list StructField :=
  [ {| sf_Name := "ID"; sf_bson := "_id"; sf_odm := "" |};
    {| sf_Name := "Label"; sf_bson := "label"; sf_odm := "index(unique=true)" |};
    {| sf_Name := "Owner"; sf_bson := "";
       sf_odm := "index();referenceOne(targetDocument=owners)" |} ].

(** A stored user without friends. *)
Definition aUser : object :=
  {| obj_type := User;
     obj_fields := {[ "ID" := VId storedId; "Friends" := VPtrs []; "FriendOf" := VPtrs [] ]} |}.

Definition loneUser : manager :=
  usersState ∅ {[ 1%positive := aUser ]} 2%positive 0 [].

(** * Properties *)

(** ** Shared lemmas on the unit of work *)

Lemma Flush_unfold pick drv fuel m :
  Flush pick drv (S fuel) m =
  if (size (tasks m) =? 0)%nat then (Ok None, m)
  else match flushTurn pick drv m with
       | (Ok None, m') => Flush pick drv fuel m'
       | r => r
       end.
Proof. reflexivity. Qed.

Lemma Flush_empty pick drv fuel m :
  tasks m = ∅ -> Flush pick drv fuel m = (Ok None, m).
Proof. intros H. destruct fuel; simpl; by rewrite H. Qed.

Lemma pop_singleton pick (d : document) (t : Task.task) :
  pop pick ({[d := t]} : gmap (option ptr) Task.task) = (d, t, ∅).
Proof.
  unfold pop. rewrite map_to_list_singleton. simpl.
  replace (pick [(d, t)] `mod` 1) with 0 by (symmetry; apply Nat.mod_1_r).
  simpl. by rewrite delete_singleton_eq.
Qed.

Lemma getManager_bind {B} (f : manager -> M B) m : (getManager ≫= f) m = f m m.
Proof. reflexivity. Qed.

Lemma bind_ext {A B} (f g : A -> M B) (c : M A) m :
  (forall a m', f a m' = g a m') -> (c ≫= f) m = (c ≫= g) m.
Proof.
  intros H. unfold mbind, M_bind. destruct (c m) as [[a| |] m']; [apply H|done|done].
Qed.

Lemma NoDup_map_inj {A B} (h : A -> B) (l : list A) x y :
  NoDup (List.map h l) -> x ∈ l -> y ∈ l -> h x = h y -> x = y.
Proof.
  induction l as [|a l IH]; intros Hnd Hx Hy Heq; [by apply elem_of_nil in Hx|].
  simpl in Hnd. inversion Hnd as [|? ? Hnotin Hnd']; subst.
  apply elem_of_cons in Hx as [->|Hx]; apply elem_of_cons in Hy as [->|Hy]; try done.
  - exfalso. apply Hnotin. rewrite Heq. by apply list_elem_of_In, in_map, list_elem_of_In.
  - exfalso. apply Hnotin. rewrite <- Heq. by apply list_elem_of_In, in_map, list_elem_of_In.
  - by apply IH.
Qed.

(** The helpers without a loop of their own never run out of fuel. *)
Lemma projectFields_returns idField fs fields : forall acc,
  projectFields idField fs fields acc <> Timeout.
Proof.
  induction fields as [|f rest IH]; intros acc; simpl; [done|].
  destruct (projectField idField fs f acc) as [r| |] eqn:E; [apply IH|done|].
  unfold projectField in E.
  destruct (fld_ignore f); [done|].
  destruct (fld_omitempty f).
  - destruct (fs !! fld_name f) as [v|]; [|done].
    destruct (isZero v); [done|]. destruct (hasRelation f); [done|].
    by destruct (String.eqb _ _).
  - destruct (hasRelation f); [done|]. destruct (fs !! fld_name f); [|done].
    by destruct (String.eqb _ _).
Qed.

Lemma structToMap_returns metas h d : structToMap metas h d <> Timeout.
Proof.
  unfold structToMap. destruct d as [p|]; [|done].
  destruct (h !! p); [|done]. apply projectFields_returns.
Qed.

Lemma removeMany_returns h idName many : forall t,
  fst (removeMany h idName many t) <> Timeout.
Proof.
  induction many as [|[q|] rest IH]; intros t; simpl; try done.
  destruct (h !! q) as [o|]; [|done]. destruct (obj_fields o !! idName); [|done]. apply IH.
Qed.

Lemma removeField_returns metas h fs f t : fst (removeField metas h fs f t) <> Timeout.
Proof.
  unfold removeField. destruct (cascadesRemove f); [|done].
  destruct (rel_relation (fld_relation f)); [done| |].
  - destruct (findMetadataByCollectionName _ _) as [meta [T|]]; [|done].
    destruct (fs !! fld_name f) as [[s|o|many|l]|]; try done.
    + destruct (findIDField meta); [apply removeMany_returns|done].
    + by destruct l, (findIDField meta).
  - destruct (findMetadataByCollectionName _ _) as [meta [T|]]; [|done].
    destruct (fs !! fld_name f) as [one|]; [|done].
    destruct (isZero one); [done|]. destruct (findIDField meta) as [idField|]; [|done].
    destruct one as [s|[q|]|many|l]; try done.
    destruct (h !! q) as [o|]; [|done]. by destruct (obj_fields o !! _).
Qed.

Lemma removeFields_returns metas h fs fields : forall t,
  fst (removeFields metas h fs fields t) <> Timeout.
Proof.
  induction fields as [|f rest IH]; intros t; simpl; [done|].
  pose proof (removeField_returns metas h fs f t) as E.
  destruct (removeField metas h fs f t) as [[[]| |] t']; [apply IH|done|done].
Qed.

Lemma beBytes_length k : forall n acc,
  String.length (beBytes k n acc) = (k + String.length acc)%nat.
Proof.
  induction k as [|k IH]; intros n acc; simpl; [done|].
  rewrite IH. simpl. lia.
Qed.

(** A generated identifier is valid, hence not zero. *)
Lemma NewObjectId_Valid counter : Valid (NewObjectId counter) = true.
Proof. unfold Valid, NewObjectId. by rewrite beBytes_length. Qed.

Lemma Persist_trace d m : trace (snd (Persist (ArgDocument d) m)) = trace m.
Proof.
  unfold Persist. destruct (getDocumentID _ _ _) as [[id e]| |]; try done.
  destruct (negb (Valid id)); [|done].
  destruct (setIDForValue _ _ _ _) as [[e' h']| |]; done.
Qed.

Lemma Persist_registered d m m' :
  Persist (ArgDocument d) m = (Ok tt, m') -> forall d', registered m' d' = registered m d'.
Proof.
  unfold Persist. intros H d'.
  destruct (getDocumentID _ _ _) as [[id e]| |]; try done.
  destruct (negb (Valid id)); [|by inversion H; subst].
  destruct (setIDForValue _ _ _ _) as [[e' h']| |] eqn:Hset; try done.
  inversion H; subst m'. clear H. unfold registered. simpl.
  replace (TypeOf h' d') with (TypeOf (heap m) d'); [done|].
  unfold setIDForValue in Hset. simpl in Hset.
  destruct d as [p|]; [|done].
  destruct (heap m !! p) as [o|] eqn:Hp; [|done].
  destruct (metasLookup _ _); [|by inversion Hset].
  unfold setObjectIdField in Hset. rewrite Hp in Hset.
  destruct (obj_fields o !! _) as [[[]| | |]|]; try done.
  inversion Hset; subst h'. unfold TypeOf. destruct d' as [p'|]; [|done].
  destruct (decide (p = p')) as [<-|Hne].
  - by rewrite lookup_insert_eq, Hp.
  - by rewrite lookup_insert_ne.
Qed.

Lemma Persist_tasks d m m' :
  Persist (ArgDocument d) m = (Ok tt, m') -> exists t, tasks m' = <[d := t]> (tasks m).
Proof.
  unfold Persist. intros H.
  destruct (getDocumentID _ _ _) as [[id e]| |]; try done.
  destruct (negb (Valid id)).
  - destruct (setIDForValue _ _ _ _) as [[e' h']| |]; try done.
    inversion H; subst. simpl. eauto.
  - inversion H; subst. simpl. eauto.
Qed.

(** ** Termination of the resolver (claim C1) *)

Example users_registered :
  fst (Register tag.Parse "users" (TPtr User) NewDocumentManager) = None.
Proof. vm_compute. reflexivity. Qed.

(** On an empty batch of users the body of [doResolveRelations] queries
    the database twice for the mapped relation [Friends] and then makes
    the recursive call on the empty batch it fetched, with the table of
    fetched entities still empty. *)
Lemma resolveBody_empty_users rec t h np ni tr :
  fst (rec (DocsSlice (TPtr User) []) ∅
         (usersState t h np ni
            ((tr ++ [CallFindSelect "users" [("odm:friendofids", QIn [])]
                                    ["_id"; "odm:friendofids"]])
                ++ [CallFindAll "users" [("_id", QIn [])]]))) = Timeout ->
  fst (resolveBody emptyDatabase rec (DocsSlice (TPtr User) []) ∅ [] (usersState t h np ni tr))
  = Timeout.
Proof.
  intros H. vm_compute in H. vm_compute.
  destruct (rec _ _ _) as [[[e f]| |] m']; [discriminate H|discriminate H|reflexivity].
Qed.

Lemma doResolveRelations_empty_users fuel : forall t h np ni tr,
  fst (doResolveRelations emptyDatabase fuel (DocsSlice (TPtr User) []) ∅ []
         (usersState t h np ni tr)) = Timeout.
Proof.
  induction fuel as [|fuel IH]; intros; [reflexivity|].
  change (doResolveRelations emptyDatabase (S fuel) ?d ?f ?s) with
    (resolveBody emptyDatabase
       (fun related fetched => doResolveRelations emptyDatabase fuel related fetched []) d f s).
  apply resolveBody_empty_users. apply IH.
Qed.

(** C1 (the code departs from the claim).  The resolver does not
    terminate on every input: with the self-related [User] schema of the
    spec's cycle scenario ([Friends] mapped by [FriendOf]) registered and
    an empty [users] collection, [FindAll] never returns, whatever fuel
    it is given.  The mapped branches recurse on the batch they fetched
    even when it is empty, where the owning branches stop. *)
Theorem resolver_diverges_on_empty_mapped_batch (fuel : nat) :
  fst (FindAll emptyDatabase fuel (TPtr User) usersManager) = Timeout.
Proof.
  unfold FindAll, resolveRelations.
  pose proof (doResolveRelations_empty_users fuel ∅ ∅ 1%positive 0 [CallFindAll "users" []]) as H.
  revert H. generalize (doResolveRelations emptyDatabase fuel). intros R H.
  vm_compute in H. vm_compute.
  destruct (R _ _ _ _) as [[[e f]| |] m'];
    [discriminate H|discriminate H|reflexivity].
Qed.

(** ** One commit per entity and flush (claim C2) *)

Lemma library_first_turn pick :
  flushTurn pick emptyDatabase (snd (Persist (ArgDocument (Some 1%positive)) libraryManager))
  = (Ok None, libraryState 2%positive [upsertAuthor]).
Proof. vm_compute. reflexivity. Qed.

Lemma library_author_turn pick tr :
  flushTurn pick emptyDatabase (libraryState 1%positive tr)
  = (Ok None, libraryState 2%positive (tr ++ [upsertAuthor])).
Proof. vm_compute. reflexivity. Qed.

Lemma library_book_turn pick tr :
  flushTurn pick emptyDatabase (libraryState 2%positive tr)
  = (Ok None, libraryState 1%positive (tr ++ [upsertBook])).
Proof. vm_compute. reflexivity. Qed.

Lemma libraryState_size q tr : (size (tasks (libraryState q tr)) =? 0)%nat = false.
Proof. unfold libraryState. simpl. by rewrite map_size_singleton. Qed.

Lemma library_flush_two_turns pick fuel tr :
  Flush pick emptyDatabase (S (S fuel)) (libraryState 2%positive tr)
  = Flush pick emptyDatabase fuel
      (libraryState 2%positive ((tr ++ [upsertBook]) ++ [upsertAuthor])).
Proof.
  rewrite Flush_unfold, libraryState_size, library_book_turn.
  rewrite Flush_unfold, libraryState_size, library_author_turn. done.
Qed.

Lemma library_flush_diverges pick fuel : forall tr q,
  (q = 1%positive \/ q = 2%positive) ->
  fst (Flush pick emptyDatabase fuel (libraryState q tr)) = Timeout.
Proof.
  induction fuel as [|fuel IH]; intros tr q Hq.
  - destruct Hq as [-> | ->]; reflexivity.
  - rewrite Flush_unfold, libraryState_size.
    destruct Hq as [-> | ->].
    + rewrite library_author_turn. apply IH. by right.
    + rewrite library_book_turn. apply IH. by left.
Qed.

Lemma upsertsOf_app c i tr1 tr2 :
  upsertsOf c i (tr1 ++ tr2) = upsertsOf c i tr1 + upsertsOf c i tr2.
Proof. unfold upsertsOf. by rewrite List.filter_app, List.length_app. Qed.

Lemma library_pending :
  (size (tasks (snd (Persist (ArgDocument (Some 1%positive)) libraryManager))) =? 0)%nat = false.
Proof. by vm_compute. Qed.

Lemma upsertsOf_book : upsertsOf "authors" authorId [upsertBook] = 0.
Proof. by vm_compute. Qed.

Lemma upsertsOf_author : upsertsOf "authors" authorId [upsertAuthor] = 1.
Proof. by vm_compute. Qed.

Lemma library_flush_commits pick n : forall tr,
  upsertsOf "authors" authorId
    (trace (snd (Flush pick emptyDatabase (2 * n) (libraryState 2%positive tr))))
  = upsertsOf "authors" authorId tr + n.
Proof.
  induction n as [|n IH]; intros tr.
  - change (2 * 0) with 0. unfold Flush. rewrite libraryState_size. simpl. lia.
  - replace (2 * S n) with (S (S (2 * n))) by lia.
    rewrite library_flush_two_turns, IH, !upsertsOf_app.
    rewrite upsertsOf_book, upsertsOf_author. lia.
Qed.

(** C2 (the code departs from the claim).  An author and a book refer
    to each other with [cascade=persist]; after [Persist(author)] a single
    [Flush] commits the author again and again: whatever the order in
    which the buffer is drained, after [2n+1] turns of its loop the flush
    is still running and has upserted the author [n+1] times.  [Flush]
    keeps no record of the entities it has committed. *)
Theorem cascade_cycle_recommits (pick : list (document * Task.task) -> nat) (n : nat) :
  let m := snd (Persist (ArgDocument (Some 1%positive)) libraryManager) in
  fst (Flush pick emptyDatabase (S (2 * n)) m) = Timeout /\
  upsertsOf "authors" authorId (trace (snd (Flush pick emptyDatabase (S (2 * n)) m))) = S n.
Proof.
  intros m. unfold m.
  rewrite Flush_unfold, library_pending, library_first_turn. split.
  - apply library_flush_diverges. by right.
  - rewrite library_flush_commits, upsertsOf_author. lia.
Qed.

(** ** Delete wins (claim C3) *)

(** C3 (the code departs from the claim).  A registered node whose
    [Next] relation, with [cascade=remove], holds the node itself is
    scheduled by [Persist(node); Remove(node)]: the buffer then holds the
    delete intent alone, and no upsert is issued, but [Flush] attempts two
    deletes for the node, the second with the identifier it has just
    reset to zero, as soon as the driver accepts the first. *)
Theorem self_reference_deleted_twice (pick : list (document * Task.task) -> nat)
    (drv : Driver) (fuel : nat) :
  drvRemoveId drv [] "nodes" (Some (VId storedId)) = None ->
  tasks ringScheduled = {[ Some 1%positive := Task.del ]} /\
  fst (Flush pick drv (S (S fuel)) ringScheduled)
    = Ok (drvRemoveId drv [removeStored] "nodes" (Some (VId zeroObjectID))) /\
  trace (snd (Flush pick drv (S (S fuel)) ringScheduled)) = [removeStored; removeZero].
Proof.
  intros H. split; [by vm_compute|].
  destruct drv as [fs fa fi up rm ei]. cbn [drvRemoveId] in *.
  rewrite Flush_unfold.
  replace (size (tasks ringScheduled) =? 0)%nat with false by by vm_compute.
  set (drv := {| drvFindSelect := fs; drvFindAll := fa; drvFindId := fi; drvUpsertId := up;
                 drvRemoveId := rm; drvEnsureIndex := ei |}).
  assert (H1 : exists m1, flushTurn pick drv ringScheduled = (Ok None, m1) /\
            tasks m1 = {[ Some 1%positive := Task.del ]} /\
            exists m2, flushTurn pick drv m1 =
              (Ok (rm [removeStored] "nodes" (Some (VId zeroObjectID))), m2) /\
              tasks m2 = ∅ /\ trace m2 = [removeStored; removeZero]).
  { eexists. split; [|split].
    - vm_compute. vm_compute in H. rewrite H. reflexivity.
    - by vm_compute.
    - clear H. vm_compute. destruct (rm _ _ _); eexists; (split; [reflexivity|]); by vm_compute. }
  destruct H1 as (m1 & -> & Ht & m2 & Hturn & Ht2 & Htr).
  rewrite Flush_unfold, Ht, map_size_singleton. simpl. rewrite Hturn.
  destruct (rm [removeStored] "nodes" (Some (VId zeroObjectID))) eqn:E.
  - simpl. by rewrite Htr.
  - rewrite Flush_empty by done. simpl. by rewrite Htr.
Qed.

Lemma self_reference_deleted_twice_witness :
  trace (snd (Flush first emptyDatabase 2 ringScheduled)) = [removeStored; removeZero].
Proof.
  exact (proj2 (proj2 (self_reference_deleted_twice first emptyDatabase 0 eq_refl))).
Defined.

(** ** Identifier assignment by [Persist] (claim C4) *)

(** Where the identifier field is the one the identifier lookup finds,
    [Persist] does what the documentation says: an invalid (in
    particular a zero) identifier is replaced by a generated one and a
    create intent is recorded, a valid identifier is left alone and an
    update intent is recorded. *)
Lemma Persist_with_stored_id_key (m : manager) (p : ptr) (o : object) (meta : metadata)
    (idf : field) (id : ObjectId) :
  heap m !! p = Some o ->
  metasLookup (metas m) (TPtr (obj_type o)) = Some meta ->
  findIDField meta = Some idf ->
  fld_name idf = meta_idField meta ->
  obj_fields o !! meta_idField meta = Some (VId id) ->
  exists m',
    Persist (ArgDocument (Some p)) m = (Ok tt, m') /\
    if Valid id
    then tasks m' !! Some p = Some Task.update /\ heap m' = heap m
    else tasks m' !! Some p = Some Task.insert /\
         heap m' = <[p := setField o (meta_idField meta) (VId (NewObjectId (nextId m)))]> (heap m).
Proof.
  intros Hp Hmeta Hidf Hname Hid.
  unfold Persist, getDocumentID. rewrite Hp, Hmeta, Hidf, Hname, Hid.
  unfold VId. destruct (Valid id); cbn [negb].
  - eexists. split; [reflexivity|]. simpl. split; [apply lookup_insert_eq|done].
  - unfold setIDForValue, setObjectIdField. cbn [heap metas setNextId]. rewrite Hp, Hmeta, Hid.
    eexists. split; [reflexivity|]. simpl. split; [apply lookup_insert_eq|done].
Qed.

(** C4 (the code departs from the claim).  An account whose identifier
    field is marked by the ODM [id] annotation is registered and holds
    the valid, non-zero identifier [storedId]; [Persist] nevertheless
    overwrites the identifier with a generated one and records a create
    intent, where the claim has it record an update and leave the
    identifier unchanged. *)
Theorem Persist_regenerates_stored_identifier :
  (meta_idField <$> registered accountsManager (Some 1%positive)) = Some "ID" /\
  (heap accountsManager !! 1%positive ≫= fun o => obj_fields o !! "ID") = Some (VId storedId) /\
  Valid storedId = true /\
  fst (Persist (ArgDocument (Some 1%positive)) accountsManager) = Ok tt /\
  tasks (snd (Persist (ArgDocument (Some 1%positive)) accountsManager)) !! Some 1%positive = Some Task.insert /\
  (heap (snd (Persist (ArgDocument (Some 1%positive)) accountsManager)) !! 1%positive
     ≫= fun o => obj_fields o !! "ID") = Some (VId (NewObjectId 0)) /\
  NewObjectId 0 <> storedId.
Proof. repeat split; by vm_compute. Qed.

(** ** Cascaded removal (claim C5) *)

Lemma removeMany_spec h idName many : forall t t',
  removeMany h idName many t = (Ok tt, t') ->
  forall x,
    ((exists q, x = Some q /\ Some q ∈ many /\ hasNonZeroID h idName q) -> t' !! x = Some Task.del) /\
    (~ (exists q, x = Some q /\ Some q ∈ many /\ hasNonZeroID h idName q) -> t' !! x = t !! x).
Proof.
  induction many as [|[q|] rest IH]; intros t t' H x; simpl in H.
  - inversion H; subst. split; [|done].
    intros (q & _ & Hq & _). by apply elem_of_nil in Hq.
  - destruct (h !! q) as [o|] eqn:Ho; [|done].
    destruct (obj_fields o !! idName) as [id|] eqn:Hid; [|done].
    destruct (IH _ _ H x) as [IH1 IH2]. split.
    + intros (q' & -> & Hin & Hnz).
      destruct (decide (Some q' ∈ rest)) as [Hr|Hr].
      * apply IH1. eauto.
      * apply elem_of_cons in Hin as [Heq|Hin]; [|done].
        inversion Heq; subst q'.
        rewrite IH2.
        -- destruct Hnz as (o' & id' & Ho' & Hid' & Hz). rewrite Ho in Ho'. inversion Ho'; subst o'.
           rewrite Hid in Hid'. inversion Hid'; subst id'. rewrite Hz. apply lookup_insert_eq.
        -- intros (q'' & Heq' & Hin' & _). inversion Heq'; subst. done.
    + intros Hno. rewrite IH2.
      * destruct (isZero id) eqn:Hz; [done|].
        rewrite lookup_insert_ne; [done|].
        intros <-. apply Hno. exists q. split; [done|]. split; [left|].
        exists o, id. done.
      * intros (q' & -> & Hin & Hnz). apply Hno. exists q'. split; [done|]. split; [by right|done].
  - done.
Qed.

Lemma removeField_spec metas h fs f t t' :
  removeField metas h fs f t = (Ok tt, t') ->
  forall x,
    ((exists q, x = Some q /\ enqueuesDelete metas h fs f q) -> t' !! x = Some Task.del) /\
    (~ (exists q, x = Some q /\ enqueuesDelete metas h fs f q) -> t' !! x = t !! x).
Proof.
  unfold removeField, enqueuesDelete. intros H x.
  destruct (cascadesRemove f) eqn:Hc.
  2:{ inversion H; subst. split; [|done]. intros (q & _ & Hf & _). done. }
  destruct (rel_relation (fld_relation f)) eqn:Hk.
  - inversion H; subst. split; [|done].
    intros (q & _ & _ & meta & T & idf & _ & _ & _ & [[? _]|[? _]]); done.
  - destruct (findMetadataByCollectionName metas (rel_targetDocument (fld_relation f)))
      as [meta [T|]] eqn:Hfind.
    2:{ inversion H; subst. split; [|done].
        intros (q & _ & _ & meta' & T & idf & Hm & _). done. }
    destruct (fs !! fld_name f) as [v|] eqn:Hv; [|done].
    destruct v as [s|o|many|l]; try done.
    + destruct (findIDField meta) as [idField|] eqn:Hid.
      * destruct (removeMany_spec _ _ _ _ _ H x) as [S1 S2]. split.
        -- intros (q & -> & _ & meta' & T' & idf & Hm & Hidf & Hnz & [[_ (many' & Hmany & Hin)]|[? _]]); [|done].
           inversion Hm; subst meta' T'. rewrite Hid in Hidf. inversion Hidf; subst idf.
           inversion Hmany; subst many'. apply S1. eauto.
        -- intros Hno. apply S2. intros (q & -> & Hin & Hnz). apply Hno.
           exists q. split; [done|]. split; [done|]. exists meta, T, idField.
           repeat split; try done. left. split; [done|]. eauto.
      * inversion H; subst. split; [|done].
        intros (q & _ & _ & meta' & T' & idf & Hm & Hidf & _).
        inversion Hm; subst meta' T'. by rewrite Hid in Hidf.
    + assert (t' = t) as ->.
      { destruct l, (findIDField meta); by inversion H. }
      split; [|done].
      intros (q & _ & _ & meta' & T' & idf & _ & _ & _ & [[_ (many' & Hmany & _)]|[? _]]); done.
  - destruct (findMetadataByCollectionName metas (rel_targetDocument (fld_relation f)))
      as [meta [T|]] eqn:Hfind.
    2:{ inversion H; subst. split; [|done].
        intros (q & _ & _ & meta' & T & idf & Hm & _). done. }
    destruct (fs !! fld_name f) as [one|] eqn:Hv; [|done].
    destruct (isZero one) eqn:Hz.
    { inversion H; subst. split; [|done].
      intros (q & _ & _ & meta' & T' & idf & _ & _ & _ & [[? _]|[_ Hone]]); [done|].
      inversion Hone; subst one. done. }
    destruct (findIDField meta) as [idField|] eqn:Hid.
    2:{ inversion H; subst. split; [|done].
        intros (q & _ & _ & meta' & T' & idf & Hm & Hidf & _).
        inversion Hm; subst meta' T'. by rewrite Hid in Hidf. }
    destruct one as [s|[q|]|many|l]; try done.
    destruct (h !! q) as [o|] eqn:Ho; [|done].
    destruct (obj_fields o !! fld_name idField) as [id|] eqn:Hidv; [|done].
    inversion H; subst t'. clear H. split.
    + intros (q' & -> & _ & meta' & T' & idf & Hm & Hidf & Hnz & [[? _]|[_ Hone]]); [done|].
      inversion Hone; subst q'. inversion Hm; subst meta' T'.
      rewrite Hid in Hidf. inversion Hidf; subst idf.
      destruct Hnz as (o' & id' & Ho' & Hid' & Hz').
      rewrite Ho in Ho'. inversion Ho'; subst o'. rewrite Hidv in Hid'. inversion Hid'; subst id'.
      rewrite Hz'. apply lookup_insert_eq.
    + intros Hno. destruct (isZero id) eqn:Hzid; [done|].
      rewrite lookup_insert_ne; [done|]. intros <-. apply Hno.
      exists q. split; [done|]. split; [done|]. exists meta, T, idField.
      repeat split; try done; [exists o, id; done|]. right. done.
Qed.

Lemma removeFields_spec metas h fs fields : forall t t',
  removeFields metas h fs fields t = (Ok tt, t') ->
  forall x,
    ((exists f q, f ∈ fields /\ x = Some q /\ enqueuesDelete metas h fs f q) ->
       t' !! x = Some Task.del) /\
    (~ (exists f q, f ∈ fields /\ x = Some q /\ enqueuesDelete metas h fs f q) ->
       t' !! x = t !! x).
Proof.
  induction fields as [|f rest IH]; intros t t' H x; simpl in H.
  - inversion H; subst. split; [|done]. intros (f & q & Hf & _). by apply elem_of_nil in Hf.
  - destruct (removeField metas h fs f t) as [[[]| |] t1] eqn:Hf; try done.
    destruct (IH _ _ H x) as [IH1 IH2].
    destruct (removeField_spec _ _ _ _ _ _ Hf x) as [F1 F2].
    assert (Hdel : forall y, t1 !! y = Some Task.del -> t' !! y = Some Task.del).
    { clear -H. revert t1 H. induction rest as [|g rest IHr]; intros t1 H y Hy; simpl in H.
      - by inversion H; subst.
      - destruct (removeField metas h fs g t1) as [[[]| |] t2] eqn:Hg; try done.
        apply (IHr _ H).
        destruct (removeField_spec _ _ _ _ _ _ Hg y) as [G1 G2].
        destruct (decide (t2 !! y = Some Task.del)) as [E|E]; [done|].
        exfalso. apply E. etrans; [apply G2|exact Hy]. intros HH. by apply E, G1. }
    split.
    + intros (g & q & Hg & -> & Henq).
      apply elem_of_cons in Hg as [->|Hg].
      * apply Hdel, F1. eauto.
      * apply IH1. eauto.
    + intros Hno. rewrite IH2, F2; [done| |].
      * intros (q & -> & Henq). apply Hno. exists f, q. split; [left|done].
      * intros (g & q & Hg & -> & Henq). apply Hno. exists g, q. split; [by right|done].
Qed.

Lemma getFieldsWithRelation_none meta :
  metaHasRelation meta = false -> getFieldsWithRelation meta = [].
Proof.
  unfold metaHasRelation, getFieldsWithRelation.
  induction (meta_fields meta) as [|f l IH]; simpl; [done|].
  destruct (hasRelation f); simpl; [done|exact IH].
Qed.

(** C5, amended.  When [doRemove] returns, the buffer differs from the
    buffer it was entered with exactly by a delete intent for every entity
    that a relation field whose cascade is remove or all enqueues, be the
    field on the owning or on the mapped side: for a many-relation each
    related entity with a non-zero identifier, for a one-relation the
    related entity when it is not nil and its identifier is not zero;
    fields with another cascade enqueue nothing. *)
Theorem doRemove_cascade (drv : Driver) (d : document) (m m' : manager)
    (r : option error) (metadata : metadata) :
  registered m d = Some metadata ->
  doRemove drv d m = (Ok r, m') ->
  forall x : document,
    ((exists f q, f ∈ getFieldsWithRelation metadata /\ x = Some q /\
                  enqueuesDelete (metas m) (heap m) (fieldsOf (heap m) d) f q) ->
       tasks m' !! x = Some Task.del) /\
    (~ (exists f q, f ∈ getFieldsWithRelation metadata /\ x = Some q /\
                    enqueuesDelete (metas m) (heap m) (fieldsOf (heap m) d) f q) ->
       tasks m' !! x = tasks m !! x).
Proof.
  intros Hreg H x. unfold doRemove in H. rewrite Hreg in H.
  destruct (structToMap (metas m) (heap m) d) as [Map| |]; try done.
  assert (Hloop : exists t', removeFields (metas m) (heap m) (fieldsOf (heap m) d)
                     (getFieldsWithRelation metadata) (tasks m) = (Ok tt, t') /\ tasks m' = t').
  { destruct (metaHasRelation metadata) eqn:Hrel.
    - destruct (removeFields _ _ _ _ _) as [[[]| |] t']; try done.
      exists t'. split; [done|].
      simpl in H. destruct (drvRemoveId _ _ _ _); [by inversion H|].
      destruct (setIDForValue _ _ _ _) as [[e h']| |]; try done. by inversion H.
    - rewrite (getFieldsWithRelation_none _ Hrel). exists (tasks m). split; [done|].
      simpl in H. destruct (drvRemoveId _ _ _ _); [by inversion H|].
      destruct (setIDForValue _ _ _ _) as [[e h']| |]; try done. by inversion H. }
  destruct Hloop as (t' & Ht' & ->).
  exact (removeFields_spec _ _ _ _ _ _ Ht' x).
Qed.

Lemma doRemove_cascade_witness :
  tasks (snd (doRemove emptyDatabase (Some 1%positive) shopManager)) !! Some 2%positive
  = Some Task.del.
Proof.
  refine (proj1 (doRemove_cascade emptyDatabase (Some 1%positive) shopManager
                   (snd (doRemove emptyDatabase (Some 1%positive) shopManager)) None
                   (default zeroMetadata (registered shopManager (Some 1%positive)))
                   eq_refl _ (Some 2%positive)) _).
  - by vm_compute.
  - eexists _, 2%positive. split; [|split; [reflexivity|]].
    + apply list_elem_of_In. vm_compute. left. reflexivity.
    + split; [reflexivity|].
      eexists _, _, _. split; [by vm_compute|]. split; [by vm_compute|]. split.
      * eexists _, _. split; [by vm_compute|]. split; [by vm_compute|]. reflexivity.
      * left. split; [reflexivity|]. eexists. split; [by vm_compute|].
        apply list_elem_of_In. left. reflexivity.
Defined.

(** C5, as stated, fails: the [Items] relation of an owner is the mapped
    side of [Item.Owner] and has [cascade=remove]; [doRemove] of the owner
    enqueues a delete intent for its item. *)
Lemma doRemove_mapped_relation_enqueues :
  (registered shopManager (Some 1%positive) ≫= fun meta =>
     rel_mapped <$> (fld_relation <$> findField meta "Items")) = Some mappedBy /\
  tasks shopManager = ∅ /\
  fst (doRemove emptyDatabase (Some 1%positive) shopManager) = Ok None /\
  tasks (snd (doRemove emptyDatabase (Some 1%positive) shopManager)) !! Some 2%positive
  = Some Task.del.
Proof. repeat split; by vm_compute. Qed.

(** ** The driver's NotFound (claim C6) *)

Lemma tolerant_idemp {A} (r : error + list A) : tolerant (tolerant r) = tolerant r.
Proof. by destruct r as [[]|]. Qed.

Lemma findSelect_quiet drv c q s {B} (k k' : error + list bsonM -> M B) m :
  (forall r m', k (tolerant r) m' = k' (tolerant r) m') ->
  (forall r m', k r m' = k (tolerant r) m') ->
  (forall r m', k' r m' = k' (tolerant r) m') ->
  (findSelect drv c q s ≫= k) m = (findSelect (quiet drv) c q s ≫= k') m.
Proof.
  intros H1 H2 H3. unfold mbind, M_bind, findSelect. simpl.
  rewrite H2, H1. done.
Qed.

Lemma findAll_quiet drv c q {B} (k k' : error + list (gmap string value) -> M B) m :
  (forall r m', k (tolerant r) m' = k' (tolerant r) m') ->
  (forall r m', k r m' = k (tolerant r) m') ->
  (forall r m', k' r m' = k' (tolerant r) m') ->
  (findAll drv c q ≫= k) m = (findAll (quiet drv) c q ≫= k') m.
Proof.
  intros H1 H2 H3. unfold mbind, M_bind, findAll. simpl.
  rewrite H2, H1. done.
Qed.

Section Tolerance.

Variable drv : Driver.
Variable rec : documents -> fetchedTable -> M (option error * fetchedTable).

Lemma resolveManyMapped_quiet sources documentIds f fetched m :
  resolveManyMapped drv rec sources documentIds f fetched m
  = resolveManyMapped (quiet drv) rec sources documentIds f fetched m.
Proof.
  unfold resolveManyMapped. apply bind_ext. intros m0 m1.
  destruct (findMetadataByCollectionName _ _) as [relatedMetadata [relatedType|]]; [|done].
  destruct (findField _ _) as [relatedField|]; [|done].
  apply findSelect_quiet; try (intros; by rewrite tolerant_idemp).
  intros r m2. rewrite tolerant_idemp. destruct (tolerant r) as [err|relatedDocs]; [done|].
  apply bind_ext. intros bySource m3. apply bind_ext. intros ids m4.
  apply findAll_quiet; try (intros; by rewrite tolerant_idemp).
Qed.

Lemma resolveOneOwning_quiet meta sources documentIds f fetched m :
  resolveOneOwning drv rec meta sources documentIds f fetched m
  = resolveOneOwning (quiet drv) rec meta sources documentIds f fetched m.
Proof.
  unfold resolveOneOwning.
  apply findSelect_quiet; try (intros; by rewrite tolerant_idemp).
  intros r m2. rewrite tolerant_idemp. destruct (tolerant r) as [err|results]; [done|].
  apply bind_ext. intros keyed m3. apply bind_ext. intros [] m4. apply bind_ext. intros ids m5.
  destruct (List.filter _ _); [done|].
  apply bind_ext. intros m6 m7.
  destruct (findMetadataByCollectionName _ _) as [relatedMeta [relatedType|]]; [|done].
  apply findAll_quiet; try (intros; by rewrite tolerant_idemp).
Qed.

Lemma resolveField_quiet top selectedFields meta sources documentIds f fetched m :
  toleratesNotFound f = true ->
  resolveField drv rec top selectedFields meta sources documentIds f fetched m
  = resolveField (quiet drv) rec top selectedFields meta sources documentIds f fetched m.
Proof.
  unfold toleratesNotFound, resolveField. intros H.
  destruct (_ && _); [done|]. destruct (_ && _); [done|].
  destruct (rel_relation (fld_relation f)), (rel_mapped (fld_relation f)); try done;
    first [apply resolveManyMapped_quiet | apply resolveOneOwning_quiet].
Qed.

Lemma resolveOneMapped_quietFetch sources documentIds f fetched m :
  resolveOneMapped drv rec sources documentIds f fetched m
  = resolveOneMapped (quietFetch drv) rec sources documentIds f fetched m.
Proof.
  unfold resolveOneMapped. apply bind_ext. intros m0 m1.
  destruct (findMetadataByCollectionName _ _) as [relatedMeta [relatedType|]]; [|done].
  destruct (findField _ _) as [relatedField|]; [|done].
  apply (bind_ext _ _ (findSelect drv _ _ _)). intros r m2.
  destruct (strict r) as [err|relatedDocumentMaps]; [done|].
  apply bind_ext. intros [byDocumentID relatedDocumentIds] m3.
  apply (findAll_quiet drv); try (intros; by rewrite tolerant_idemp).
Qed.

End Tolerance.

Lemma FindID_NotFound drv fuel documentID p o meta m :
  heap m !! p = Some o ->
  metasLookup (metas m) (TPtr (obj_type o)) = Some meta ->
  drvFindId drv (trace m) (meta_targetDocument meta) documentID = inl ErrNotFound ->
  fst (FindID drv fuel documentID p m) = Ok (Some ErrNotFound).
Proof.
  intros Hp Hm Hd. unfold FindID, mbind, M_bind, getManager, modify. simpl.
  by rewrite Hp, Hm, Hd.
Qed.

Lemma doRemove_NotFound drv d m :
  (forall h c i, drvRemoveId drv h c i = Some ErrNotFound) ->
  match fst (doRemove drv d m) with
  | Ok (Some e) => e = ErrNotFound \/ registered m d = None
  | Panic _ => True
  | _ => False
  end.
Proof.
  intros H. unfold doRemove.
  destruct (registered m d) as [metadata|]; [|simpl; auto].
  destruct (structToMap _ _ _) as [Map| |] eqn:E1; [|done|by apply structToMap_returns in E1].
  assert (E2 : fst (if metaHasRelation metadata
                     then removeFields (metas m) (heap m) (fieldsOf (heap m) d)
                            (getFieldsWithRelation metadata) (tasks m)
                     else (Ok tt, tasks m)) <> Timeout).
  { destruct (metaHasRelation metadata); [apply removeFields_returns|done]. }
  destruct (if metaHasRelation metadata then _ else _) as [[[]| |] t']; [|done|done].
  cbv zeta. rewrite H. simpl. auto.
Qed.

Lemma flushTurn_delete pick drv m d :
  tasks m = {[ d := Task.del ]} -> flushTurn pick drv m = doRemove drv d (setTasks m ∅).
Proof.
  intros H. unfold flushTurn. rewrite getManager_bind, H, pop_singleton. reflexivity.
Qed.

Lemma Flush_delete_NotFound pick drv fuel m p m1 :
  tasks m = ∅ ->
  is_Some (registered m (Some p)) ->
  Persist (ArgDocument (Some p)) m = (Ok tt, m1) ->
  (forall h c i, drvRemoveId drv h c i = Some ErrNotFound) ->
  match fst (Flush pick drv (S fuel) (snd (Remove (ArgDocument (Some p)) m1))) with
  | Ok (Some e) => e = ErrNotFound
  | Panic _ => True
  | _ => False
  end.
Proof.
  intros Ht [meta Hreg] HP Hdrv.
  destruct (Persist_tasks _ _ _ HP) as [t Ht1].
  assert (Ht2 : tasks (snd (Remove (ArgDocument (Some p)) m1)) = {[ Some p := Task.del ]}).
  { simpl. rewrite Ht1, Ht, insert_insert_eq. apply insert_empty. }
  rewrite Flush_unfold, Ht2, map_size_singleton. simpl Nat.eqb. cbv iota.
  rewrite (flushTurn_delete _ _ _ _ Ht2).
  pose proof (doRemove_NotFound drv (Some p) (setTasks (snd (Remove (ArgDocument (Some p)) m1)) ∅) Hdrv) as H.
  assert (Hr : registered (setTasks (snd (Remove (ArgDocument (Some p)) m1)) ∅) (Some p) = Some meta).
  { rewrite <- Hreg, <- (Persist_registered _ _ _ HP). reflexivity. }
  destruct (doRemove drv (Some p) _) as [[[e|]| |] m3]; simpl in *; try done.
  destruct H as [H|H]; [done|]. by rewrite Hr in H.
Qed.

(** C6, amended.  For a relation field of kind referenceMany/mappedBy or
    of the owning side of referenceOne, the resolver does with a driver
    that answers NotFound to a query exactly what it does with the driver
    that answers the empty result set there, and so it does for the fetch
    of the related documents of referenceOne/mappedBy; the primary-key
    lookup of [FindID] returns NotFound as its error; and in the scenario
    [Persist(e); Remove(e); Flush()] from an empty buffer, with a driver
    that answers NotFound to the delete, [Flush] stops at its first turn
    and what it returns is NotFound (unless the reflection code panics
    before the driver is reached): NotFound is not tolerated there. *)
Theorem NotFound_handling (drv : Driver)
    (rec : documents -> fetchedTable -> M (option error * fetchedTable)) :
  (forall top selectedFields meta sources documentIds f fetched m,
     toleratesNotFound f = true ->
     resolveField drv rec top selectedFields meta sources documentIds f fetched m
     = resolveField (quiet drv) rec top selectedFields meta sources documentIds f fetched m) /\
  (forall sources documentIds f fetched m,
     resolveOneMapped drv rec sources documentIds f fetched m
     = resolveOneMapped (quietFetch drv) rec sources documentIds f fetched m) /\
  (forall fuel documentID p o meta m,
     heap m !! p = Some o ->
     metasLookup (metas m) (TPtr (obj_type o)) = Some meta ->
     drvFindId drv (trace m) (meta_targetDocument meta) documentID = inl ErrNotFound ->
     fst (FindID drv fuel documentID p m) = Ok (Some ErrNotFound)) /\
  (forall pick fuel m p m1,
     tasks m = ∅ ->
     is_Some (registered m (Some p)) ->
     Persist (ArgDocument (Some p)) m = (Ok tt, m1) ->
     (forall h c i, drvRemoveId drv h c i = Some ErrNotFound) ->
     match fst (Flush pick drv (S fuel) (snd (Remove (ArgDocument (Some p)) m1))) with
     | Ok (Some e) => e = ErrNotFound
     | Panic _ => True
     | _ => False
     end).
Proof.
  split; [|split; [|split]].
  - intros. by apply resolveField_quiet.
  - intros. apply resolveOneMapped_quietFetch.
  - intros. by eapply FindID_NotFound.
  - intros pick fuel m p m1 Ht Hreg HP Hdrv. by apply (Flush_delete_NotFound pick drv fuel m p m1).
Qed.

Lemma NotFound_handling_witness :
  (let rec : documents -> fetchedTable -> M (option error * fetchedTable) :=
     fun _ fetched => mret (None, fetched) in
   let meta := default zeroMetadata (metasLookup (metas usersManager) (TPtr User)) in
   let f := default (newField {| sf_Name := ""; sf_bson := ""; sf_odm := "" |})
                    (findField meta "Friends") in
   resolveField notFoundDriver rec true [] meta {[ storedId := 1%positive ]} [storedId] f ∅
     loneUser
   = resolveField (quiet notFoundDriver) rec true [] meta {[ storedId := 1%positive ]}
       [storedId] f ∅ loneUser) /\
  fst (FindID notFoundDriver 0 (VId storedId) 1%positive membersManager)
    = Ok (Some ErrNotFound) /\
  match fst (Flush first notFoundDriver 1
               (snd (Remove (ArgDocument (Some 1%positive))
                       (snd (Persist (ArgDocument (Some 1%positive)) membersManager))))) with
  | Ok (Some e) => e = ErrNotFound
  | Panic _ => True
  | _ => False
  end.
Proof.
  destruct (NotFound_handling notFoundDriver (fun _ fetched => mret (None, fetched)))
    as (HT & _ & HF & HD).
  split; [|split].
  - apply HT. by vm_compute.
  - apply (HF 0 (VId storedId) 1%positive aMember
             (default zeroMetadata (metasLookup (metas membersManager) (TPtr Member)))
             membersManager); by vm_compute.
  - apply (HD first 0 membersManager 1%positive
             (snd (Persist (ArgDocument (Some 1%positive)) membersManager))).
    + by vm_compute.
    + eexists. by vm_compute.
    + by vm_compute.
    + done.
Defined.

(** C6, as stated, fails: a member that was never stored is scheduled by
    [Persist] then [Remove]; the driver answers NotFound to the one delete,
    and [Flush] returns NotFound instead of tolerating it. *)
Lemma delete_wins_NotFound_is_returned :
  tasks membersManager = ∅ /\
  fst (Persist (ArgDocument (Some 1%positive)) membersManager) = Ok tt /\
  (let m := snd (Remove (ArgDocument (Some 1%positive)) (snd (Persist (ArgDocument (Some 1%positive)) membersManager))) in
   Flush first notFoundDriver 1 m
   = (Ok (Some ErrNotFound),
      logCall (setTasks m ∅) (CallRemoveId "members" (Some (VId (NewObjectId 0)))))).
Proof. repeat split; by vm_compute. Qed.

(** ** Rejected annotations (claim C7) *)

Lemma relationParameters_unknown params : forall R mf,
  existsb (fun p => negb (knownRelationKey (ToLower (tag.Key p)))) params = true ->
  relationParameters params R mf = None.
Proof.
  induction params as [|p rest IH]; intros R mf H; simpl in H; [done|].
  simpl. apply orb_true_iff in H as [H|H].
  - unfold relationParameter. unfold knownRelationKey in H.
    apply negb_true_iff in H. repeat (apply orb_false_iff in H as [H ?]).
    by repeat match goal with E : String.eqb _ _ = false |- _ => rewrite E; clear E end.
  - destruct (relationParameter p R) as [R'|]; [by apply IH|done].
Qed.

Lemma applyDefinition_unrecognized name d st :
  unrecognized d = true -> applyDefinition name d st = None.
Proof.
  unfold unrecognized, applyDefinition. destruct st as [idf mf]. intros H.
  apply orb_true_iff in H as [H|H].
  - unfold knownName in H. apply negb_true_iff in H.
    repeat (apply orb_false_iff in H as [H ?]).
    by repeat match goal with E : String.eqb _ _ = false |- _ => rewrite E; clear E end.
  - apply andb_true_iff in H as [Hn Hp]. unfold relationName in Hn.
    destruct (String.eqb (ToLower (tag.Name d)) "referencemany") eqn:E1.
    + apply String.eqb_eq in E1. rewrite E1. simpl.
      by rewrite relationParameters_unknown.
    + simpl in Hn. apply String.eqb_eq in Hn. rewrite Hn. simpl.
      by rewrite relationParameters_unknown.
Qed.

Lemma applyDefinitions_unrecognized name ds : forall st,
  existsb unrecognized ds = true -> applyDefinitions name ds st = None.
Proof.
  induction ds as [|d rest IH]; intros st H; simpl in H; [done|].
  simpl. apply orb_true_iff in H as [H|H].
  - by rewrite applyDefinition_unrecognized.
  - destruct (applyDefinition name d st); [by apply IH|done].
Qed.

Section Rejection.

Variable Parse : string -> error + list tag.Def.

Lemma compileField_unrecognized decl F meta ds :
  ignoredField F = false ->
  Parse (sf_odm F) = inr ds ->
  existsb unrecognized ds = true ->
  compileField Parse decl F meta = inl ErrInvalidAnnotation.
Proof.
  unfold ignoredField, compileField. intros Hig Hp Hbad.
  apply orb_false_iff in Hig as [-> ->]. rewrite Hp.
  by rewrite applyDefinitions_unrecognized.
Qed.

Lemma compileField_tokenized decl F meta :
  (ignoredField F = true \/ exists ds, Parse (sf_odm F) = inr ds) ->
  (exists meta', compileField Parse decl F meta = inr meta') \/
  compileField Parse decl F meta = inl ErrInvalidAnnotation.
Proof.
  unfold ignoredField, compileField. intros H.
  destruct (String.eqb (bsonKey F) "-") eqn:E1; [left; eauto|].
  destruct (String.eqb (sf_odm F) "-") eqn:E2; [left; eauto|].
  destruct H as [H|[ds H]]; [done|]. rewrite H.
  destruct (applyDefinitions _ _ _) as [[idf mf]|]; [left; eauto|by right].
Qed.

Lemma compileFields_unrecognized decl pre F post ds : forall meta,
  (forall G, G ∈ pre -> ignoredField G = true \/ exists ds, Parse (sf_odm G) = inr ds) ->
  ignoredField F = false ->
  Parse (sf_odm F) = inr ds ->
  existsb unrecognized ds = true ->
  compileFields Parse decl (pre ++ F :: post) meta = inl ErrInvalidAnnotation.
Proof.
  induction pre as [|G pre IH]; intros meta Hpre Hig Hp Hbad; simpl.
  - by rewrite (compileField_unrecognized _ _ _ ds).
  - destruct (compileField_tokenized decl G meta) as [[meta' ->]| ->]; [apply Hpre; left| |done].
    apply IH; try done. intros G' HG'. apply Hpre. by right.
Qed.

(** C7, amended.  [Register] fails with InvalidAnnotation whenever a
    field that is not ignored (neither its [bson] key nor its ODM tag is
    the dash) has an ODM tag whose definitions hold one with an
    unrecognized name or a relation definition with an unrecognized
    parameter key, provided the tokenizer fails on no earlier field that
    is not ignored; and whenever [Register] returns an error the document
    manager, its registry included, is the one it was given. *)
Theorem Register_rejects_unrecognized (targetDocument name : string)
    (pre post : list StructField) (F : StructField) (ds : list tag.Def) (m : manager) :
  (forall G, G ∈ pre -> ignoredField G = true \/ exists ds, Parse (sf_odm G) = inr ds) ->
  ignoredField F = false ->
  Parse (sf_odm F) = inr ds ->
  existsb unrecognized ds = true ->
  Register Parse targetDocument (TPtr (TStruct name (pre ++ F :: post))) m
    = (Some ErrInvalidAnnotation, m) /\
  forall T err m', Register Parse targetDocument T m = (Some err, m') -> m' = m.
Proof.
  intros Hpre Hig Hp Hbad. split.
  - unfold Register, getTypeMetadatas.
    by rewrite (compileFields_unrecognized _ _ _ _ ds).
  - intros T err m' H. unfold Register in H.
    destruct T as [| [] | |]; try (by inversion H).
    destruct (getTypeMetadatas Parse decl); by inversion H.
Qed.

End Rejection.

Lemma Register_rejects_unrecognized_witness :
  Register tag.Parse "links" (TPtr (TStruct "Link" linkDecl)) NewDocumentManager
  = (Some ErrInvalidAnnotation, NewDocumentManager).
Proof.
  refine (proj1 (Register_rejects_unrecognized tag.Parse "links" "Link"
                   [ {| sf_Name := "ID"; sf_bson := "_id"; sf_odm := "" |} ] [] linkField
                   [ {| tag.Name := "referenceOne";
                        tag.Parameters := [ {| tag.Key := "unknownParam"; tag.Value := "x" |} ] |} ]
                   NewDocumentManager _ _ _ _)).
  - intros G HG. apply list_elem_of_singleton in HG. subst G.
    right. eexists. by vm_compute.
  - by vm_compute.
  - by vm_compute.
  - by vm_compute.
Defined.

(** C7, as stated, fails: the ODM tag of the field [Secret] holds the
    definition [bogus], whose name is not recognized, but the [bson] key
    of the field is the dash, so the tag is never tokenized and the type
    is registered. *)
Lemma Register_accepts_ignored_field :
  tag.Parse "bogus()" = inr [ {| tag.Name := "bogus"; tag.Parameters := [] |} ] /\
  unrecognized {| tag.Name := "bogus"; tag.Parameters := [] |} = true /\
  fst (Register tag.Parse "vaults" (TPtr Vault) NewDocumentManager) = None /\
  is_Some (metasLookup (metas (snd (Register tag.Parse "vaults" (TPtr Vault) NewDocumentManager)))
                       (TPtr Vault)).
Proof. repeat split; try by vm_compute. eexists. by vm_compute. Qed.

(** ** Projection (claim C8) *)

Lemma projectField_cases idField fs f acc v :
  fs !! fld_name f = Some v ->
  projectField idField fs f acc =
    Ok (if projectable f && (negb (isZero v) || negb (fld_omitempty f))
        then <[storedKey idField f := v]> acc else acc).
Proof.
  intros Hv. unfold projectField, projectable, storedKey. rewrite Hv.
  destruct (fld_ignore f); [reflexivity|].
  destruct (fld_omitempty f), (isZero v); simpl;
    destruct (hasRelation f); simpl; try reflexivity;
    destruct (String.eqb (fld_name f) idField); reflexivity.
Qed.

Lemma projectFields_spec idField fs fields :
  (forall f, f ∈ fields -> is_Some (fs !! fld_name f)) ->
  NoDup (List.map (storedKey idField) (List.filter projectable fields)) ->
  forall acc,
    (forall f, f ∈ fields -> projectable f = true -> acc !! storedKey idField f = None) ->
    exists r, projectFields idField fs fields acc = Ok r /\
      forall k v, r !! k = Some v <->
        (acc !! k = Some v \/
         exists f, f ∈ fields /\ projectable f = true /\ storedKey idField f = k /\
                   fs !! fld_name f = Some v /\ kept f v).
Proof.
  induction fields as [|f rest IH]; intros Hfs Hnd acc Hacc.
  - exists acc. split; [reflexivity|]. intros k v. split; [auto|].
    intros [H|(f & Hf & _)]; [done|]. by apply elem_of_nil in Hf.
  - destruct (Hfs f) as [v Hv]; [left|].
    simpl. rewrite (projectField_cases _ _ _ _ _ Hv).
    set (acc' := if projectable f && (negb (isZero v) || negb (fld_omitempty f))
                 then <[storedKey idField f := v]> acc else acc).
    assert (Hnd' : NoDup (List.map (storedKey idField) (List.filter projectable rest))).
    { simpl in Hnd. destruct (projectable f); [by inversion Hnd|done]. }
    assert (Hacc' : forall g, g ∈ rest -> projectable g = true -> acc' !! storedKey idField g = None).
    { intros g Hg Hpg. unfold acc'.
      destruct (projectable f) eqn:Hpf; simpl; [|apply Hacc; [by right|done]].
      destruct (negb (isZero v) || negb (fld_omitempty f)); [|apply Hacc; [by right|done]].
      rewrite lookup_insert_ne; [apply Hacc; [by right|done]|].
      simpl in Hnd. rewrite Hpf in Hnd. inversion Hnd as [|? ? Hnotin _]; subst.
      intros Heq. apply Hnotin. rewrite Heq.
      apply list_elem_of_In, in_map, filter_In. split; [by apply list_elem_of_In|done]. }
    destruct (IH (fun g Hg => Hfs g (list_elem_of_further _ _ _ Hg)) Hnd' acc' Hacc') as (r & Hr & Hspec).
    exists r. split; [exact Hr|]. intros k w. rewrite Hspec. clear Hspec Hr IH.
    split.
    + intros [Hk|(g & Hg & Hpg & Hkey & Hgv & Hkept)].
      * unfold acc' in Hk.
        destruct (projectable f) eqn:Hpf; simpl in Hk; [|by left].
        destruct (negb (isZero v) || negb (fld_omitempty f)) eqn:Hkeep; [|by left].
        destruct (decide (storedKey idField f = k)) as [<-|Hne].
        -- rewrite lookup_insert_eq in Hk. inversion Hk; subst w.
           right. exists f. split; [left|]. repeat split; try done.
           unfold kept. apply orb_true_iff in Hkeep as [H|H]; apply negb_true_iff in H; auto.
        -- rewrite lookup_insert_ne in Hk by done. by left.
      * right. exists g. split; [by right|done].
    + intros [Hk|(g & Hg & Hpg & Hkey & Hgv & Hkept)].
      * left. unfold acc'.
        destruct (projectable f) eqn:Hpf; simpl; [|done].
        destruct (negb (isZero v) || negb (fld_omitempty f)); [|done].
        rewrite lookup_insert_ne; [done|].
        intros Heq. rewrite <- Heq, (Hacc f) in Hk; [done|left|done].
      * apply elem_of_cons in Hg as [->|Hg]; [|right; exists g; done].
        left. unfold acc'. rewrite Hpg. simpl.
        rewrite Hv in Hgv. inversion Hgv; subst w.
        assert (negb (isZero v) || negb (fld_omitempty f) = true) as ->.
        { destruct Hkept as [-> | ->]; simpl; [done|by rewrite orb_true_r]. }
        subst k. apply lookup_insert_eq.
Qed.

(** C8, amended.  For an entity that holds every field of its registered
    metadata, where the keys written by the fields that are neither
    ignored nor relation-bearing are pairwise distinct, [structToMap]
    returns a record in which such a field has its entry, under [_id] for
    the identifier field and under its stored key otherwise, exactly when
    its value is not zero or it does not omit empty values (so a zero
    identifier that omits empty values is not written); and every entry
    of the record comes from such a field: relation-bearing and ignored
    fields contribute none. *)
Theorem structToMap_projection (metas : metadatas) (h : gmap ptr object) (p : ptr)
    (o : object) (meta : metadata) :
  h !! p = Some o ->
  metasLookup metas (TPtr (obj_type o)) = Some meta ->
  (forall f, f ∈ meta_fields meta -> is_Some (obj_fields o !! fld_name f)) ->
  NoDup (List.map (storedKey (meta_idField meta)) (List.filter projectable (meta_fields meta))) ->
  exists record,
    structToMap metas h (Some p) = Ok record /\
    (forall f v, f ∈ meta_fields meta -> projectable f = true ->
       obj_fields o !! fld_name f = Some v ->
       (record !! storedKey (meta_idField meta) f = Some v <-> kept f v)) /\
    (forall k v, record !! k = Some v ->
       exists f, f ∈ meta_fields meta /\ projectable f = true /\
                 storedKey (meta_idField meta) f = k /\
                 obj_fields o !! fld_name f = Some v /\ kept f v).
Proof.
  intros Hp Hmeta Hfs Hnd.
  destruct (projectFields_spec (meta_idField meta) (obj_fields o) (meta_fields meta) Hfs Hnd ∅)
    as (r & Hr & Hspec); [intros; apply lookup_empty|].
  exists r. split; [|split].
  - unfold structToMap. by rewrite Hp, Hmeta.
  - intros f v Hf Hpf Hv. rewrite Hspec. split.
    + intros [H|(g & Hg & Hpg & Hkey & Hgv & Hkept)]; [by rewrite lookup_empty in H|].
      assert (g = f) as ->; [|done].
      apply (NoDup_map_inj (storedKey (meta_idField meta)) _ _ _ Hnd); [| |done];
        apply list_elem_of_In, filter_In; split; try done; by apply list_elem_of_In.
    + intros Hkept. right. exists f. done.
  - intros k v Hk. apply Hspec in Hk as [H|H]; [by rewrite lookup_empty in H|done].
Qed.

Lemma structToMap_projection_witness :
  exists record,
    structToMap (metas accountsManager) (heap accountsManager) (Some 1%positive) = Ok record /\
    record !! "_id" = Some (VId storedId) /\ record !! "name" = Some (VScalar (SStr "ann")).
Proof.
  destruct (structToMap_projection (metas accountsManager) (heap accountsManager) 1%positive
              anAccount
              (default zeroMetadata (registered accountsManager (Some 1%positive))))
    as (record & Hr & Hfields & _).
  - by vm_compute.
  - by vm_compute.
  - intros f Hf. apply list_elem_of_In in Hf. vm_compute in Hf.
    destruct Hf as [<-|[<-|[]]]; eexists; by vm_compute.
  - apply (bool_decide_unpack _). by vm_compute.
  - exists record. split; [exact Hr|]. split.
    + refine (proj2 (Hfields {| fld_composite := false; fld_index := false; fld_unique := false;
                                fld_key := "id"; fld_name := "ID"; fld_omitempty := false;
                                fld_relation := zeroRelation; fld_ignore := false |}
                             (VId storedId) _ _ _) _).
      * apply list_elem_of_In. vm_compute. left. reflexivity.
      * by vm_compute.
      * by vm_compute.
      * left. by vm_compute.
    + refine (proj2 (Hfields {| fld_composite := false; fld_index := false; fld_unique := false;
                                fld_key := "name"; fld_name := "Name"; fld_omitempty := false;
                                fld_relation := zeroRelation; fld_ignore := false |}
                             (VScalar (SStr "ann")) _ _ _) _).
      * apply list_elem_of_In. vm_compute. right. left. reflexivity.
      * by vm_compute.
      * by vm_compute.
      * left. by vm_compute.
Defined.

(** C8, as stated, fails: the identifier field of a member has the
    [bson] tag [_id,omitempty]; while its identifier is zero the projected
    record has no entry under [_id]. *)
Lemma structToMap_omits_zero_identifier :
  (meta_idField <$> registered membersManager (Some 1%positive)) = Some "ID" /\
  structToMap (metas membersManager) (heap membersManager) (Some 1%positive)
    = Ok {[ "name" := VScalar (SStr "ann") ]} /\
  ({[ "name" := VScalar (SStr "ann") ]} : gmap string value) !! "_id" = None.
Proof. repeat split; by vm_compute. Qed.

(** ** Identifier lookup by stored key (claim C9) *)

Lemma relationParameters_key params : forall R mf mf',
  relationParameters params R mf = Some mf' -> fld_key mf' = fld_key mf.
Proof.
  induction params as [|p rest IH]; intros R mf mf' H; simpl in H.
  - by inversion H.
  - destruct (relationParameter p R) as [R'|]; [|done]. by rewrite (IH _ _ _ H).
Qed.

Lemma indexParameters_key params : forall mf, fld_key (indexParameters params mf) = fld_key mf.
Proof.
  unfold indexParameters. induction params as [|p rest IH]; intros mf; simpl; [done|].
  rewrite IH. by destruct (String.eqb _ _).
Qed.

Lemma applyDefinition_key name d idf mf idf' mf' :
  applyDefinition name d (idf, mf) = Some (idf', mf') ->
  fld_key mf <> "_id" -> fld_key mf' <> "_id".
Proof.
  unfold applyDefinition. intros H Hk.
  repeat match type of H with
  | (if ?c then _ else _) = _ => destruct c
  end; try (inversion H; subst; done).
  - inversion H; subst. by rewrite indexParameters_key.
  - destruct (relationParameters _ _ _) as [mf1|] eqn:E; [|done].
    inversion H; subst. rewrite (relationParameters_key _ _ _ _ E). simpl. discriminate.
  - destruct (relationParameters _ _ _) as [mf1|] eqn:E; [|done].
    inversion H; subst. rewrite (relationParameters_key _ _ _ _ E). simpl. discriminate.
Qed.

Lemma applyDefinitions_key name ds : forall idf mf idf' mf',
  applyDefinitions name ds (idf, mf) = Some (idf', mf') ->
  fld_key mf <> "_id" -> fld_key mf' <> "_id".
Proof.
  induction ds as [|d rest IH]; intros idf mf idf' mf' H Hk; cbn [applyDefinitions] in H.
  - by inversion H; subst.
  - destruct (applyDefinition name d (idf, mf)) as [[idf1 mf1]|] eqn:E; [|done].
    eapply IH; [exact H|]. eapply applyDefinition_key; eauto.
Qed.

Lemma TrimSpace_id p0 : TrimSpace p0 <> "_id" -> p0 <> "_id".
Proof. intros H ->. by apply H. Qed.

Lemma resolveKeyForField_key decl name :
  noStoredIdKey decl -> resolveKeyForField decl name <> "_id".
Proof.
  intros Hdecl. unfold resolveKeyForField, structFieldByName.
  destruct (List.find _ decl) as [F|] eqn:Hfind; [|done].
  apply find_some in Hfind as [HF _]. apply list_elem_of_In in HF.
  destruct (Hdecl F HF) as [Hb Hn]. unfold bsonKey in Hb.
  destruct (Split (sf_bson F) comma) as [|p0 ps]; [done|].
  destruct (negb (String.eqb p0 "") && negb (String.eqb p0 "-")); [|done].
  by apply TrimSpace_id.
Qed.

Section IdLookup.

Variable Parse : string -> error + list tag.Def.

Lemma compileField_keys decl F meta meta' :
  noStoredIdKey decl -> F ∈ decl ->
  compileField Parse decl F meta = inr meta' ->
  (forall f, f ∈ meta_fields meta -> fld_key f <> "_id") ->
  (forall f, f ∈ meta_fields meta' -> fld_key f <> "_id").
Proof.
  intros Hdecl HF H Hm. destruct (Hdecl F HF) as [Hb Hn].
  unfold compileField in H.
  assert (String.eqb (bsonKey F) "_id" = false) as E by by apply String.eqb_neq.
  rewrite E in H.
  destruct (String.eqb (bsonKey F) "-"); [by inversion H; subst|].
  destruct (String.eqb (sf_odm F) "-"); [by inversion H; subst|].
  destruct (Parse (sf_odm F)) as [|ds]; [done|].
  destruct (applyDefinitions _ _ _) as [[idf mf]|] eqn:Happ; [|done].
  inversion H; subst meta'. clear H. simpl.
  assert (Hmf : fld_key mf <> "_id").
  { eapply applyDefinitions_key; [exact Happ|].
    destruct (bsonOmitempty F), (String.eqb (bsonKey F) ""); simpl; done. }
  intros f Hf. apply elem_of_app in Hf as [Hf|Hf]; [by apply Hm|].
  apply list_elem_of_singleton in Hf. subst f.
  destruct (String.eqb (rel_idStorageField _) "") eqn:E1.
  - destruct (fld_index mf && hasRelation mf); done.
  - match goal with |- context [resolveKeyForField ?d ?n] =>
      pose proof (resolveKeyForField_key d n Hdecl) as Hr;
      destruct (String.eqb (resolveKeyForField d n) "") end.
    + destruct (fld_index mf && hasRelation mf); done.
    + simpl. destruct (fld_index mf && hasRelation mf); simpl in *; done.
Qed.

Lemma compileFields_keys decl Fields : forall meta meta',
  noStoredIdKey decl -> (forall F, F ∈ Fields -> F ∈ decl) ->
  compileFields Parse decl Fields meta = inr meta' ->
  (forall f, f ∈ meta_fields meta -> fld_key f <> "_id") ->
  (forall f, f ∈ meta_fields meta' -> fld_key f <> "_id").
Proof.
  induction Fields as [|F rest IH]; intros meta meta' Hdecl Hsub H Hm; simpl in H.
  - by inversion H; subst.
  - destruct (compileField Parse decl F meta) as [|meta1] eqn:E; [done|].
    eapply IH; [done| |exact H|].
    + intros G HG. apply Hsub. by right.
    + eapply compileField_keys; eauto. apply Hsub. left.
Qed.

Lemma findIDField_none meta :
  (forall f, f ∈ meta_fields meta -> fld_key f <> "_id") -> findIDField meta = None.
Proof.
  intros H. unfold findIDField.
  destruct (List.find _ _) as [f|] eqn:E; [|done].
  apply find_some in E as [Hin Hk]. apply String.eqb_eq in Hk.
  exfalso. by apply (H f); [apply list_elem_of_In|].
Qed.

Lemma getTypeMetadatas_noIdKey decl meta :
  noStoredIdKey decl -> getTypeMetadatas Parse decl = inr meta -> findIDField meta = None.
Proof.
  intros Hdecl H. apply findIDField_none.
  eapply (compileFields_keys decl decl zeroMetadata meta); eauto.
  intros f Hf. by apply elem_of_nil in Hf.
Qed.

End IdLookup.

(** C9.  The identifier lookup goes by the stored key [_id]: for a struct
    none of whose fields gets that key (no [bson] tag names it, so the
    identifier is marked by the ODM [id] annotation only), the compiled
    metadata has no identifier field for [findIDField], [getDocumentID]
    returns the zero identifier with IDFieldNotFound, and [Persist]
    treats the entity as new whatever identifier it holds: it assigns a
    generated identifier and records a create intent, and leaves the
    entity in a state where the next [Persist] does the same. *)
Theorem odm_id_only_is_always_new (Parse : string -> error + list tag.Def)
    (name targetDocument : string) (decl : list StructField) (meta : metadata)
    (m : manager) (p : ptr) (o : object) (id : ObjectId) :
  noStoredIdKey decl ->
  getTypeMetadatas Parse decl = inr meta ->
  metasLookup (metas m) (TPtr (TStruct name decl))
    = Some (setTypeAndCollection meta (TPtr (TStruct name decl)) targetDocument) ->
  heap m !! p = Some o ->
  obj_type o = TStruct name decl ->
  obj_fields o !! meta_idField meta = Some (VId id) ->
  findIDField meta = None /\
  getDocumentID (metas m) (heap m) (Some p) = Ok (zeroObjectID, Some ErrIDFieldNotFound) /\
  exists m' o',
    Persist (ArgDocument (Some p)) m = (Ok tt, m') /\
    tasks m' !! Some p = Some Task.insert /\
    metas m' = metas m /\
    heap m' !! p = Some o' /\ obj_type o' = obj_type o /\
    obj_fields o' !! meta_idField meta = Some (VId (NewObjectId (nextId m))).
Proof.
  intros Hdecl Hmeta Hreg Hp Ho Hid.
  pose proof (getTypeMetadatas_noIdKey Parse decl meta Hdecl Hmeta) as Hnone.
  assert (Hget : getDocumentID (metas m) (heap m) (Some p)
                 = Ok (zeroObjectID, Some ErrIDFieldNotFound)).
  { unfold getDocumentID. rewrite Hp, Ho, Hreg. unfold findIDField in *. simpl. by rewrite Hnone. }
  split; [done|]. split; [done|].
  unfold Persist. rewrite Hget. simpl.
  unfold setIDForValue. simpl. rewrite Hp, Ho, Hreg. simpl.
  unfold setObjectIdField. rewrite Hp, Hid. simpl.
  eexists _, _. split; [reflexivity|]. simpl.
  split; [apply lookup_insert_eq|]. split; [done|].
  split; [apply lookup_insert_eq|]. split; [done|]. simpl. apply lookup_insert_eq.
Qed.

Lemma odm_id_only_is_always_new_witness :
  getDocumentID (metas accountsManager) (heap accountsManager) (Some 1%positive)
  = Ok (zeroObjectID, Some ErrIDFieldNotFound).
Proof.
  refine (proj1 (proj2 (odm_id_only_is_always_new tag.Parse "Account" "accounts" accountDecl
                          (match getTypeMetadatas tag.Parse accountDecl with
                           | inr meta => meta
                           | inl _ => zeroMetadata
                           end)
                          accountsManager 1%positive anAccount storedId _ _ _ _ _ _))).
  - intros F HF. apply list_elem_of_In in HF. vm_compute in HF.
    destruct HF as [<-|[<-|[]]]; split; by vm_compute.
  - by vm_compute.
  - by vm_compute.
  - by vm_compute.
  - reflexivity.
  - by vm_compute.
Defined.

(** ** What [Persist] and [Remove] do with their argument (claim C10) *)

(** C10, amended.  Handed the nil interface, a pointer or a slice,
    [Persist] and [Remove] contact no collection.  Handed the nil
    interface or a pointer, [Remove]
    returns without error and only records a delete intent; handed a
    slice, which Go cannot hash, it panics in the assignment to the
    buffer and records nothing.  [Persist] panics when it is handed the
    nil interface or a slice, and records nothing then; handed a pointer
    to a struct of a type that is not registered it returns without error,
    leaves the entity as it is and only records a create intent.  The
    DocumentNotRegistered error surfaces when [Flush] drains that intent,
    before any call to the driver. *)
Theorem Persist_Remove_record_intents (pick : list (document * Task.task) -> nat)
    (drv : Driver) (fuel : nat) (m : manager) (p : ptr) (o : object) :
  heap m !! p = Some o ->
  metasLookup (metas m) (TPtr (obj_type o)) = None ->
  tasks m = ∅ ->
  (forall a, trace (snd (Persist a m)) = trace m /\ trace (snd (Remove a m)) = trace m) /\
  (forall d, exists m',
     Remove (ArgDocument d) m = (Ok tt, m') /\ trace m' = trace m /\ heap m' = heap m /\
     metas m' = metas m /\ tasks m' = <[d := Task.del]> (tasks m)) /\
  (forall elem ps, Remove (ArgSlice elem ps) m = (Panic unhashable, m)) /\
  (fst (Persist (ArgDocument None) m) = Panic noTypeOnNil /\
   tasks (snd (Persist (ArgDocument None) m)) = tasks m) /\
  (forall elem ps, exists msg,
     fst (Persist (ArgSlice elem ps) m) = Panic msg /\
     tasks (snd (Persist (ArgSlice elem ps) m)) = tasks m) /\
  (exists m',
     Persist (ArgDocument (Some p)) m = (Ok tt, m') /\ trace m' = trace m /\ heap m' = heap m /\
     metas m' = metas m /\ tasks m' = <[Some p := Task.insert]> (tasks m) /\
     exists m'', Flush pick drv (S fuel) m' = (Ok (Some ErrDocumentNotRegistered), m'') /\
                 trace m'' = trace m) /\
  (exists m' m'',
     Remove (ArgDocument (Some p)) m = (Ok tt, m') /\
     Flush pick drv (S fuel) m' = (Ok (Some ErrDocumentNotRegistered), m'') /\
     trace m'' = trace m).
Proof.
  intros Hp Hreg Ht. split; [|split; [|split; [|split; [|split; [|split]]]]].
  - intros [d|elem ps]; split; try done.
    + apply Persist_trace.
    + unfold Persist. destruct (metasLookup (metas m) (TSlice elem)) as [meta|]; [|reflexivity].
      destruct (findIDField meta); reflexivity.
  - intros d. eexists. unfold Remove. repeat split; reflexivity.
  - done.
  - done.
  - intros elem ps. unfold Persist.
    destruct (metasLookup (metas m) (TSlice elem)) as [meta|]; [|eexists; split; reflexivity].
    destruct (findIDField meta); eexists; split; reflexivity.
  - unfold Persist, getDocumentID, setIDForValue. rewrite Hp, Hreg. simpl. rewrite Hp, Hreg.
    eexists. repeat split; try reflexivity.
    rewrite Ht. simpl.
    unfold flushTurn, mbind, M_bind, getManager, modify. simpl.
    rewrite insert_empty, map_size_singleton, pop_singleton. simpl.
    unfold getMetadatas, TypeOf. simpl. rewrite Hp, Hreg. simpl.
    eexists. split; reflexivity.
  - unfold Remove. eexists _, _. split; [reflexivity|].
    rewrite Ht. simpl.
    unfold flushTurn, mbind, M_bind, getManager, modify. simpl.
    rewrite insert_empty, map_size_singleton, pop_singleton. simpl.
    unfold doRemove, registered, TypeOf. simpl. rewrite Hp, Hreg.
    split; reflexivity.
Qed.

Lemma Persist_Remove_record_intents_witness :
  exists m', Persist (ArgDocument (Some 1%positive)) strangerManager = (Ok tt, m') /\
             trace m' = trace strangerManager /\ heap m' = heap strangerManager.
Proof.
  destruct (proj1 (proj2 (proj2 (proj2 (proj2 (proj2
             (Persist_Remove_record_intents first emptyDatabase 0
                strangerManager 1%positive
                {| obj_type := TStruct "Stranger" [];
                   obj_fields := {[ "ID" := VId zeroObjectID ]} |}
                eq_refl eq_refl eq_refl)))))))
    as (m' & HP & Htr & Hh & _).
  exists m'. done.
Defined.

(** C10, as stated, fails: [Persist] handed the nil interface does not
    return, reading the type of the zero reflection value panics; and
    neither [Remove] nor [Persist] returns when it is handed a slice of
    members, which cannot be a key of the buffer. *)
Lemma Persist_Remove_panic :
  fst (Persist (ArgDocument None) NewDocumentManager) = Panic noTypeOnNil /\
  fst (Remove (ArgSlice (TPtr Member) [1%positive]) membersManager) = Panic unhashable /\
  fst (Persist (ArgSlice (TPtr Member) [1%positive]) membersManager) = Panic unhashable.
Proof. repeat split; by vm_compute. Qed.

(** * Further properties of the code *)

(** ** The registry: [Register], [RegisterMany], [getMetadatas], [findMetadataByCollectionName] *)

Lemma metasLookup_store_eq metas T meta : metasLookup (metasStore metas T meta) T = Some meta.
Proof.
  induction metas as [|[T' meta'] rest IH]; simpl.
  - by rewrite decide_True.
  - destruct (decide (T' = T)) as [->|Hne]; simpl.
    + by rewrite decide_True.
    + by rewrite decide_False.
Qed.

Lemma metasLookup_store_ne metas T T' meta :
  T <> T' -> metasLookup (metasStore metas T meta) T' = metasLookup metas T'.
Proof.
  intros Hne. induction metas as [|[T0 meta0] rest IH]; simpl.
  - by rewrite decide_False.
  - destruct (decide (T0 = T)) as [->|Hne0]; simpl.
    + by rewrite !decide_False.
    + destruct (decide (T0 = T')); [done|exact IH].
Qed.

Lemma metasStore_idem metas T meta :
  metasStore (metasStore metas T meta) T meta = metasStore metas T meta.
Proof.
  induction metas as [|[T' meta'] rest IH]; simpl.
  - by rewrite decide_True.
  - destruct (decide (T' = T)) as [->|Hne]; simpl.
    + by rewrite decide_True.
    + rewrite decide_False by done. by rewrite IH.
Qed.

Lemma Register_keeps_registered Parse c T m T' :
  is_Some (metasLookup (metas m) T') ->
  is_Some (metasLookup (metas (snd (Register Parse c T m))) T').
Proof.
  unfold Register. intros H.
  destruct T as [| [name decl| | |] | |]; try done.
  destruct (getTypeMetadatas Parse decl) as [err|compiled]; [done|]. simpl.
  destruct (decide (TPtr (TStruct name decl) = T')) as [<-|Hne].
  - rewrite metasLookup_store_eq. eauto.
  - by rewrite metasLookup_store_ne.
Qed.

Lemma RegisterMany_keeps_registered Parse docs : forall m T',
  is_Some (metasLookup (metas m) T') ->
  is_Some (metasLookup (metas (snd (RegisterMany Parse docs m))) T').
Proof.
  induction docs as [|[c T] rest IH]; intros m T' H; simpl; [done|].
  pose proof (Register_keeps_registered Parse c T m T' H) as H1.
  destruct (Register Parse c T m) as [[err|] m1]; simpl in *; [done|]. by apply IH.
Qed.

Lemma Register_registers Parse c T m m' :
  Register Parse c T m = (None, m') -> is_Some (metasLookup (metas m') T).
Proof.
  unfold Register. intros H.
  destruct T as [| [name decl| | |] | |]; try (by inversion H).
  destruct (getTypeMetadatas Parse decl) as [err|compiled]; [by inversion H|].
  inversion H; subst m'. simpl. rewrite metasLookup_store_eq. eauto.
Qed.

Section RegistryProperties.

Variable Parse : string -> error + list tag.Def.

(** X1. After [Register(targetDocument, document)] has returned nil, the
    lookup of the type of [document] finds metadata that carry the
    collection name, the type and the fields and identifier field that
    [getTypeMetadatas] compiles from the struct; the lookup of every other
    type answers as before, and the buffer of intents, the entities and
    the trace of the driver are untouched. *)
Theorem Register_lookup (targetDocument : string) (T : rtype) (m m' : manager) :
  Register Parse targetDocument T m = (None, m') ->
  (exists meta, getMetadatas (metas m') (Some T) = (meta, None) /\
                meta_targetDocument meta = targetDocument /\
                meta_structType meta = Some T /\
                exists name decl compiled,
                  T = TPtr (TStruct name decl) /\
                  getTypeMetadatas Parse decl = inr compiled /\
                  meta_fields meta = meta_fields compiled /\
                  meta_idField meta = meta_idField compiled) /\
  (forall T', T' <> T -> getMetadatas (metas m') (Some T') = getMetadatas (metas m) (Some T')) /\
  tasks m' = tasks m /\ heap m' = heap m /\ trace m' = trace m.
Proof.
  unfold Register. intros H.
  destruct T as [| [name decl| | |] | |]; try (by inversion H).
  destruct (getTypeMetadatas Parse decl) as [err|compiled] eqn:Hc; [by inversion H|].
  inversion H; subst m'. clear H. simpl. split; [|split; [|done]].
  - eexists. unfold getMetadatas. rewrite metasLookup_store_eq. split; [reflexivity|].
    simpl. repeat split. eexists _, _, _. done.
  - intros T' Hne. unfold getMetadatas. by rewrite metasLookup_store_ne.
Qed.

(** X2. Registering a type a second time under the same collection name
    changes nothing: the registry holds one entry for the type. *)
Theorem Register_idempotent (targetDocument : string) (T : rtype) (m m' : manager) :
  Register Parse targetDocument T m = (None, m') ->
  Register Parse targetDocument T m' = (None, m').
Proof.
  unfold Register. intros H.
  destruct T as [| [name decl| | |] | |]; try (by inversion H).
  destruct (getTypeMetadatas Parse decl) as [err|compiled] eqn:Hc; [by inversion H|].
  inversion H; subst m'. clear H. simpl. unfold setMetas. simpl. by rewrite metasStore_idem.
Qed.

End RegistryProperties.

Lemma Register_lookup_witness :
  exists meta, getMetadatas (metas usersManager) (Some (TPtr User)) = (meta, None) /\
               meta_targetDocument meta = "users".
Proof.
  destruct (Register_lookup tag.Parse "users" (TPtr User) NewDocumentManager usersManager)
    as [(meta & H1 & H2 & _) _]; [by vm_compute|].
  exists meta. by split.
Defined.

Lemma Register_idempotent_witness :
  Register tag.Parse "users" (TPtr User) usersManager = (None, usersManager).
Proof.
  apply (Register_idempotent tag.Parse "users" (TPtr User) NewDocumentManager usersManager).
  by vm_compute.
Defined.

(** X3. [findMetadataByCollectionName] answers a registered type whose
    metadata carry the collection name; it answers the zero metadata and
    the nil type exactly when no registered type carries that name. *)
Theorem findMetadataByCollectionName_spec (metas : metadatas) (name : string) :
  match findMetadataByCollectionName metas name with
  | (meta, Some T) => (T, meta) ∈ metas /\ meta_targetDocument meta = name
  | (meta, None) =>
      meta = zeroMetadata /\
      forall T meta', (T, meta') ∈ metas -> meta_targetDocument meta' <> name
  end.
Proof.
  induction metas as [|[T meta] rest IH]; simpl.
  - split; [done|]. intros T meta' H. by apply elem_of_nil in H.
  - destruct (String.eqb (meta_targetDocument meta) name) eqn:E.
    + apply String.eqb_eq in E. split; [left|done].
    + apply String.eqb_neq in E.
      destruct (findMetadataByCollectionName rest name) as [meta0 [T0|]].
      * destruct IH as [Hin Hn]. split; [by right|done].
      * destruct IH as [-> Hn]. split; [done|].
        intros T' meta' H. apply elem_of_cons in H as [H|H]; [by inversion H; subst|by eapply Hn].
Qed.

(** X4. When [RegisterMany] returns nil, every type it was handed is
    registered. *)
Theorem RegisterMany_registers_all (Parse : string -> error + list tag.Def)
    (docs : list (string * rtype)) (m m' : manager) (c : string) (T : rtype) :
  RegisterMany Parse docs m = (None, m') ->
  (c, T) ∈ docs ->
  is_Some (metasLookup (metas m') T).
Proof.
  revert m. induction docs as [|[c0 T0] rest IH]; intros m H Hin; [by apply elem_of_nil in Hin|].
  simpl in H. destruct (Register Parse c0 T0 m) as [[err|] m1] eqn:E; [done|].
  apply elem_of_cons in Hin as [Heq|Hin]; [|by eapply IH].
  inversion Heq; subst c0 T0.
  replace m' with (snd (RegisterMany Parse rest m1)) by by rewrite H.
  apply RegisterMany_keeps_registered.
  by eapply Register_registers.
Qed.

Lemma RegisterMany_registers_all_witness :
  is_Some (metasLookup (metas (snd (RegisterMany tag.Parse clubDocuments NewDocumentManager)))
             (TPtr Account)).
Proof.
  apply (RegisterMany_registers_all tag.Parse clubDocuments NewDocumentManager
           (snd (RegisterMany tag.Parse clubDocuments NewDocumentManager)) "accounts").
  - by vm_compute.
  - apply list_elem_of_In. right. left. reflexivity.
Defined.

(** X5. [RegisterMany] stops at the first type that [Register] refuses
    and returns its error; the types visited before it stay registered,
    the failing type and those after it are not visited. *)
Theorem RegisterMany_stops_at_first_error (Parse : string -> error + list tag.Def)
    (docs : list (string * rtype)) (m m' : manager) (err : error) :
  RegisterMany Parse docs m = (Some err, m') ->
  exists pre c T post,
    docs = pre ++ (c, T) :: post /\
    RegisterMany Parse pre m = (None, m') /\
    Register Parse c T m' = (Some err, m').
Proof.
  revert m. induction docs as [|[c0 T0] rest IH]; intros m H; simpl in H; [by inversion H|].
  destruct (Register Parse c0 T0 m) as [[e|] m1] eqn:E.
  - inversion H; subst e m1. exists [], c0, T0, rest.
    assert (m' = m) as ->; [|done].
    unfold Register in E. destruct T0 as [| [] | |]; try (by inversion E).
    destruct (getTypeMetadatas Parse decl); by inversion E.
  - destruct (IH _ H) as (pre & c & T & post & -> & Hpre & Hfail).
    exists ((c0, T0) :: pre), c, T, post. split; [done|]. split; [|done].
    simpl. by rewrite E.
Qed.

Lemma RegisterMany_stops_at_first_error_witness :
  exists pre c T post,
    brokenDocuments = pre ++ (c, T) :: post /\
    RegisterMany tag.Parse pre NewDocumentManager
      = (None, snd (RegisterMany tag.Parse brokenDocuments NewDocumentManager)) /\
    Register tag.Parse c T (snd (RegisterMany tag.Parse brokenDocuments NewDocumentManager))
      = (Some ErrInvalidAnnotation, snd (RegisterMany tag.Parse brokenDocuments NewDocumentManager)).
Proof.
  apply (RegisterMany_stops_at_first_error tag.Parse brokenDocuments NewDocumentManager).
  by vm_compute.
Defined.

(** ** Metadata compilation: [getTypeMetadatas] *)

(** What the definitions of an ODM tag keep of the field they annotate. *)
Lemma relationParameters_keeps params : forall R mf mf',
  relationParameters params R mf = Some mf' ->
  fld_name mf' = fld_name mf /\ fld_ignore mf' = fld_ignore mf /\ fld_index mf' = fld_index mf.
Proof.
  induction params as [|p rest IH]; intros R mf mf' H; simpl in H.
  - by inversion H.
  - destruct (relationParameter p R) as [R'|]; [|done].
    destruct (IH _ _ _ H) as (? & ? & ?). done.
Qed.

Lemma indexParameters_keeps params : forall mf,
  fld_name (indexParameters params mf) = fld_name mf /\
  fld_ignore (indexParameters params mf) = fld_ignore mf /\
  fld_relation (indexParameters params mf) = fld_relation mf.
Proof.
  unfold indexParameters. induction params as [|p rest IH]; intros mf; simpl; [done|].
  destruct (IH (if String.eqb (ToLower (tag.Key p)) "unique" then setUnique mf else mf))
    as (-> & -> & ->).
  by destruct (String.eqb _ _).
Qed.

Lemma applyDefinition_keeps name d idf mf idf' mf' :
  applyDefinition name d (idf, mf) = Some (idf', mf') ->
  fld_name mf' = fld_name mf /\ fld_ignore mf' = fld_ignore mf.
Proof.
  unfold applyDefinition. intros H.
  repeat match type of H with
  | (if ?c then _ else _) = _ => destruct c
  end; try (inversion H; subst; done).
  - inversion H; subst. destruct (indexParameters_keeps (tag.Parameters d) (setIndex mf true))
      as (-> & -> & _). done.
  - destruct (relationParameters _ _ _) as [mf1|] eqn:E; [|done].
    inversion H; subst. destruct (relationParameters_keeps _ _ _ _ E) as (-> & -> & _). done.
  - destruct (relationParameters _ _ _) as [mf1|] eqn:E; [|done].
    inversion H; subst. destruct (relationParameters_keeps _ _ _ _ E) as (-> & -> & _). done.
Qed.

Lemma applyDefinitions_keeps name ds : forall idf mf idf' mf',
  applyDefinitions name ds (idf, mf) = Some (idf', mf') ->
  fld_name mf' = fld_name mf /\ fld_ignore mf' = fld_ignore mf.
Proof.
  induction ds as [|d rest IH]; intros idf mf idf' mf' H; cbn [applyDefinitions] in H.
  - by inversion H; subst.
  - destruct (applyDefinition name d (idf, mf)) as [[idf1 mf1]|] eqn:E; [|done].
    destruct (IH _ _ _ _ H) as (-> & ->). by eapply applyDefinition_keeps.
Qed.

Section CompiledFields.

Variable Parse : string -> error + list tag.Def.

(** The field compiled from a struct field that is not ignored. *)
Lemma compileField_appends decl F meta meta' :
  compileField Parse decl F meta = inr meta' ->
  if ignoredField F then meta_fields meta' = meta_fields meta
  else exists f, meta_fields meta' = meta_fields meta ++ [f] /\
                 fld_name f = sf_Name F /\ fld_ignore f = false /\
                 (hasRelation f = true -> fld_index f = false).
Proof.
  unfold compileField, ignoredField. intros H.
  destruct (String.eqb (bsonKey F) "-"); [by inversion H; subst; destruct (String.eqb _ "_id")|].
  destruct (String.eqb (sf_odm F) "-"); [by inversion H; subst; destruct (String.eqb _ "_id")|].
  simpl. destruct (Parse (sf_odm F)) as [|ds]; [done|].
  destruct (applyDefinitions _ _ _) as [[idf mf]|] eqn:Happ; [|done].
  inversion H; subst meta'. clear H.
  apply applyDefinitions_keeps in Happ as [Hn Hi].
  eexists. split; [simpl; by destruct (String.eqb (bsonKey F) "_id")|].
  assert (Hn0 : fld_name mf = sf_Name F).
  { rewrite Hn. by destruct (bsonOmitempty F), (String.eqb (bsonKey F) ""). }
  assert (Hi0 : fld_ignore mf = false).
  { rewrite Hi. by destruct (bsonOmitempty F), (String.eqb (bsonKey F) ""). }
  destruct (fld_index mf && hasRelation mf) eqn:E.
  - assert (Hrel : forall k, hasRelation (setKey (setIndex mf false) k) = hasRelation mf) by done.
    destruct (String.eqb (rel_idStorageField _) ""); [done|].
    destruct (String.eqb (resolveKeyForField _ _) ""); done.
  - assert (Hidx : hasRelation mf = true -> fld_index mf = false).
    { intros Hr. rewrite Hr, andb_true_r in E. done. }
    destruct (String.eqb (rel_idStorageField _) ""); [done|].
    destruct (String.eqb (resolveKeyForField _ _) ""); done.
Qed.

Lemma compileFields_fields decl Fields : forall meta meta',
  compileFields Parse decl Fields meta = inr meta' ->
  List.map fld_name (meta_fields meta')
  = List.map fld_name (meta_fields meta)
    ++ List.map sf_Name (List.filter (fun F => negb (ignoredField F)) Fields) /\
  ((forall f, f ∈ meta_fields meta ->
      fld_ignore f = false /\ (hasRelation f = true -> fld_index f = false)) ->
   forall f, f ∈ meta_fields meta' ->
      fld_ignore f = false /\ (hasRelation f = true -> fld_index f = false)).
Proof.
  induction Fields as [|F rest IH]; intros meta meta' H; simpl in H.
  - inversion H; subst. simpl. by rewrite app_nil_r.
  - destruct (compileField Parse decl F meta) as [|meta1] eqn:E; [done|].
    destruct (IH _ _ H) as [IHn IHf]. apply compileField_appends in E.
    simpl. destruct (ignoredField F); simpl.
    + rewrite E in IHn, IHf. done.
    + destruct E as (f & E & Hn & Hi & Hx). rewrite E in IHn, IHf. split.
      * rewrite IHn, List.map_app, <- app_assoc. simpl. by rewrite Hn.
      * intros Hm. apply IHf. intros g Hg. apply elem_of_app in Hg as [Hg|Hg]; [by apply Hm|].
        apply list_elem_of_singleton in Hg. by subst.
Qed.

(** X6. The fields of the compiled metadata are the fields of the
    struct that are not ignored (neither the [bson] key nor the ODM tag is
    the dash), one for one and in the order of their declaration. *)
Theorem getTypeMetadatas_field_order (decl : list StructField) (meta : metadata) :
  getTypeMetadatas Parse decl = inr meta ->
  List.map fld_name (meta_fields meta)
  = List.map sf_Name (List.filter (fun F => negb (ignoredField F)) decl).
Proof.
  intros H. by destruct (compileFields_fields decl decl zeroMetadata meta H) as [-> _].
Qed.

(** X7. No compiled field has its [ignore] flag set (an ignored struct
    field is left out of the metadata altogether), and no field that
    carries a relation keeps a single-field index. *)
Theorem getTypeMetadatas_field_flags (decl : list StructField) (meta : metadata) (f : field) :
  getTypeMetadatas Parse decl = inr meta ->
  f ∈ meta_fields meta ->
  fld_ignore f = false /\ (hasRelation f = true -> fld_index f = false).
Proof.
  intros H. destruct (compileFields_fields decl decl zeroMetadata meta H) as [_ Hf].
  apply Hf. intros g Hg. by apply elem_of_nil in Hg.
Qed.

Lemma compileField_error decl F meta err :
  compileField Parse decl F meta = inl err ->
  err = ErrInvalidAnnotation \/ (ignoredField F = false /\ Parse (sf_odm F) = inl err).
Proof.
  unfold compileField, ignoredField. intros H.
  destruct (String.eqb (bsonKey F) "-"); [done|].
  destruct (String.eqb (sf_odm F) "-"); [done|].
  destruct (Parse (sf_odm F)) as [e|ds] eqn:HP.
  - inversion H; subst. by right.
  - destruct (applyDefinitions _ _ _) as [[idf mf]|]; [done|]. inversion H. by left.
Qed.

(** X8. An error of [getTypeMetadatas] is [InvalidAnnotation], or the
    error that the tokenizer gives on the ODM tag of a field of the struct
    that is not ignored. *)
Theorem getTypeMetadatas_errors (decl : list StructField) (err : error) :
  getTypeMetadatas Parse decl = inl err ->
  err = ErrInvalidAnnotation \/
  exists F, F ∈ decl /\ ignoredField F = false /\ Parse (sf_odm F) = inl err.
Proof.
  unfold getTypeMetadatas. generalize zeroMetadata. generalize decl at 1 as d.
  induction decl as [|F rest IH]; intros d meta H; simpl in H; [done|].
  destruct (compileField Parse d F meta) as [e|meta1] eqn:E.
  - inversion H; subst. apply compileField_error in E as [->|[? ?]]; [by left|].
    right. exists F. split; [left|done].
  - destruct (IH _ _ H) as [->|(G & HG & ?)]; [by left|].
    right. exists G. split; [by right|done].
Qed.

End CompiledFields.

Lemma getTypeMetadatas_field_order_witness :
  exists meta, getTypeMetadatas tag.Parse vaultDecl = inr meta /\
               List.map fld_name (meta_fields meta) = ["ID"].
Proof.
  destruct (getTypeMetadatas tag.Parse vaultDecl) as [e|meta] eqn:E; [by vm_compute in E|].
  exists meta. split; [done|].
  by rewrite (getTypeMetadatas_field_order tag.Parse vaultDecl meta E).
Defined.

Lemma getTypeMetadatas_field_flags_witness :
  exists meta, getTypeMetadatas tag.Parse parcelDecl = inr meta /\
               Forall (fun f => fld_ignore f = false /\
                                (hasRelation f = true -> fld_index f = false))
                      (meta_fields meta).
Proof.
  destruct (getTypeMetadatas tag.Parse parcelDecl) as [e|meta] eqn:E; [by vm_compute in E|].
  exists meta. split; [done|]. apply Forall_forall. intros f Hf.
  by apply (getTypeMetadatas_field_flags tag.Parse parcelDecl meta f).
Defined.

Lemma getTypeMetadatas_errors_witness :
  ErrInvalidAnnotation = ErrInvalidAnnotation \/
  exists F, F ∈ linkDecl /\ ignoredField F = false /\
            tag.Parse (sf_odm F) = inl ErrInvalidAnnotation.
Proof.
  apply (getTypeMetadatas_errors tag.Parse linkDecl ErrInvalidAnnotation). by vm_compute.
Defined.

(** ** The guards on the metadata *)

Lemma existsb_filter_nil {A} (p : A -> bool) (l : list A) :
  existsb p l = negb (bool_decide (List.filter p l = [])).
Proof.
  induction l as [|x l IH]; simpl; [done|].
  destruct (p x); simpl; [done|exact IH].
Qed.

(** X9. The guards that [Flush], [doPersist], [doRemove] and the resolver
    test agree with the lists they guard: [hasFieldWithIndex] holds
    exactly when [getIndexes] gives an index, and each of these indexes
    has one key; [hasFieldWithComposite] holds exactly when the composite
    index that [getComposites] gives has a key; [hasRelation] holds
    exactly when [getFieldsWithRelation] gives a field. *)
Theorem metadata_guards_agree (meta : metadata) :
  hasFieldWithIndex meta = negb (bool_decide (getIndexes meta = [])) /\
  Forall (fun index => length (idx_Key index) = 1) (getIndexes meta) /\
  (exists index, getComposites meta = [index] /\ idx_Unique index = true /\
     hasFieldWithComposite meta = negb (bool_decide (idx_Key index = []))) /\
  metaHasRelation meta = negb (bool_decide (getFieldsWithRelation meta = [])).
Proof.
  split; [|split; [|split]].
  - unfold hasFieldWithIndex, getIndexes, findFieldsWithIndex.
    rewrite existsb_filter_nil. f_equal.
    destruct (List.filter fld_index (meta_fields meta)); by simpl.
  - unfold getIndexes. apply Forall_forall. intros index Hin.
    apply list_elem_of_In, in_map_iff in Hin as (f & <- & _). done.
  - eexists. split; [reflexivity|]. split; [done|]. simpl.
    unfold hasFieldWithComposite, findFieldsWithComposite.
    rewrite existsb_filter_nil. f_equal.
    destruct (List.filter fld_composite (meta_fields meta)); by simpl.
  - apply existsb_filter_nil.
Qed.

(** ** The buffer of intents: [Persist], [Remove], [pop] *)

Lemma Persist_intent d m m' :
  Persist (ArgDocument d) m = (Ok tt, m') ->
  exists t, (t = Task.insert \/ t = Task.update) /\ tasks m' = <[d := t]> (tasks m).
Proof.
  unfold Persist. intros H.
  destruct (getDocumentID _ _ _) as [[id e]| |]; try done.
  destruct (negb (Valid id)).
  - destruct (setIDForValue _ _ _ _) as [[e' h']| |]; try done.
    inversion H; subst. simpl. eauto.
  - inversion H; subst. simpl. eauto.
Qed.

(** X10. The buffer holds one intent for an entity, the last one
    recorded: [Remove] after [Persist] leaves a delete, a [Persist] after
    that leaves a create or an update again, and the intents of the other
    entities are as they were. *)
Theorem last_intent_wins (d : document) (m m1 m2 : manager) :
  Persist (ArgDocument d) m = (Ok tt, m1) ->
  Persist (ArgDocument d) (snd (Remove (ArgDocument d) m1)) = (Ok tt, m2) ->
  tasks (snd (Remove (ArgDocument d) m1)) !! d = Some Task.del /\
  (tasks m2 !! d = Some Task.insert \/ tasks m2 !! d = Some Task.update) /\
  forall d', d' <> d -> tasks m2 !! d' = tasks m !! d'.
Proof.
  intros H1 H2.
  destruct (Persist_intent _ _ _ H1) as (t1 & _ & Ht1).
  destruct (Persist_intent _ _ _ H2) as (t2 & Hk & Ht2).
  split; [apply lookup_insert_eq|]. split.
  - rewrite Ht2, lookup_insert_eq. destruct Hk as [-> | ->]; auto.
  - intros d' Hne. rewrite Ht2. simpl. rewrite Ht1.
    by rewrite !lookup_insert_ne.
Qed.

Lemma last_intent_wins_witness :
  tasks (snd (Remove (ArgDocument (Some 1%positive)) (snd (Persist (ArgDocument (Some 1%positive)) membersManager))))
    !! Some 1%positive = Some Task.del /\
  tasks (snd (Persist (ArgDocument (Some 1%positive))
                (snd (Remove (ArgDocument (Some 1%positive)) (snd (Persist (ArgDocument (Some 1%positive)) membersManager))))))
    !! Some 1%positive = Some Task.update.
Proof.
  destruct (last_intent_wins (Some 1%positive) membersManager
              (snd (Persist (ArgDocument (Some 1%positive)) membersManager))
              (snd (Persist (ArgDocument (Some 1%positive))
                      (snd (Remove (ArgDocument (Some 1%positive))
                              (snd (Persist (ArgDocument (Some 1%positive)) membersManager)))))))
    as (H1 & _ & _); [by vm_compute|by vm_compute|].
  split; [exact H1|by vm_compute].
Defined.

Lemma pop_entry (pick : list (document * Task.task) -> nat)
    (t : gmap (option ptr) Task.task) :
  t <> ∅ ->
  exists d theTask, pop pick t = (d, theTask, delete d t) /\ t !! d = Some theTask.
Proof.
  intros Hne. unfold pop. cbv zeta. unfold document in *.
  assert (Hlen : length (map_to_list t) <> 0).
  { intros Hl. apply Hne, map_to_list_empty_iff. by apply nil_length_inv. }
  destruct (lookup_lt_is_Some_2 (map_to_list t) (pick (map_to_list t) `mod` length (map_to_list t)))
    as [[d theTask] Hl]; [by apply Nat.mod_upper_bound|].
  rewrite Hl. exists d, theTask. split; [done|].
  by apply elem_of_map_to_list, (list_elem_of_lookup_2 _ _ _ Hl).
Qed.

Lemma pop_empty (pick : list (document * Task.task) -> nat) :
  pop pick ∅ = (None, Task.del, ∅).
Proof. unfold pop. cbv zeta. unfold document in *. by rewrite map_to_list_empty. Qed.

(** X11. [pop] takes one entry out of the buffer, whatever the order in
    which the [range] visits the map: the entity and the task it returns
    were an entry of the buffer, and the buffer is left with exactly that
    entry removed, one entry smaller.  On the empty buffer it returns the
    nil entity and the zero task, which is [del]. *)
Theorem pop_spec (pick : list (document * Task.task) -> nat) (t : gmap (option ptr) Task.task) :
  match pop pick t with
  | (d, theTask, t') =>
      if decide (t = ∅) then d = None /\ theTask = Task.del /\ t' = t
      else t !! d = Some theTask /\ t' = delete d t /\ size t = S (size t')
  end.
Proof.
  destruct (decide (t = ∅)) as [->|Hne]; [by rewrite pop_empty|].
  destruct (pop_entry pick t Hne) as (d & theTask & -> & Hd).
  split; [done|]. split; [done|].
  rewrite <- (insert_delete_id t d theTask) at 1 by done.
  rewrite map_size_insert_None; [done|]. apply lookup_delete_eq.
Qed.

(** ** Frames *)

Section Frames.

Context (R : manager -> manager -> Prop) `{!Reflexive R, !Transitive R}.

Lemma keeps_ret {A} (a : A) : keeps R (mret a).
Proof. intros m. simpl. reflexivity. Qed.

Lemma keeps_panic {A} msg : keeps R (@panic A msg).
Proof. intros m. simpl. reflexivity. Qed.

Lemma keeps_lift {A} (o : outcome A) : keeps R (lift o).
Proof. intros m. simpl. reflexivity. Qed.

Lemma keeps_getManager : keeps R getManager.
Proof. intros m. simpl. reflexivity. Qed.

Lemma keeps_bind {A B} (c : M A) (k : A -> M B) :
  keeps R c -> (forall a, keeps R (k a)) -> keeps R (c ≫= k).
Proof.
  intros Hc Hk m. unfold mbind, M_bind. specialize (Hc m).
  destruct (c m) as [[a| |] m1]; simpl in *; [|done|done].
  etrans; [exact Hc|apply Hk].
Qed.

Lemma keeps_forM {A} (l : list A) (body : A -> M unit) :
  (forall x, keeps R (body x)) -> keeps R (forM l body).
Proof.
  intros Hb. induction l as [|x l IH]; simpl; [apply keeps_ret|].
  apply keeps_bind; [apply Hb|by intros _].
Qed.

End Frames.

Lemma returns_ret {A} (a : A) : returns (mret a).
Proof. by intros m. Qed.

Lemma returns_panic {A} msg : returns (@panic A msg).
Proof. by intros m. Qed.

Lemma returns_getManager : returns getManager.
Proof. by intros m. Qed.

Lemma returns_modify f : returns (modify f).
Proof. by intros m. Qed.

Lemma returns_lift {A} (o : outcome A) : o <> Timeout -> returns (lift o).
Proof. by intros H m. Qed.

Lemma returns_bind {A B} (c : M A) (k : A -> M B) :
  returns c -> (forall a, returns (k a)) -> returns (c ≫= k).
Proof.
  intros Hc Hk m. unfold mbind, M_bind. specialize (Hc m).
  destruct (c m) as [[a| |] m1]; simpl in *; [apply Hk|done|done].
Qed.

Ltac total :=
  repeat first
    [ apply returns_ret
    | apply returns_panic
    | apply returns_getManager
    | apply returns_modify
    | apply returns_bind; [|intros ?] ].

Ltac frame R :=
  repeat first
    [ apply (keeps_ret R)
    | apply (keeps_panic R)
    | apply (keeps_lift R)
    | apply (keeps_getManager R)
    | apply (keeps_bind R); [|intros ?] ].

Global Instance traceGrows_refl P : Reflexive (traceGrows P).
Proof. intros m. exists []. by rewrite app_nil_r. Qed.

Global Instance traceGrows_trans P : Transitive (traceGrows P).
Proof.
  intros a b c (l1 & H1 & F1) (l2 & H2 & F2). exists (l1 ++ l2).
  rewrite H2, H1, app_assoc. split; [done|]. by apply Forall_app.
Qed.

Lemma traceGrows_weaken (P Q : call -> Prop) m m' :
  (forall c, P c -> Q c) -> traceGrows P m m' -> traceGrows Q m m'.
Proof. intros H (l & Hl & F). exists l. split; [done|]. eapply Forall_impl; eauto. Qed.

Lemma traceGrows_same P m m' : trace m' = trace m -> traceGrows P m m'.
Proof. intros H. exists []. by rewrite app_nil_r. Qed.

Lemma traceGrows_log P m c : P c -> traceGrows P m (logCall m c).
Proof. intros H. exists [c]. split; [done|]. by repeat constructor. Qed.

(** ** [doRemove] *)

Lemma allDeletes_delete (t : gmap (option ptr) Task.task) d :
  allDeletes t -> allDeletes (delete d t).
Proof.
  intros H d' k Hk. apply lookup_delete_Some in Hk as [_ Hk]. by eapply H.
Qed.

Lemma addsDeletes_refl t : addsDeletes t t.
Proof. intros x. by left. Qed.

Lemma addsDeletes_trans t1 t2 t3 : addsDeletes t1 t2 -> addsDeletes t2 t3 -> addsDeletes t1 t3.
Proof.
  intros H1 H2 x. destruct (H2 x) as [E|E]; [|by right]. rewrite E. apply H1.
Qed.

Lemma addsDeletes_insert (t : gmap (option ptr) Task.task) d :
  addsDeletes t (<[d := Task.del]> t).
Proof.
  intros x. destruct (decide (d = x)) as [<-|Hne].
  - right. apply lookup_insert_eq.
  - left. by apply lookup_insert_ne.
Qed.

Lemma addsDeletes_allDeletes t t' : addsDeletes t t' -> allDeletes t -> allDeletes t'.
Proof.
  intros H Ht d k Hk. destruct (H d) as [E|E]; rewrite E in Hk.
  - by eapply Ht.
  - by inversion Hk.
Qed.

Lemma removeMany_addsDeletes h idName many : forall t,
  addsDeletes t (snd (removeMany h idName many t)).
Proof.
  induction many as [|[q|] rest IH]; intros t; simpl; try apply addsDeletes_refl.
  destruct (h !! q) as [o|]; [|apply addsDeletes_refl].
  destruct (obj_fields o !! idName) as [id|]; [|apply addsDeletes_refl].
  eapply addsDeletes_trans; [|apply IH].
  destruct (isZero id); [apply addsDeletes_refl|apply addsDeletes_insert].
Qed.

Lemma removeField_addsDeletes metas h fs f t :
  addsDeletes t (snd (removeField metas h fs f t)).
Proof.
  unfold removeField.
  destruct (cascadesRemove f); [|apply addsDeletes_refl].
  destruct (rel_relation (fld_relation f)); [apply addsDeletes_refl| |].
  - destruct (findMetadataByCollectionName _ _) as [meta [T|]]; [|apply addsDeletes_refl].
    destruct (fs !! fld_name f) as [[s|o|many|l]|]; try apply addsDeletes_refl.
    + destruct (findIDField meta); [apply removeMany_addsDeletes|apply addsDeletes_refl].
    + destruct l, (findIDField meta); apply addsDeletes_refl.
  - destruct (findMetadataByCollectionName _ _) as [meta [T|]]; [|apply addsDeletes_refl].
    destruct (fs !! fld_name f) as [one|]; [|apply addsDeletes_refl].
    destruct (isZero one); [apply addsDeletes_refl|].
    destruct (findIDField meta) as [idField|]; [|apply addsDeletes_refl].
    destruct one as [s|[q|]|many|l]; try apply addsDeletes_refl.
    destruct (h !! q) as [o|]; [|apply addsDeletes_refl].
    destruct (obj_fields o !! _) as [id|]; [|apply addsDeletes_refl].
    simpl. destruct (isZero id); [apply addsDeletes_refl|apply addsDeletes_insert].
Qed.

Lemma removeFields_addsDeletes metas h fs fields : forall t,
  addsDeletes t (snd (removeFields metas h fs fields t)).
Proof.
  induction fields as [|f rest IH]; intros t; simpl; [apply addsDeletes_refl|].
  pose proof (removeField_addsDeletes metas h fs f t) as H.
  destruct (removeField metas h fs f t) as [[[]| |] t1]; simpl in *; [|done|done].
  eapply addsDeletes_trans; [exact H|apply IH].
Qed.

(** What [doRemove] does to the trace, whatever its outcome. *)
Lemma doRemove_removes drv d : keeps (traceGrows isRemoveId) (doRemove drv d).
Proof.
  intros m. unfold doRemove.
  destruct (registered m d) as [metadata|]; [|reflexivity].
  destruct (structToMap _ _ _) as [Map| |]; try reflexivity.
  destruct (if metaHasRelation metadata then _ else _) as [[[]| |] t'];
    try (by apply traceGrows_same).
  cbv zeta. destruct (drvRemoveId _ _ _ _); simpl.
  - by apply (traceGrows_log isRemoveId (setTasks m t')).
  - destruct (setIDForValue _ _ _ _) as [[e h']| |]; simpl;
      by apply (traceGrows_log isRemoveId (setTasks m t')).
Qed.

(** What [doRemove] does to the buffer, whatever its outcome. *)
Lemma doRemove_addsDeletes drv d m :
  addsDeletes (tasks m) (tasks (snd (doRemove drv d m))).
Proof.
  unfold doRemove.
  destruct (registered m d) as [metadata|]; [|apply addsDeletes_refl].
  destruct (structToMap _ _ _) as [Map| |]; try apply addsDeletes_refl.
  assert (Ht' : addsDeletes (tasks m)
                  (snd (if metaHasRelation metadata
                        then removeFields (metas m) (heap m) (fieldsOf (heap m) d)
                               (getFieldsWithRelation metadata) (tasks m)
                        else (Ok tt, tasks m)))).
  { destruct (metaHasRelation metadata); [apply removeFields_addsDeletes|apply addsDeletes_refl]. }
  destruct (if metaHasRelation metadata then _ else _) as [[[]| |] t']; simpl in Ht'; try done.
  cbv zeta. destruct (drvRemoveId _ _ _ _); simpl; [done|].
  by destruct (setIDForValue _ _ _ _) as [[e h']| |].
Qed.

Lemma doRemove_allDeletes drv d m :
  allDeletes (tasks m) -> allDeletes (tasks (snd (doRemove drv d m))).
Proof. apply addsDeletes_allDeletes, doRemove_addsDeletes. Qed.

(** X12. [doRemove] of an entity whose type is not registered returns
    [DocumentNotRegistered] and does nothing.  For a registered entity it
    either panics in reflection before it reaches the driver, the manager
    being then as it was but for the delete intents that the cascade has
    written to the buffer until the panic, or makes exactly one call to
    the driver, [RemoveId] on the collection of the type with the
    identifier that [structToMap] projects under [_id]: an error of the
    driver is returned and the entity is left as it is; on success the
    identifier field of the entity is set to the zero identifier (a
    panic, if the entity has no such field) and nothing else of the heap
    changes.  In every case the only intents written to the buffer are
    deletes. *)
Theorem doRemove_outcome (drv : Driver) (d : document) (m : manager) :
  match registered m d with
  | None => doRemove drv d m = (Ok (Some ErrDocumentNotRegistered), m)
  | Some metadata =>
      addsDeletes (tasks m) (tasks (snd (doRemove drv d m))) /\
      ((exists msg t', doRemove drv d m = (Panic msg, setTasks m t')) \/
       (exists Map,
          structToMap (metas m) (heap m) d = Ok Map /\
          trace (snd (doRemove drv d m))
            = trace m ++ [CallRemoveId (meta_targetDocument metadata) (Map !! "_id")] /\
          metas (snd (doRemove drv d m)) = metas m /\
          match drvRemoveId drv (trace m) (meta_targetDocument metadata) (Map !! "_id") with
          | Some e =>
              fst (doRemove drv d m) = Ok (Some e) /\ heap (snd (doRemove drv d m)) = heap m
          | None =>
              (exists msg, fst (doRemove drv d m) = Panic msg /\
                           heap (snd (doRemove drv d m)) = heap m) \/
              (fst (doRemove drv d m) = Ok None /\
               exists p o, d = Some p /\ heap m !! p = Some o /\
                 heap (snd (doRemove drv d m))
                   = <[p := setField o (meta_idField metadata) (VId zeroObjectID)]> (heap m))
          end))
  end.
Proof.
  pose proof (doRemove_addsDeletes drv d m) as Hadds.
  remember (doRemove drv d m) as r eqn:Er. unfold doRemove in Er.
  destruct (registered m d) as [metadata|] eqn:Hreg; [|done].
  split; [done|]. clear Hadds.
  pose proof (structToMap_returns (metas m) (heap m) d) as Hs.
  destruct (structToMap (metas m) (heap m) d) as [Map|msg|] eqn:HMap; [| |done].
  2:{ left. exists msg, (tasks m). by destruct m. }
  set (c := if metaHasRelation metadata then _ else _) in Er.
  assert (Hc : fst c <> Timeout).
  { subst c. destruct (metaHasRelation metadata); [apply removeFields_returns|done]. }
  destruct c as [[[]|msg|] t']; [| |done].
  2:{ left. by exists msg, t'. }
  right. exists Map. split; [done|]. cbv zeta in Er. simpl in Er.
  destruct (drvRemoveId drv (trace m) (meta_targetDocument metadata) (Map !! "_id")) as [e|].
  { by subst r. }
  unfold setIDForValue in Er. simpl in Er.
  unfold registered, TypeOf in Hreg.
  destruct d as [p|]; [|done]. destruct (heap m !! p) as [o|] eqn:Hp; [|done].
  rewrite Hreg in Er. unfold setObjectIdField in Er. rewrite Hp in Er.
  destruct (obj_fields o !! meta_idField metadata) as [[[]| | |]|];
    subst r; simpl; (split; [done|]); (split; [done|]);
    try (left; eexists; split; [reflexivity|done]).
  right. split; [done|]. by exists p, o.
Qed.

(** ** [doPersist] *)

Global Instance cascadeFrame_refl : Reflexive cascadeFrame.
Proof. intros m. repeat split. by left. Qed.

Global Instance cascadeFrame_trans : Transitive cascadeFrame.
Proof.
  intros a b c (H1 & H2 & H3) (G1 & G2 & G3). split; [congruence|]. split; [congruence|].
  intros d. destruct (G3 d) as [E|E]; [|by right]. rewrite E. apply H3.
Qed.

Lemma ensureID_cascadeFrame q idName : keeps cascadeFrame (ensureID q idName).
Proof.
  intros m. unfold ensureID.
  destruct (heap m !! q) as [o|]; [|reflexivity].
  destruct (obj_fields o !! idName) as [id|]; [|reflexivity].
  destruct (isZero id).
  - cbv zeta. destruct (setObjectIdField _ _ _ _); simpl; repeat split; by left.
  - destruct id as [[]| | |]; reflexivity.
Qed.

Lemma enqueue_cascadeFrame q :
  keeps cascadeFrame (modify (fun m => setTasks m (<[Some q := Task.insert]> (tasks m)))).
Proof.
  intros m. simpl. repeat split. intros d. simpl.
  destruct (decide (Some q = d)) as [<-|Hne].
  - right. apply lookup_insert_eq.
  - left. by apply lookup_insert_ne.
Qed.

Lemma persistMany_cascadeFrame idName cas many : forall ids,
  keeps cascadeFrame (persistMany idName cas many ids).
Proof.
  induction many as [|[q|] rest IH]; intros ids; simpl.
  - frame cascadeFrame.
  - apply (keeps_bind cascadeFrame); [apply ensureID_cascadeFrame|]. intros id.
    apply (keeps_bind cascadeFrame); [|by intros _].
    destruct cas; [apply enqueue_cascadeFrame|frame cascadeFrame].
  - frame cascadeFrame.
Qed.

Lemma persistField_cascadeFrame p f Map : keeps cascadeFrame (persistField p f Map).
Proof.
  unfold persistField. case_bool_decide; [frame cascadeFrame|].
  destruct (rel_relation (fld_relation f)); [frame cascadeFrame| |].
  - frame cascadeFrame.
    destruct (findMetadataByCollectionName _ _) as [meta [T|]]; [|frame cascadeFrame].
    destruct (fieldsOf _ _ !! _) as [[s|o|many|l]|]; try frame cascadeFrame.
    + destruct (findIDField meta); [apply persistMany_cascadeFrame|frame cascadeFrame].
    + destruct l, (findIDField meta); frame cascadeFrame.
  - frame cascadeFrame.
    destruct (findMetadataByCollectionName _ _) as [meta [T|]]; [|frame cascadeFrame].
    destruct (fieldsOf _ _ !! _) as [one|]; [|frame cascadeFrame].
    destruct (isZero one); [frame cascadeFrame|].
    destruct (findIDField meta) as [idField|]; [|frame cascadeFrame].
    destruct one as [s|[q|]|many|l]; try frame cascadeFrame.
    + apply ensureID_cascadeFrame.
    + destruct (cascadesPersist f); [apply enqueue_cascadeFrame|frame cascadeFrame].
Qed.

Lemma ensureID_returns q idName : returns (ensureID q idName).
Proof.
  intros m. unfold ensureID.
  destruct (heap m !! q) as [o|]; [|done].
  destruct (obj_fields o !! idName) as [id|]; [|done].
  destruct (isZero id).
  - cbv zeta. unfold setObjectIdField. simpl. destruct (heap m !! q) as [o'|]; [|done].
    by destruct (obj_fields o' !! idName) as [[[]| | |]|].
  - by destruct id as [[]| | |].
Qed.

Lemma persistMany_returns idName cas many : forall ids,
  returns (persistMany idName cas many ids).
Proof.
  induction many as [|[q|] rest IH]; intros ids; simpl; [total| |total].
  apply returns_bind; [apply ensureID_returns|]. intros id.
  apply returns_bind; [destruct cas; total|by intros _].
Qed.

Lemma persistField_returns p f Map : returns (persistField p f Map).
Proof.
  unfold persistField. case_bool_decide; [total|].
  destruct (rel_relation (fld_relation f)); [total| |].
  - total.
    destruct (findMetadataByCollectionName _ _) as [meta [T|]]; [|total].
    destruct (fieldsOf _ _ !! _) as [[s|o|many|l]|]; try total.
    + destruct (findIDField meta); [apply persistMany_returns|total].
    + destruct l, (findIDField meta); total.
  - total.
    destruct (findMetadataByCollectionName _ _) as [meta [T|]]; [|total].
    destruct (fieldsOf _ _ !! _) as [one|]; [|total].
    destruct (isZero one); [total|].
    destruct (findIDField meta) as [idField|]; [|total].
    destruct one as [s|[q|]|many|l]; try total.
    + apply ensureID_returns.
    + destruct (cascadesPersist f); total.
Qed.

Lemma persistFields_returns p fields : forall Map, returns (persistFields p fields Map).
Proof.
  induction fields as [|f rest IH]; intros Map; simpl; [total|].
  apply returns_bind; [apply persistField_returns|apply IH].
Qed.

Lemma persistFields_cascadeFrame p fields : forall Map,
  keeps cascadeFrame (persistFields p fields Map).
Proof.
  induction fields as [|f rest IH]; intros Map; simpl; [frame cascadeFrame|].
  apply (keeps_bind cascadeFrame); [apply persistField_cascadeFrame|apply IH].
Qed.

(** X13. [doPersist] of a pointer to a struct of a registered type
    either panics in reflection before it reaches the driver, or makes
    exactly one call to the driver: an [UpsertId] on the collection of the
    type, whose [$set] document has no [_id] key, and whose answer it
    returns.  It registers nothing, and the only intents it writes to the
    buffer are inserts.  For anything else it returns
    [DocumentNotRegistered] and leaves the manager as it is. *)
Theorem doPersist_upserts_once (drv : Driver) (d : document) (m : manager) :
  match registered m d with
  | None => doPersist drv d m = (Ok (Some ErrDocumentNotRegistered), m)
  | Some metadata =>
      metas (snd (doPersist drv d m)) = metas m /\
      (forall d', tasks (snd (doPersist drv d m)) !! d' = tasks m !! d' \/
                  tasks (snd (doPersist drv d m)) !! d' = Some Task.insert) /\
      ((exists msg, fst (doPersist drv d m) = Panic msg /\
                    trace (snd (doPersist drv d m)) = trace m) \/
       (exists id set,
          trace (snd (doPersist drv d m)) =
            trace m ++ [CallUpsertId (meta_targetDocument metadata) id set] /\
          set !! "_id" = None /\
          fst (doPersist drv d m) =
            Ok (drvUpsertId drv (trace m) (meta_targetDocument metadata) id set)))
  end.
Proof.
  remember (doPersist drv d m) as r eqn:Er.
  unfold doPersist in Er. rewrite getManager_bind in Er.
  destruct d as [p|]; [|subst r; unfold registered; simpl; done].
  destruct (registered m (Some p)) as [metadata|] eqn:Hreg; [|by subst r].
  unfold mbind at 1, M_bind at 1, lift at 1 in Er.
  pose proof (structToMap_returns (metas m) (heap m) (Some p)) as Hs.
  destruct (structToMap (metas m) (heap m) (Some p)) as [Map|msg|]; [| |done].
  2:{ subst r. simpl. split; [done|]. split; [by left|]. left. by exists msg. }
  unfold mbind at 1, M_bind at 1 in Er.
  set (c := if metaHasRelation metadata
            then persistFields p (getFieldsWithRelation metadata) Map else mret Map) in Er.
  assert (Hk : keeps cascadeFrame c).
  { subst c. destruct (metaHasRelation metadata); [apply persistFields_cascadeFrame|frame cascadeFrame]. }
  assert (Hr : returns c).
  { subst c. destruct (metaHasRelation metadata); [apply persistFields_returns|total]. }
  specialize (Hk m). specialize (Hr m).
  destruct (c m) as [[Map'|msg|] m1]; simpl in Hk, Hr; [| |done].
  2:{ destruct Hk as (? & ? & ?). subst r. simpl. split; [done|]. split; [done|]. left. by exists msg. }
  destruct Hk as (Hm & Ht & Hq). subst r. simpl. split; [done|]. split; [done|].
  right. exists (Map' !! "_id"), (stripID Map'). rewrite Ht.
  split; [done|]. split; [apply lookup_delete_eq|done].
Qed.

(** ** [Flush] *)

Lemma flushTurn_of_deletes pick drv m :
  allDeletes (tasks m) ->
  allDeletes (tasks (snd (flushTurn pick drv m))) /\
  traceGrows isRemoveId m (snd (flushTurn pick drv m)).
Proof.
  intros Ht. unfold flushTurn. rewrite getManager_bind.
  assert (H : exists d t', pop pick (tasks m) = (d, Task.del, t') /\ allDeletes t').
  { destruct (decide (tasks m = ∅)) as [He|Hne].
    - rewrite He, pop_empty. eexists _, _. split; [done|]. by intros d k Hk.
    - destruct (pop_entry pick (tasks m) Hne) as (d & k & -> & Hd).
      rewrite (Ht d k Hd). eexists _, _. split; [done|]. by apply allDeletes_delete. }
  destruct H as (d & t' & -> & Ht'). unfold mbind, M_bind, modify.
  split.
  - by apply (doRemove_allDeletes drv d (setTasks m t')).
  - apply (doRemove_removes drv d (setTasks m t')).
Qed.

(** X14. While the buffer holds delete intents only, [Flush] upserts
    nothing and ensures no index: every call it makes to the driver is a
    [RemoveId], and the intents that a cascade adds, or that an error
    leaves in the buffer, are deletes again. *)
Theorem Flush_of_deletes_only_removes (pick : list (document * Task.task) -> nat)
    (drv : Driver) (fuel : nat) (m : manager) :
  allDeletes (tasks m) ->
  allDeletes (tasks (snd (Flush pick drv fuel m))) /\
  exists added, trace (snd (Flush pick drv fuel m)) = trace m ++ added /\
                Forall isRemoveId added.
Proof.
  change (allDeletes (tasks m) ->
          allDeletes (tasks (snd (Flush pick drv fuel m))) /\
          traceGrows isRemoveId m (snd (Flush pick drv fuel m))).
  revert m. induction fuel as [|fuel IH]; intros m Ht.
  - simpl. destruct (size (tasks m) =? 0)%nat; (split; [done|reflexivity]).
  - rewrite Flush_unfold.
    destruct (size (tasks m) =? 0)%nat; [split; [done|reflexivity]|].
    destruct (flushTurn_of_deletes pick drv m Ht) as (Ht1 & Hg1).
    destruct (flushTurn pick drv m) as [[[e|]| |] m1]; simpl in *; try done.
    destruct (IH m1 Ht1) as (Ht2 & Hg2). split; [done|]. by etrans.
Qed.

Lemma Flush_of_deletes_only_removes_witness :
  exists added,
    trace (snd (Flush first emptyDatabase 5 ringScheduled)) = trace ringScheduled ++ added /\
    Forall isRemoveId added.
Proof.
  apply (Flush_of_deletes_only_removes first emptyDatabase 5 ringScheduled).
  replace (tasks ringScheduled)
    with ({[ Some 1%positive := Task.del ]} : gmap (option ptr) Task.task) by by vm_compute.
  intros d theTask H. apply lookup_singleton_Some in H as [_ <-]. reflexivity.
Defined.

Lemma ensureIndexes_calls drv collection indexes :
  Forall (fun index => idx_Key index <> []) indexes ->
  keeps (traceGrows flushCall) (ensureIndexes drv collection indexes).
Proof.
  induction indexes as [|index rest IH]; intros H; simpl.
  - frame (traceGrows flushCall).
  - inversion H as [|? ? Hk Hrest]; subst.
    apply (keeps_bind (traceGrows flushCall)); [frame (traceGrows flushCall)|]. intros m0.
    apply (keeps_bind (traceGrows flushCall)).
    + intros m. simpl. by apply traceGrows_log.
    + intros _. destruct (drvEnsureIndex _ _ _ _); [frame (traceGrows flushCall)|by apply IH].
Qed.

Lemma getIndexes_keys meta : Forall (fun index => idx_Key index <> []) (getIndexes meta).
Proof.
  unfold getIndexes. apply Forall_forall. intros index Hin.
  apply list_elem_of_In, in_map_iff in Hin as (f & <- & _). done.
Qed.

Lemma getComposites_keys meta :
  hasFieldWithComposite meta = true ->
  Forall (fun index => idx_Key index <> []) (getComposites meta).
Proof.
  unfold hasFieldWithComposite, getComposites, findFieldsWithComposite. intros H.
  rewrite existsb_filter_nil in H. repeat constructor. simpl. intros Hnil.
  apply map_eq_nil in Hnil. rewrite Hnil in H. done.
Qed.

Lemma doPersist_calls drv d : keeps (traceGrows flushCall) (doPersist drv d).
Proof.
  unfold doPersist. apply (keeps_bind (traceGrows flushCall)); [frame (traceGrows flushCall)|].
  intros m. destruct d as [p|]; [|frame (traceGrows flushCall)].
  destruct (registered m (Some p)) as [metadata|]; [|frame (traceGrows flushCall)].
  apply (keeps_bind (traceGrows flushCall)); [frame (traceGrows flushCall)|]. intros Map.
  apply (keeps_bind (traceGrows flushCall)).
  - intros m0. apply traceGrows_same.
    destruct (metaHasRelation metadata); [|done].
    by destruct (persistFields_cascadeFrame p (getFieldsWithRelation metadata) Map m0) as (_ & ? & _).
  - intros Map'. apply (keeps_bind (traceGrows flushCall)); [frame (traceGrows flushCall)|].
    intros m1. cbv zeta. apply (keeps_bind (traceGrows flushCall)); [|frame (traceGrows flushCall)].
    intros m2. simpl. apply traceGrows_log. simpl. apply lookup_delete_eq.
Qed.

Lemma flushTurn_calls pick drv : keeps (traceGrows flushCall) (flushTurn pick drv).
Proof.
  unfold flushTurn. apply (keeps_bind (traceGrows flushCall)); [frame (traceGrows flushCall)|].
  intros m. destruct (pop pick (tasks m)) as [[d theTask] t'].
  apply (keeps_bind (traceGrows flushCall)); [intros m0; by apply traceGrows_same|]. intros _.
  assert (Hp : keeps (traceGrows flushCall)
                 (m0 ← getManager;
                  match getMetadatas (metas m0) (TypeOf (heap m0) d) with
                  | (_, Some err) => mret (Some err)
                  | (metaData, None) =>
                      err ← (if hasFieldWithIndex metaData
                             then ensureIndexes drv (meta_targetDocument metaData) (getIndexes metaData)
                             else mret None);
                      match err with
                      | Some e => mret (Some e)
                      | None =>
                          err ← (if hasFieldWithComposite metaData
                                 then ensureIndexes drv (meta_targetDocument metaData)
                                        (getComposites metaData)
                                 else mret None);
                          match err with
                          | Some e => mret (Some e)
                          | None => doPersist drv d
                          end
                      end
                  end)).
  { apply (keeps_bind (traceGrows flushCall)); [frame (traceGrows flushCall)|]. intros m0.
    destruct (getMetadatas _ _) as [metaData [err|]]; [frame (traceGrows flushCall)|].
    apply (keeps_bind (traceGrows flushCall)).
    { destruct (hasFieldWithIndex metaData); [|frame (traceGrows flushCall)].
      apply ensureIndexes_calls, getIndexes_keys. }
    intros [e|]; [frame (traceGrows flushCall)|].
    apply (keeps_bind (traceGrows flushCall)).
    { destruct (hasFieldWithComposite metaData) eqn:Hc; [|frame (traceGrows flushCall)].
      by apply ensureIndexes_calls, getComposites_keys. }
    intros [e|]; [frame (traceGrows flushCall)|]. apply doPersist_calls. }
  destruct theTask; try exact Hp.
  intros m0. eapply traceGrows_weaken; [|apply doRemove_removes]. by intros [].
Qed.

(** X15. Whatever the buffer holds, the driver answers and the fuel
    allows, the calls that [Flush] makes to the driver are well formed:
    every index it ensures has at least one key (the composite index is
    asked for only when a field is tagged composite), the [$set] document
    of every upsert has no [_id] key, and the rest are removals; [Flush]
    never queries the database. *)
Theorem Flush_calls_well_formed (pick : list (document * Task.task) -> nat)
    (drv : Driver) (fuel : nat) (m : manager) :
  exists added, trace (snd (Flush pick drv fuel m)) = trace m ++ added /\
                Forall flushCall added.
Proof.
  change (traceGrows flushCall m (snd (Flush pick drv fuel m))).
  revert m. induction fuel as [|fuel IH]; intros m.
  - simpl. destruct (size (tasks m) =? 0)%nat; reflexivity.
  - rewrite Flush_unfold. destruct (size (tasks m) =? 0)%nat; [reflexivity|].
    pose proof (flushTurn_calls pick drv m) as H1.
    destruct (flushTurn pick drv m) as [[[e|]| |] m1]; simpl in *; try done.
    etrans; [exact H1|apply IH].
Qed.

(** ** The read side: [FindAll], [FindID] and the resolver *)

Global Instance readFrame_refl : Reflexive readFrame.
Proof. intros m. repeat split. reflexivity. Qed.

Global Instance readFrame_trans : Transitive readFrame.
Proof.
  intros a b c (H1 & H2 & H3 & H4) (G1 & G2 & G3 & G4).
  split; [congruence|]. split; [congruence|]. split; [congruence|]. by etrans.
Qed.

Lemma readFrame_heap m h : readFrame m (setHeap m h).
Proof. repeat split. by apply traceGrows_same. Qed.

Lemma readFrame_log m c : isQuery c -> readFrame m (logCall m c).
Proof. intros H. repeat split. by apply traceGrows_log. Qed.

Lemma findSelect_reads drv c q sel : keeps readFrame (findSelect drv c q sel).
Proof. intros m. by apply readFrame_log. Qed.

Lemma findAll_reads drv c q : keeps readFrame (findAll drv c q).
Proof. intros m. by apply readFrame_log. Qed.

Lemma appendPtr_reads p name v : keeps readFrame (appendPtr p name v).
Proof.
  intros m. unfold appendPtr. destruct (heap m !! p) as [o|]; [|reflexivity].
  destruct (obj_fields o !! name) as [[]|]; try reflexivity. apply readFrame_heap.
Qed.

Lemma setPtr_reads p name v : keeps readFrame (setPtr p name v).
Proof.
  intros m. unfold setPtr. destruct (heap m !! p) as [o|]; [|reflexivity].
  destruct (obj_fields o !! name) as [[]|]; try reflexivity. apply readFrame_heap.
Qed.

Lemma allocAll_reads T decoded : keeps readFrame (allocAll T decoded).
Proof.
  induction decoded as [|fs rest IH]; simpl; [apply (keeps_ret readFrame)|].
  apply (keeps_bind readFrame); [apply (keeps_getManager readFrame)|]. intros m0.
  apply (keeps_bind readFrame);
    [|intros _; apply (keeps_bind readFrame); [apply IH|intros ?; apply (keeps_ret readFrame)]].
  intros m. simpl. repeat split. by apply traceGrows_same.
Qed.

Ltac reads :=
  repeat first
    [ apply (keeps_ret readFrame)
    | apply (keeps_panic readFrame)
    | apply (keeps_lift readFrame)
    | apply (keeps_getManager readFrame)
    | apply findSelect_reads
    | apply findAll_reads
    | apply appendPtr_reads
    | apply setPtr_reads
    | apply allocAll_reads
    | assumption
    | apply (keeps_bind readFrame); [|intros ?]
    | apply (keeps_forM readFrame); intros ?
    | match goal with
      | H : forall docs fetched, keeps readFrame (_ docs fetched) |- _ => apply H
      | |- keeps _ (match ?x with _ => _ end) => destruct x
      end ].

Section ResolverReads.

Variable drv : Driver.
Variable rec : documents -> fetchedTable -> M (option error * fetchedTable).
Hypothesis rec_reads : forall docs fetched, keeps readFrame (rec docs fetched).

Lemma resolveManyMapped_reads sources documentIds f fetched :
  keeps readFrame (resolveManyMapped drv rec sources documentIds f fetched).
Proof. unfold resolveManyMapped. reads. Qed.

Lemma resolveManyOwning_reads meta sources documentIds f fetched :
  keeps readFrame (resolveManyOwning drv rec meta sources documentIds f fetched).
Proof. unfold resolveManyOwning. reads. Qed.

Lemma resolveOneMapped_reads sources documentIds f fetched :
  keeps readFrame (resolveOneMapped drv rec sources documentIds f fetched).
Proof. unfold resolveOneMapped. reads. Qed.

Lemma resolveOneOwning_reads meta sources documentIds f fetched :
  keeps readFrame (resolveOneOwning drv rec meta sources documentIds f fetched).
Proof. unfold resolveOneOwning. reads. Qed.

Lemma resolveField_reads top selectedFields meta sources documentIds f fetched :
  keeps readFrame (resolveField drv rec top selectedFields meta sources documentIds f fetched).
Proof.
  unfold resolveField.
  destruct (_ && _); [reads|]. destruct (_ && _); [reads|].
  destruct (rel_relation (fld_relation f)), (rel_mapped (fld_relation f));
    first [apply resolveManyMapped_reads | apply resolveManyOwning_reads
          | apply resolveOneMapped_reads | apply resolveOneOwning_reads | reads].
Qed.

Lemma resolveFields_reads top selectedFields meta sources documentIds fields : forall fetched,
  keeps readFrame (resolveFields drv rec top selectedFields meta sources documentIds fields fetched).
Proof.
  induction fields as [|f rest IH]; intros fetched; simpl; [reads|].
  apply (keeps_bind readFrame); [apply resolveField_reads|].
  intros [[e|] fetched']; [reads|apply IH].
Qed.

Lemma resolveBody_reads docs fetched selectedFields :
  keeps readFrame (resolveBody drv rec docs fetched selectedFields).
Proof.
  unfold resolveBody. destruct docs as [p|elem ps|]; [reads| |reads].
  apply (keeps_bind readFrame); [reads|]. intros m.
  destruct (getMetadatas _ _) as [meta [e|]]; [reads|].
  apply (keeps_bind readFrame); [reads|]. intros sources.
  destruct (metaHasRelation meta); [apply resolveFields_reads|reads].
Qed.

End ResolverReads.

Lemma doResolveRelations_reads drv fuel : forall docs fetched selectedFields,
  keeps readFrame (doResolveRelations drv fuel docs fetched selectedFields).
Proof.
  induction fuel as [|fuel IH]; intros docs fetched selectedFields; simpl.
  - intros m. reflexivity.
  - apply resolveBody_reads. intros docs' fetched'. apply IH.
Qed.

Lemma resolveRelations_reads drv fuel docs selectedFields :
  keeps readFrame (resolveRelations drv fuel docs selectedFields).
Proof.
  unfold resolveRelations. apply (keeps_bind readFrame); [reads|]. intros m.
  apply (keeps_bind readFrame); [apply doResolveRelations_reads|]. intros [e t]. reads.
Qed.

(** X16. The read side never writes: whatever the driver answers and however
    the fuel runs out, [FindAll], [FindID] and the relation resolver
    behind them leave the registry, the buffer of intents and the
    identifier generator as they were, and every call they make to the
    driver is a query ([Find(...).Select(...).All], [Find(...).All] or
    [FindId(...).One]): no upsert, no removal, no index. *)
Theorem reads_never_write (drv : Driver) (fuel : nat) (m : manager) :
  (forall docs selectedFields, readFrame m (snd (resolveRelations drv fuel docs selectedFields m))) /\
  (forall elem, readFrame m (snd (FindAll drv fuel elem m))) /\
  (forall documentID p, readFrame m (snd (FindID drv fuel documentID p m))).
Proof.
  split; [|split].
  - intros docs sel. apply resolveRelations_reads.
  - intros elem. revert m. change (keeps readFrame (FindAll drv fuel elem)).
    unfold FindAll. apply (keeps_bind readFrame); [reads|]. intros m.
    destruct (metasLookup _ _) as [meta|]; [|reads].
    apply (keeps_bind readFrame); [reads|]. intros [e|decoded]; [reads|].
    apply (keeps_bind readFrame); [reads|]. intros ps.
    apply (keeps_bind readFrame); [apply resolveRelations_reads|]. intros e. reads.
  - intros documentID p. revert m. change (keeps readFrame (FindID drv fuel documentID p)).
    unfold FindID. apply (keeps_bind readFrame); [reads|]. intros m.
    destruct (heap m !! p) as [o|]; [|reads].
    destruct (metasLookup _ _) as [meta|]; [|reads].
    apply (keeps_bind readFrame); [intros m'; by apply readFrame_log|]. intros _.
    destruct (drvFindId _ _ _ _) as [e|fs]; [reads|].
    apply (keeps_bind readFrame); [intros m'; apply readFrame_heap|]. intros _.
    apply resolveRelations_reads.
Qed.

(** ** Where the errors of the resolver come from *)

Lemma yields_ret {A} (P : A -> Prop) a : P a -> yields P (mret a).
Proof. by intros H m. Qed.

Lemma yields_panic {A} (P : A -> Prop) msg : yields P (panic msg).
Proof. by intros m. Qed.

Lemma yields_bind {A B} (Q : A -> Prop) (P : B -> Prop) (c : M A) (k : A -> M B) :
  yields Q c -> (forall a, Q a -> yields P (k a)) -> yields P (c ≫= k).
Proof.
  intros Hc Hk m. unfold mbind, M_bind. specialize (Hc m).
  destruct (c m) as [[a| |] m1]; simpl in *; [by apply Hk|done|done].
Qed.

Lemma yields_any {A} (c : M A) : yields (fun _ => True) c.
Proof. intros m. by destruct (c m) as [[]]. Qed.

Lemma yields_seq {A B} (P : B -> Prop) (c : M A) (k : A -> M B) :
  (forall a, yields P (k a)) -> yields P (c ≫= k).
Proof. intros Hk. apply (yields_bind (fun _ => True)); [apply yields_any|auto]. Qed.

Lemma findSelect_yields drv c q sel :
  yields (fun r => forall e, r = inl e -> answeredBy drv e) (findSelect drv c q sel).
Proof. intros m. simpl. intros e H. left. eauto. Qed.

Lemma findAll_yields drv c q :
  yields (fun r => forall e, r = inl e -> answeredBy drv e) (findAll drv c q).
Proof. intros m. simpl. intros e H. right. eauto. Qed.

Lemma tolerant_inl {A} (r : error + list A) e : tolerant r = inl e -> r = inl e.
Proof. by destruct r as [[]|]. Qed.

Lemma fromResolver_own drv e t :
  e = ErrNotAPointer \/ e = ErrNotAnArray \/ e = ErrDocumentNotRegistered \/ e = ErrFieldNotFound ->
  fromResolver drv (Some e, t).
Proof. intros H e' [= <-]. unfold resolverError. tauto. Qed.

Lemma fromResolver_none drv t : fromResolver drv (None, t).
Proof. by intros e. Qed.

Lemma fromResolver_answered drv e t : answeredBy drv e -> fromResolver drv (Some e, t).
Proof. intros H e' [= <-]. unfold resolverError. tauto. Qed.

Ltac errs drv :=
  repeat first
    [ apply yields_panic
    | apply yields_ret; first
        [ apply fromResolver_none
        | apply fromResolver_own; tauto
        | apply fromResolver_answered; auto using tolerant_inl ]
    | assumption
    | match goal with
      | H : forall docs fetched, yields _ (_ docs fetched) |- _ => apply H
      | |- yields _ (findSelect _ _ _ _ ≫= _) =>
          apply (yields_bind _ _ _ _ (findSelect_yields _ _ _ _)); intros ? ?
      | |- yields _ (findAll _ _ _ ≫= _) =>
          apply (yields_bind _ _ _ _ (findAll_yields _ _ _)); intros ? ?
      | |- yields _ (_ ≫= _) => apply yields_seq; intros ?
      | |- yields _ (match ?x with _ => _ end) => destruct x eqn:?
      end ].

Section ResolverErrors.

Variable drv : Driver.
Variable rec : documents -> fetchedTable -> M (option error * fetchedTable).
Hypothesis rec_errors : forall docs fetched, yields (fromResolver drv) (rec docs fetched).

Lemma resolveManyMapped_errors sources documentIds f fetched :
  yields (fromResolver drv) (resolveManyMapped drv rec sources documentIds f fetched).
Proof. unfold resolveManyMapped. errs drv. Qed.

Lemma resolveManyOwning_errors meta sources documentIds f fetched :
  yields (fromResolver drv) (resolveManyOwning drv rec meta sources documentIds f fetched).
Proof. unfold resolveManyOwning, strict. errs drv. Qed.

Lemma resolveOneMapped_errors sources documentIds f fetched :
  yields (fromResolver drv) (resolveOneMapped drv rec sources documentIds f fetched).
Proof. unfold resolveOneMapped, strict. errs drv. Qed.

Lemma resolveOneOwning_errors meta sources documentIds f fetched :
  yields (fromResolver drv) (resolveOneOwning drv rec meta sources documentIds f fetched).
Proof. unfold resolveOneOwning. errs drv. Qed.

Lemma resolveField_errors top selectedFields meta sources documentIds f fetched :
  yields (fromResolver drv)
    (resolveField drv rec top selectedFields meta sources documentIds f fetched).
Proof.
  unfold resolveField.
  destruct (_ && _); [errs drv|]. destruct (_ && _); [errs drv|].
  destruct (rel_relation (fld_relation f)), (rel_mapped (fld_relation f));
    first [apply resolveManyMapped_errors | apply resolveManyOwning_errors
          | apply resolveOneMapped_errors | apply resolveOneOwning_errors | errs drv].
Qed.

Lemma resolveFields_errors top selectedFields meta sources documentIds fields : forall fetched,
  yields (fromResolver drv)
    (resolveFields drv rec top selectedFields meta sources documentIds fields fetched).
Proof.
  induction fields as [|f rest IH]; intros fetched; simpl; [errs drv|].
  apply (yields_bind (fromResolver drv)); [apply resolveField_errors|].
  intros [[e|] fetched'] H; [|apply IH].
  apply yields_ret. intros e' [= <-]. by apply (H e).
Qed.

Lemma resolveBody_errors docs fetched selectedFields :
  yields (fromResolver drv) (resolveBody drv rec docs fetched selectedFields).
Proof.
  unfold resolveBody. destruct docs as [p|elem ps|]; [errs drv| |errs drv].
  apply yields_seq. intros m. unfold getMetadatas.
  destruct (metasLookup _ _) as [meta|]; [|errs drv].
  apply yields_seq. intros sources.
  destruct (metaHasRelation meta); [apply resolveFields_errors|errs drv].
Qed.

End ResolverErrors.

(** X17. An error that the resolver returns is one of its own four
    ([NotAPointer], [NotAnArray], [DocumentNotRegistered],
    [FieldNotFound]) or an error that the driver answers to one of its
    queries; the other errors of the package never come out of it. *)
Theorem doResolveRelations_errors (drv : Driver) (fuel : nat) (docs : documents)
    (fetched : fetchedTable) (selectedFields : list string) (m m' : manager)
    (e : error) (t : fetchedTable) :
  doResolveRelations drv fuel docs fetched selectedFields m = (Ok (Some e, t), m') ->
  resolverError drv e.
Proof.
  intros H.
  assert (Hy : forall fuel docs fetched selectedFields,
            yields (fromResolver drv) (doResolveRelations drv fuel docs fetched selectedFields)).
  { clear. induction fuel as [|fuel IH]; intros docs fetched selectedFields; simpl.
    - by intros m.
    - apply resolveBody_errors. intros docs' fetched'. apply IH. }
  specialize (Hy fuel docs fetched selectedFields m). rewrite H in Hy. by apply (Hy e).
Qed.

Lemma doResolveRelations_errors_witness : resolverError notFoundDriver ErrNotFound.
Proof.
  apply (doResolveRelations_errors notFoundDriver 3 (DocsSlice (TPtr User) [1%positive]) ∅ []
           loneUser
           (snd (doResolveRelations notFoundDriver 3 (DocsSlice (TPtr User) [1%positive]) ∅ []
                   loneUser))
           ErrNotFound
           (match fst (doResolveRelations notFoundDriver 3 (DocsSlice (TPtr User) [1%positive])
                         ∅ [] loneUser) with
            | Ok (_, t) => t
            | _ => ∅
            end)).
  by vm_compute.
Defined.
(** ** Identifiers: [setIDForValue] and [getDocumentID] *)

(** X18. Writing an identifier and reading it back: when the field that
    [findIDField] finds (stored key [_id]) is the field that the metadata
    name as [idField], [getDocumentID] returns the identifier that
    [setIDForValue] has just written, and no other entity has changed. *)
Theorem setIDForValue_getDocumentID (metas : metadatas) (h h' : gmap ptr object) (p : ptr)
    (o : object) (meta : metadata) (f : field) (id : ObjectId) (e : option error) :
  h !! p = Some o ->
  metasLookup metas (TPtr (obj_type o)) = Some meta ->
  findIDField meta = Some f ->
  fld_name f = meta_idField meta ->
  setIDForValue metas h (Some p) id = Ok (e, h') ->
  e = None /\
  getDocumentID metas h' (Some p) = Ok (id, None) /\
  forall q, q <> p -> h' !! q = h !! q.
Proof.
  intros Hp Hm Hf Hn H. unfold setIDForValue in H. rewrite Hp, Hm in H.
  unfold setObjectIdField in H. rewrite Hp in H.
  destruct (obj_fields o !! meta_idField meta) as [[[]| | |]|]; try done.
  inversion H; subst e h'. clear H. split; [done|]. split.
  - unfold getDocumentID. rewrite lookup_insert_eq. simpl. rewrite Hm, Hf, Hn.
    by rewrite lookup_insert_eq.
  - intros q Hq. by rewrite lookup_insert_ne.
Qed.

Lemma setIDForValue_getDocumentID_witness :
  getDocumentID (metas membersManager)
    (<[1%positive := setField aMember "ID" (VId storedId)]> (heap membersManager))
    (Some 1%positive)
  = Ok (storedId, None).
Proof.
  refine (proj1 (proj2 (setIDForValue_getDocumentID (metas membersManager)
                   (heap membersManager) _ 1%positive aMember
                   (default zeroMetadata (metasLookup (metas membersManager) (TPtr Member)))
                   (default (newField {| sf_Name := ""; sf_bson := ""; sf_odm := "" |})
                      (findIDField
                         (default zeroMetadata
                            (metasLookup (metas membersManager) (TPtr Member)))))
                   storedId None _ _ _ _ _))).
  - by vm_compute.
  - by vm_compute.
  - by vm_compute.
  - by vm_compute.
  - by vm_compute.
Defined.

(** ** [FindAll] on a type without relations *)

Global Instance allocFrame_refl : Reflexive allocFrame.
Proof. by intros m. Qed.

Global Instance allocFrame_trans : Transitive allocFrame.
Proof. intros a b c [H1 H2] [G1 G2]. split; congruence. Qed.

Lemma allocAll_allocFrame T decoded : keeps allocFrame (allocAll T decoded).
Proof.
  induction decoded as [|fs rest IH]; simpl; [frame allocFrame|].
  apply (keeps_bind allocFrame); [frame allocFrame|]. intros m0.
  apply (keeps_bind allocFrame); [by intros m|]. intros _.
  apply (keeps_bind allocFrame); [apply IH|]. intros ps. frame allocFrame.
Qed.

Lemma allocAll_returns T decoded : returns (allocAll T decoded).
Proof.
  induction decoded as [|fs rest IH]; simpl; [total|].
  total. apply IH.
Qed.

Lemma keyValuesByObjectID_returns metas h ps : forall acc,
  keyValuesByObjectID metas h ps acc <> Timeout.
Proof.
  induction ps as [|p rest IH]; intros acc; cbn [keyValuesByObjectID]; [done|].
  assert (H : getDocumentID metas h (Some p) <> Timeout).
  { unfold getDocumentID. destruct (h !! p) as [o|]; [|done].
    destruct (metasLookup _ _) as [meta|]; [|done].
    destruct (findIDField meta) as [f|]; [|done].
    by destruct (obj_fields o !! fld_name f) as [[[]| | |]|]. }
  destruct (getDocumentID metas h (Some p)) as [[id e]| |]; [apply IH|done|done].
Qed.

(** X19. [FindAll] on a registered type none of whose fields carries a
    relation costs one query: it returns (with one unit of fuel, and
    whatever the driver answers) and its only call to the driver is the
    [Find(nil).All] on the collection of the type; the resolver behind it
    makes no call. *)
Theorem FindAll_without_relations (drv : Driver) (fuel : nat) (elem : rtype)
    (meta : metadata) (m : manager) :
  metasLookup (metas m) elem = Some meta ->
  metaHasRelation meta = false ->
  fst (FindAll drv (S fuel) elem m) <> Timeout /\
  trace (snd (FindAll drv (S fuel) elem m))
    = trace m ++ [CallFindAll (meta_targetDocument meta) []].
Proof.
  intros Hm Hr. remember (FindAll drv (S fuel) elem m) as r eqn:Er.
  unfold FindAll in Er. rewrite getManager_bind in Er. cbv beta in Er. rewrite Hm in Er.
  unfold mbind at 1, M_bind at 1, findAll at 1 in Er.
  destruct (drvFindAll drv (trace m) (meta_targetDocument meta) []) as [err|decoded];
    [by subst r|].
  unfold mbind at 1, M_bind at 1 in Er.
  pose proof (allocAll_allocFrame elem decoded
                (logCall m (CallFindAll (meta_targetDocument meta) []))) as Hk.
  pose proof (allocAll_returns elem decoded
                (logCall m (CallFindAll (meta_targetDocument meta) []))) as Ht.
  destruct (allocAll elem decoded _) as [[ps|msg|] m1]; simpl in Hk, Ht; [| |done].
  2:{ destruct Hk as [_ Hk]. simpl in Hk. by subst r. }
  destruct Hk as [Hk1 Hk2].
  unfold resolveRelations in Er. simpl in Er.
  unfold mbind, M_bind, getManager, lift in Er. simpl in Er.
  simpl in Hk1, Hk2. unfold getMetadatas in Er. rewrite Hk1, Hm in Er.
  pose proof (keyValuesByObjectID_returns (metas m) (heap m1) ps ∅) as Hs.
  destruct (keyValuesByObjectID (metas m) (heap m1) ps ∅) as [sources|msg|]; [| |done].
  - rewrite Hr in Er. by subst r.
  - by subst r.
Qed.

Lemma FindAll_without_relations_witness :
  trace (snd (FindAll emptyDatabase 1 (TPtr Member) membersManager))
  = trace membersManager ++ [CallFindAll "members" []].
Proof.
  refine (proj2 (FindAll_without_relations emptyDatabase 0 (TPtr Member)
                   (default zeroMetadata (metasLookup (metas membersManager) (TPtr Member)))
                   membersManager _ _)).
  - by vm_compute.
  - by vm_compute.
Defined.
